(** * web-for-db: a shallow embedding of the dashboard's request handlers

    The development follows [src/database_manager.py] and
    [src/routers/view.py].  Python [str] values are sequences of Unicode code
    points, [dict] values are insertion-ordered association lists, and the
    handlers are computations in a small state-and-exception monad whose state
    is the SQLAlchemy session that the handler received. *)

From Stdlib Require Import String Ascii DecimalString.
From Stdlib Require Import List NArith ZArith Bool Lia.
Import ListNotations.

Set Implicit Arguments.

(** ** Python strings *)

Definition char := N.
Definition str := list char.

(** [Py_UNICODE_ISSPACE]: the code points that [str.strip] and [str.split]
    treat as whitespace. *)
Definition is_space (c : char) : bool :=
  ((9 <=? c) && (c <=? 13) || (28 <=? c) && (c <=? 32) ||
   (c =? 133) || (c =? 160) || (c =? 5760) ||
   (8192 <=? c) && (c <=? 8202) ||
   (c =? 8232) || (c =? 8233) || (c =? 8239) || (c =? 8287) ||
   (c =? 12288))%N.

Fixpoint str_eqb (a b : str) : bool :=
  match a, b with
  | [], [] => true
  | x :: a', y :: b' => N.eqb x y && str_eqb a' b'
  | _, _ => false
  end.

(** [x in [k1, k2, ...]] for a list of strings. *)
Definition str_in (x : str) (l : list str) : bool := existsb (str_eqb x) l.

(** [s.lstrip()], [s.rstrip()], [s.strip()]. *)
Fixpoint lstrip (s : str) : str :=
  match s with
  | [] => []
  | c :: s' => if is_space c then lstrip s' else s
  end.

Fixpoint rstrip (s : str) : str :=
  match s with
  | [] => []
  | c :: s' =>
      match rstrip s' with
      | [] => if is_space c then [] else [c]
      | r => c :: r
      end
  end.

Definition strip (s : str) : str := rstrip (lstrip s).

(** [s.split()]: the maximal runs of non-whitespace, scanned left to right;
    [word] is the run being read, most recent character first. *)
Fixpoint split_scan (word : str) (s : str) : list str :=
  match s with
  | [] => match word with [] => [] | _ => [rev word] end
  | c :: s' =>
      if is_space c
      then match word with
           | [] => split_scan [] s'
           | _ => rev word :: split_scan [] s'
           end
      else split_scan (c :: word) s'
  end.

Definition split (s : str) : list str := split_scan [] s.

(** [s.startswith(p)] and the slice [s[n:]]. *)
Fixpoint startswith (s p : str) : bool :=
  match p, s with
  | [], _ => true
  | x :: p', y :: s' => N.eqb x y && startswith s' p'
  | _ :: _, [] => false
  end.

Definition slice_from (n : nat) (s : str) : str := skipn n s.

(** [sep.join(parts)]. *)
Fixpoint join (sep : str) (parts : list str) : str :=
  match parts with
  | [] => []
  | [p] => p
  | p :: ps => p ++ sep ++ join sep ps
  end.

(** [sub in s]. *)
Fixpoint contains (s sub : str) : bool :=
  startswith s sub || match s with [] => false | _ :: s' => contains s' sub end.

(** [s.split(sep)] for a non-empty separator: [skip] counts the characters of
    a separator occurrence still to be passed over, [part] is the piece being
    read, most recent character first. *)
Fixpoint split_sep_scan (sep : str) (skip : nat) (part : str) (s : str)
  : list str :=
  match s with
  | [] => [rev part]
  | c :: s' =>
      match skip with
      | S k => split_sep_scan sep k part s'
      | O =>
          if startswith s sep
          then rev part :: split_sep_scan sep (Nat.pred (length sep)) [] s'
          else split_sep_scan sep O (c :: part) s'
      end
  end.

Definition split_sep (s sep : str) : list str := split_sep_scan sep O [] s.

(** Decoding of the UTF-8 bytes of a source literal into code points. *)
Fixpoint utf8_decode (bs : list N) : str :=
  match bs with
  | [] => []
  | b0 :: r0 =>
      if (b0 <? 128)%N then b0 :: utf8_decode r0
      else match r0 with
      | [] => [b0]
      | b1 :: r1 =>
          if (b0 <? 224)%N
          then ((b0 - 192) * 64 + (b1 - 128))%N :: utf8_decode r1
          else match r1 with
          | [] => [b0; b1]
          | b2 :: r2 =>
              if (b0 <? 240)%N
              then ((b0 - 224) * 4096 + (b1 - 128) * 64 + (b2 - 128))%N
                   :: utf8_decode r2
              else match r2 with
              | [] => [b0; b1; b2]
              | b3 :: r3 =>
                  ((b0 - 240) * 262144 + (b1 - 128) * 4096
                   + (b2 - 128) * 64 + (b3 - 128))%N :: utf8_decode r3
              end
          end
      end
  end.

(** A source literal as a Python string. *)
Definition lit (s : string) : str :=
  utf8_decode (map N_of_ascii (list_ascii_of_string s)).

(** The double quote, which the f-strings put around identifiers. *)
Definition dq : str := [34%N].

(** [str(n)] for an integer. *)
Definition str_of_Z (z : Z) : str := lit (NilZero.string_of_int (Z.to_int z)).

(** ** Python dictionaries

    A [dict] keeps its keys in insertion order, and the handlers turn that
    order into SQL text, so a dictionary is the list of its items. *)

Definition dict (V : Type) := list (str * V).

Fixpoint dict_get {V} (k : str) (d : dict V) : option V :=
  match d with
  | [] => None
  | (k', v) :: d' => if str_eqb k k' then Some v else dict_get k d'
  end.

(** [k in d]. *)
Definition dict_has {V} (k : str) (d : dict V) : bool :=
  match dict_get k d with Some _ => true | None => false end.

(** [d[k] = v]: an existing key keeps its place, a new key goes last. *)
Fixpoint dict_set {V} (k : str) (v : V) (d : dict V) : dict V :=
  match d with
  | [] => [(k, v)]
  | (k', v') :: d' =>
      if str_eqb k k' then (k', v) :: d' else (k', v') :: dict_set k v d'
  end.

(** The items left by [del d[k]]; Python raises [KeyError] when [k] is not a
    key, which [dict_del] reports as [None]. *)
Fixpoint dict_remove {V} (k : str) (d : dict V) : dict V :=
  match d with
  | [] => []
  | (k', v') :: d' =>
      if str_eqb k k' then d' else (k', v') :: dict_remove k d'
  end.

Definition dict_del {V} (k : str) (d : dict V) : option (dict V) :=
  if dict_has k d then Some (dict_remove k d) else None.

Definition dict_keys {V} (d : dict V) : list str := map fst d.

(** [{**d1, **d2}]. *)
Definition dict_merge {V} (d1 d2 : dict V) : dict V :=
  fold_left (fun d kv => dict_set (fst kv) (snd kv) d) d2 d1.

(** [dict(form_data)]: the submitted fields in order of first appearance, the
    last value of a repeated field. *)
Definition dict_of_items {V} (items : list (str * V)) : dict V :=
  dict_merge [] items.

(** ** The Python runtime

    Dates, floats and decimals stay abstract, and so do the parsers and
    printers of the standard library.  The case mappings are those of
    [str.upper] and [str.lower]; [str.upper] maps each code point on its own,
    leaves whitespace alone and never produces any. *)

Class PyRuntime : Type := {
  date : Type;
  datetime : Type;
  float : Type;
  decimal : Type;
  date_fromisoformat : str -> option date;
  datetime_fromisoformat : str -> option datetime;
  int_of_str : str -> option Z;
  float_of_str : str -> option float;
  date_isoformat : date -> str;
  datetime_isoformat : datetime -> str;
  float_of_decimal : decimal -> float;
  upper_cp : char -> list char;
  lower : str -> str;
  upper_cp_space : forall c, is_space c = true -> upper_cp c = [c];
  upper_cp_word : forall c, is_space c = false ->
    upper_cp c <> [] /\ forallb (fun d => negb (is_space d)) (upper_cp c) = true
}.

(** [s.upper()]. *)
Definition upper `{PyRuntime} (s : str) : str := flat_map upper_cp s.

(** The values that travel between the handlers and the database. *)
Inductive pyval `{PyRuntime} : Type :=
| PNone
| PStr (s : str)
| PInt (z : Z)
| PFloat (f : float)
| PDecimal (d : decimal)
| PDate (d : date)
| PDateTime (d : datetime).

(** The conversion that [get_table_data] and [execute_custom_query] apply to
    every cell. *)
Definition json_safe `{PyRuntime} (value : pyval) : pyval :=
  match value with
  | PDate d => PStr (date_isoformat d)
  | PDateTime d => PStr (datetime_isoformat d)
  | PDecimal d => PFloat (float_of_decimal d)
  | _ => value
  end.

(** ** Reflected metadata *)

Inductive sqltype := Date | DateTime | Integer | Numeric | OtherType.

Record Column := {
  col_name : str;
  col_type : sqltype;        (* the class that [isinstance] tests *)
  col_type_str : str;        (* [str(column.type)] *)
  col_nullable : bool;
  col_primary_key : bool;
  col_has_default : bool     (* [column.default is not None] *)
}.

Record Table := {
  tbl_name : str;
  tbl_columns : list Column;
  tbl_primary_key : list str (* the names in [table.primary_key.columns] *)
}.

Record ForeignKey := {
  constrained_columns : list str;
  referred_table : str;
  referred_columns : list str
}.

Record Catalogue := {
  cat_tables : list Table;
  cat_foreign_keys : str -> list ForeignKey
}.

(** [metadata.tables[name]]. *)
Fixpoint find_table (name : str) (ts : list Table) : option Table :=
  match ts with
  | [] => None
  | t :: ts' => if str_eqb name (tbl_name t) then Some t else find_table name ts'
  end.

(** ** The database behind the engine

    [sql_run] is the effect of one statement on the data that the session's
    transaction sees, or the message of the error it raises; [sql_commit]
    tells whether committing that data raises; [catalogue] is the metadata
    that the inspector reads from the committed data. *)

Record ResultSet `{PyRuntime} := {
  rs_keys : list str;
  rs_rows : list (list pyval);
  rs_rowcount : Z
}.

Class Backend `{PyRuntime} : Type := {
  DBState : Type;
  sql_run : str -> dict pyval -> DBState -> (ResultSet * DBState) + str;
  sql_commit : DBState -> option str;
  catalogue : DBState -> Catalogue
}.

(** ** Sessions, exceptions and the handler monad *)

Inductive db_call `{PyRuntime} :=
| Execute (statement : str) (params : dict pyval)
| Commit
| Rollback
| Close.

Record Session `{Backend} := {
  committed : DBState;      (* what the database holds *)
  working : DBState;        (* what the open transaction sees *)
  calls : list db_call;     (* the calls made on the session, oldest first *)
  closed : bool
}.

Inductive exc :=
| SQLAlchemyError (message : str)
| HTTPException (status_code : N) (detail : str)
| KeyError (key : str)
| IndexError.

Inductive result (A : Type) :=
| Ok (a : A)
| Raise (e : exc).
Arguments Ok {A} a.
Arguments Raise {A} e.

Definition M `{Backend} (A : Type) : Type := Session -> result A * Session.

Definition ret `{Backend} {A} (a : A) : M A := fun s => (Ok a, s).

Definition raise `{Backend} {A} (e : exc) : M A := fun s => (Raise e, s).

Definition bind `{Backend} {A B} (m : M A) (k : A -> M B) : M B :=
  fun s => match m s with
           | (Ok a, s') => k a s'
           | (Raise e, s') => (Raise e, s')
           end.

Notation "x <- m ;; k" := (bind m (fun x => k))
  (at level 61, m at next level, right associativity).
Notation "' p <- m ;; k" := (bind m (fun x => match x with p => k end))
  (at level 61, p pattern, m at next level, right associativity).
Notation "m ;;; k" := (bind m (fun _ => k))
  (at level 61, right associativity).

(** [try: body except ...: handler]; [handler e] is [None] when no clause
    matches [e]. *)
Definition try_except `{Backend} {A} (body : M A)
    (handler : exc -> option (M A)) : M A :=
  fun s => match body s with
           | (Ok a, s') => (Ok a, s')
           | (Raise e, s') =>
               match handler e with
               | Some h => h s'
               | None => (Raise e, s')
               end
           end.

(** A computation that does not use the session. *)
Definition lift `{Backend} {A} (r : result A) : M A := fun s => (r, s).

(** An index or key that may be missing. *)
Definition or_raise `{Backend} {A} (e : exc) (o : option A) : M A :=
  match o with Some a => ret a | None => raise e end.

Fixpoint for_each `{Backend} {A B} (f : A -> M B) (l : list A) : M (list B) :=
  match l with
  | [] => ret []
  | a :: l' => b <- f a ;; bs <- for_each f l' ;; ret (b :: bs)
  end.

Definition record_call `{Backend} (c : db_call) (s : Session) : Session :=
  {| committed := committed s; working := working s;
     calls := calls s ++ [c]; closed := closed s |}.

(** [db.execute(text(statement), params)]. *)
Definition db_execute `{Backend} (statement : str) (params : dict pyval)
  : M ResultSet :=
  fun s =>
    let s1 := record_call (Execute statement params) s in
    match sql_run statement params (working s) with
    | inl (rs, d) =>
        (Ok rs, {| committed := committed s1; working := d;
                   calls := calls s1; closed := closed s1 |})
    | inr message => (Raise (SQLAlchemyError message), s1)
    end.

(** [db.commit()]. *)
Definition db_commit `{Backend} : M unit :=
  fun s =>
    let s1 := record_call Commit s in
    match sql_commit (working s) with
    | None =>
        (Ok tt, {| committed := working s1; working := working s1;
                   calls := calls s1; closed := closed s1 |})
    | Some message => (Raise (SQLAlchemyError message), s1)
    end.

(** [db.rollback()]. *)
Definition db_rollback `{Backend} : M unit :=
  fun s =>
    let s1 := record_call Rollback s in
    (Ok tt, {| committed := committed s1; working := committed s1;
               calls := calls s1; closed := closed s1 |}).

(** [db.close()]. *)
Definition db_close `{Backend} (s : Session) : Session :=
  let s1 := record_call Close s in
  {| committed := committed s1; working := committed s1;
     calls := calls s1; closed := true |}.

(** [database_manager.get_table_names()] and [MetaData().reflect(bind=engine)]
    both read the engine's catalogue. *)
Definition get_table_names `{Backend} : M (list str) :=
  fun s => (Ok (map tbl_name (cat_tables (catalogue (committed s)))), s).

Definition reflect `{Backend} : M (list Table) :=
  fun s => (Ok (cat_tables (catalogue (committed s))), s).

Definition get_foreign_keys `{Backend} (table_name : str)
  : M (list ForeignKey) :=
  fun s => (Ok (cat_foreign_keys (catalogue (committed s)) table_name), s).

(** ** Responses *)

Definition Row `{PyRuntime} := dict pyval.

(** The context of [view.html] as [show_tables] fills it. *)
Record ViewContext `{PyRuntime} := {
  view_tables : list str;
  view_current_table : option str;
  view_columns : list str;
  view_data : list Row;
  view_primary_keys : list str;
  view_required_columns : list str;
  view_message : option str;
  view_message_type : option str
}.

(** The context of [view.html] as the report endpoints fill it. *)
Record ReportContext `{PyRuntime} := {
  report_tables : list str;
  report_current_query : str;
  report_columns : list str;
  report_data : list Row;
  report_query_title : str
}.

(** The context of [view.html] as the SQL editor fills it. *)
Record SqlContext `{PyRuntime} := {
  sql_tables : list str;
  sql_current_query : str;
  sql_columns : list str;
  sql_data : list Row;
  sql_query_text : str;
  sql_error : option str;
  sql_success : option str
}.

Inductive Response `{PyRuntime} :=
| ViewPage (context : ViewContext)
| ReportPage (context : ReportContext)
| SqlPage (context : SqlContext)
| RedirectResponse (url : str) (status_code : N).

(** What [get_table_info] returns. *)
Record TableInfo := {
  info_primary_keys : list str;
  info_required_columns : list str;
  info_columns : list str
}.

(** What [get_table_schema] returns. *)
Record ForeignKeyInfo `{PyRuntime} := {
  target_table : str;
  target_column : str;
  fk_values : list pyval
}.

Record ColumnInfo `{PyRuntime} := {
  ci_name : str;
  ci_type : str;
  ci_input_type : str;
  ci_is_primary_key : bool;
  ci_is_nullable : bool;
  ci_has_default : bool;
  ci_is_foreign_key : bool;
  ci_foreign_key_info : option ForeignKeyInfo
}.

Record TableSchema `{PyRuntime} := {
  schema_table_name : str;
  schema_primary_keys : list str;
  schema_required_columns : list str;
  schema_columns : list ColumnInfo
}.

(** ** database_manager.py *)

(** [self.SessionLocal()]: a fresh session on the data the database holds. *)
Definition SessionLocal `{Backend} (d : DBState) : Session :=
  {| committed := d; working := d; calls := []; closed := false |}.

(** How the consumer of a generator resumes it at its [yield]. *)
Inductive resume := Next | Throw (e : exc).

(** How a resumed generator ends: it returns ([StopIteration]) or it raises. *)
Inductive ending := Stopped | Raised (e : exc).

(** A generator that has run up to its only [yield]: the value it yielded and
    the rest of its body, which runs when the generator is resumed. *)
Record Suspended `{Backend} := {
  yielded : Session;
  continue : resume -> Session -> ending * Session
}.

(** [DatabaseManager.get_db], up to its [yield]:
    [db = self.SessionLocal(); try: yield db; finally: db.close()]. *)
Definition DatabaseManager_get_db `{Backend} (d : DBState) : Suspended :=
  let db := SessionLocal d in
  {| yielded := db;
     continue := fun r s =>
       let s' := db_close s in
       match r with
       | Next => (Stopped, s')
       | Throw e => (Raised e, s')
       end |}.

(** [contextmanager]: [__enter__] runs the generator to its [yield],
    [__exit__] resumes it, with the exception of the block if there is one. *)
Definition cm_enter `{Backend} (g : Suspended) : Session := yielded g.

Definition cm_exit `{Backend} (g : Suspended) (raised : option exc)
  : Session -> ending * Session :=
  match raised with
  | None => continue g Next
  | Some e => continue g (Throw e)
  end.

(** The module-level [get_db], up to its [yield]:
    [with db_manager.get_db() as db: yield db]. *)
Definition get_db `{Backend} (d : DBState) : Suspended :=
  let cm := DatabaseManager_get_db d in
  let db := cm_enter cm in
  {| yielded := db;
     continue := fun r =>
       match r with
       | Next => cm_exit cm None
       | Throw e => cm_exit cm (Some e)
       end |}.

(** A request whose handler declares [db: Session = Depends(get_db)]: the
    framework takes the session from the generator, runs the handler and
    resumes the generator, throwing the handler's exception into it. *)
Definition request_scope `{Backend} {A} (handler : M A) (d : DBState)
  : result A * Session :=
  let g := get_db d in
  match handler (yielded g) with
  | (Ok a, s) => let '(_, s') := continue g Next s in (Ok a, s')
  | (Raise e, s) => let '(_, s') := continue g (Throw e) s in (Raise e, s')
  end.

(** ** routers/view.py *)

(** The loop that [get_table_data] and [execute_custom_query] run over the
    fetched rows: [row_dict[column] = value] for [i, column] in
    [enumerate(columns)], with [value = row[i]] made JSON-safe. *)
Fixpoint fill_row `{Backend} (columns : list str) (i : nat)
    (row : list pyval) (row_dict : Row) : M Row :=
  match columns with
  | [] => ret row_dict
  | column :: rest =>
      value <- or_raise IndexError (nth_error row i) ;;
      fill_row rest (S i) row (dict_set column (json_safe value) row_dict)
  end.

Definition rows_as_dicts `{Backend} (columns : list str)
    (rows : list (list pyval)) : M (list Row) :=
  for_each (fun row => fill_row columns 0 row []) rows.

Definition get_table_data `{Backend} (table_name : str)
  : M (list str * list Row) :=
  result <- db_execute (lit "SELECT * FROM " ++ dq ++ table_name ++ dq) [] ;;
  let columns := rs_keys result in
  data <- rows_as_dicts columns (rs_rows result) ;;
  ret (columns, data).

Definition not_found (table_name : str) : exc :=
  HTTPException 404 (lit "Таблица " ++ table_name ++ lit " не найдена").

Definition get_table_info `{Backend} (table_name : str) : M TableInfo :=
  tables <- reflect ;;
  match find_table table_name tables with
  | None => raise (not_found table_name)
  | Some table =>
      ret {| info_primary_keys := tbl_primary_key table;
             info_required_columns :=
               map col_name
                 (filter (fun column =>
                            negb (col_nullable column)
                            && negb (col_has_default column))
                         (tbl_columns table));
             info_columns := map col_name (tbl_columns table) |}
  end.

(** [if table_name:] for an optional string. *)
Definition truthy (s : option str) : bool :=
  match s with
  | Some (_ :: _) => true
  | _ => false
  end.

Definition show_tables `{Backend} (table_name message message_type : option str)
  : M Response :=
  tables <- get_table_names ;;
  '(columns, data, primary_keys, required_columns) <-
    match table_name with
    | Some name =>
        if truthy table_name && str_in name tables
        then '(columns, data) <- get_table_data name ;;
             if truthy table_name
             then table_info <- get_table_info name ;;
                  ret (columns, data, info_primary_keys table_info,
                       info_required_columns table_info)
             else ret (columns, data, [], [])
        else ret ([], [], [], [])
    | None => ret ([], [], [], [])
    end ;;
  ret (ViewPage {| view_tables := tables;
                   view_current_table := table_name;
                   view_columns := columns;
                   view_data := data;
                   view_primary_keys := primary_keys;
                   view_required_columns := required_columns;
                   view_message := message;
                   view_message_type := message_type |}).

Definition execute_custom_query `{Backend} (query : str)
  : M (list str * list Row) :=
  result <- db_execute query [] ;;
  let columns := rs_keys result in
  data <- rows_as_dicts columns (rs_rows result) ;;
  ret (columns, data).

(** The five reports: the text of each [query] and its [query_title]. *)

Definition query1_sql : str := lit "
    WITH ЗадолженностиКлиентов AS (
        SELECT 
            п.лицевой_счет,
            COUNT(DISTINCT п.код_услуги) AS количество_неоплаченных_услуг,
            SUM(п.сумма_к_оплате - COALESCE(пл.сумма_платежа, 0)) AS общая_задолженность
        FROM 
            потребление п
        LEFT JOIN 
            платежи пл ON п.лицевой_счет = пл.лицевой_счет 
            AND п.код_услуги = пл.код_услуги 
            AND п.период = пл.период
        WHERE 
            (п.сумма_к_оплате - COALESCE(пл.сумма_платежа, 0)) > 0
            OR пл.сумма_платежа IS NULL
        GROUP BY 
            п.лицевой_счет
        HAVING 
            COUNT(DISTINCT п.код_услуги) > 1
    )
    SELECT 
        з.лицевой_счет,
        к.фио,
        к.адрес,
        к.телефон,
        з.количество_неоплаченных_услуг,
        з.общая_задолженность
    FROM 
        ЗадолженностиКлиентов з
    JOIN 
        клиенты к ON з.лицевой_счет = к.лицевой_счет
    ORDER BY 
        з.общая_задолженность DESC
    ".

Definition query1_title : str :=
  lit "Клиенты с задолженностью по более чем 1 услуге".

Definition query2_sql : str := lit "
    SELECT 
        у.код_услуги,
        у.наименование AS услуга,
        у.единица_измерения,
        т.тарифная_зона,
        т.стоимость_единицы AS текущий_тариф,
        т.действует_с,
        т.действует_по,
        ROUND(AVG(п.объем), 2) AS средний_объем_потребления,
        COUNT(DISTINCT п.лицевой_счет) AS количество_потребителей
    FROM 
        услуги у
    JOIN 
        тарифы т ON у.код_услуги = т.код_услуги
    LEFT JOIN 
        потребление п ON у.код_услуги = п.код_услуги
    WHERE 
        (т.действует_по IS NULL OR т.действует_по >= CURRENT_DATE)
        AND т.действует_с <= CURRENT_DATE
    GROUP BY 
        у.код_услуги, у.наименование, у.единица_измерения, 
        т.тарифная_зона, т.стоимость_единицы, т.действует_с, т.действует_по
    ORDER BY 
        у.наименование, т.тарифная_зона
    ".

Definition query2_title : str :=
  lit "Коммунальные услуги с тарифами и объемами потребления".

Definition query3_sql : str := lit "
    WITH ПоследнийМесяц AS (
        SELECT MAX(период) AS макс_период FROM потребление
    ),
    СреднееПотребление AS (
        SELECT 
            п.код_услуги,
            у.наименование,
            AVG(п.объем) AS среднее_значение
        FROM 
            потребление п
        JOIN 
            услуги у ON п.код_услуги = у.код_услуги
        JOIN 
            ПоследнийМесяц пм ON п.период = пм.макс_период
        GROUP BY 
            п.код_услуги, у.наименование
    )
    SELECT 
        к.лицевой_счет,
        к.фио,
        к.адрес,
        у.наименование AS услуга,
        п.период,
        п.объем AS потребление_клиента,
        с.среднее_значение AS среднее_потребление,
        ROUND((п.объем - с.среднее_значение) / с.среднее_значение * 100, 2) AS процент_превышения
    FROM 
        потребление п
    JOIN 
        клиенты к ON п.лицевой_счет = к.лицевой_счет
    JOIN 
        услуги у ON п.код_услуги = у.код_услуги
    JOIN 
        СреднееПотребление с ON п.код_услуги = с.код_услуги
    JOIN 
        ПоследнийМесяц пм ON п.период = пм.макс_период
    WHERE 
        п.объем > с.среднее_значение
    ORDER BY 
        у.наименование, процент_превышения DESC
    ".

Definition query3_title : str :=
  lit "Клиенты с потреблением выше среднего за последний месяц".

Definition query4_sql : str := lit "
    WITH ПоследнийМесяц AS (
        SELECT MAX(период) AS макс_период FROM платежи
    )
    SELECT 
        к.лицевой_счет,
        к.фио,
        к.адрес,
        у.наименование AS услуга,
        SUM(пл.сумма_платежа) AS сумма_оплаты
    FROM 
        платежи пл
    JOIN 
        клиенты к ON пл.лицевой_счет = к.лицевой_счет
    JOIN 
        услуги у ON пл.код_услуги = у.код_услуги
    JOIN 
        ПоследнийМесяц пм ON пл.период = пм.макс_период
    WHERE 
        к.адрес LIKE '%ул. Пушкина%'
    GROUP BY 
        к.лицевой_счет, к.фио, к.адрес, у.наименование
    ORDER BY 
        к.фио, у.наименование
    ".

Definition query4_title : str :=
  lit "Ведомость оплаты коммунальных услуг по адресу 'ул. Пушкина'".

Definition query5_sql : str := lit "
    WITH МесяцыТекущегоГода AS (
        SELECT 
            DISTINCT период 
        FROM 
            потребление 
        WHERE 
            EXTRACT(YEAR FROM период) = EXTRACT(YEAR FROM CURRENT_DATE)
        ORDER BY 
            период
    ),
    ЗадолженностьПоУслугам AS (
        SELECT 
            п.период,
            п.код_услуги,
            у.наименование AS услуга,
            SUM(п.сумма_к_оплате) AS начислено,
            SUM(COALESCE(пл.сумма_платежа, 0)) AS оплачено,
            SUM(п.сумма_к_оплате - COALESCE(пл.сумма_платежа, 0)) AS задолженность,
            COUNT(DISTINCT CASE WHEN (п.сумма_к_оплате - COALESCE(пл.сумма_платежа, 0)) > 0 
                              THEN п.лицевой_счет END) AS количество_должников
        FROM 
            потребление п
        JOIN 
            услуги у ON п.код_услуги = у.код_услуги
        LEFT JOIN 
            платежи пл ON п.лицевой_счет = пл.лицевой_счет 
            AND п.код_услуги = пл.код_услуги 
            AND п.период = пл.период
        WHERE 
            EXTRACT(YEAR FROM п.период) = EXTRACT(YEAR FROM CURRENT_DATE)
        GROUP BY 
            п.период, п.код_услуги, у.наименование
    )
    SELECT 
        TO_CHAR(з.период, 'Month YYYY') AS месяц,
        з.услуга,
        з.начислено,
        з.оплачено,
        з.задолженность,
        з.количество_должников,
        ROUND(з.задолженность / NULLIF(з.начислено, 0) * 100, 2) AS процент_задолженности
    FROM 
        ЗадолженностьПоУслугам з
    JOIN 
        МесяцыТекущегоГода м ON з.период = м.период
    ORDER BY 
        з.период, з.услуга
    ".

Definition query5_title : str :=
  lit "Задолженность по коммунальным услугам по месяцам".

Definition run_query1 `{Backend} : M Response :=
  '(columns, data) <- execute_custom_query query1_sql ;;
  tables <- get_table_names ;;
  ret (ReportPage {| report_tables := tables;
                     report_current_query := lit "query1";
                     report_columns := columns;
                     report_data := data;
                     report_query_title := query1_title |}).

Definition run_query2 `{Backend} : M Response :=
  '(columns, data) <- execute_custom_query query2_sql ;;
  tables <- get_table_names ;;
  ret (ReportPage {| report_tables := tables;
                     report_current_query := lit "query2";
                     report_columns := columns;
                     report_data := data;
                     report_query_title := query2_title |}).

Definition run_query3 `{Backend} : M Response :=
  '(columns, data) <- execute_custom_query query3_sql ;;
  tables <- get_table_names ;;
  ret (ReportPage {| report_tables := tables;
                     report_current_query := lit "query3";
                     report_columns := columns;
                     report_data := data;
                     report_query_title := query3_title |}).

Definition run_query4 `{Backend} : M Response :=
  '(columns, data) <- execute_custom_query query4_sql ;;
  tables <- get_table_names ;;
  ret (ReportPage {| report_tables := tables;
                     report_current_query := lit "query4";
                     report_columns := columns;
                     report_data := data;
                     report_query_title := query4_title |}).

Definition run_query5 `{Backend} : M Response :=
  '(columns, data) <- execute_custom_query query5_sql ;;
  tables <- get_table_names ;;
  ret (ReportPage {| report_tables := tables;
                     report_current_query := lit "query5";
                     report_columns := columns;
                     report_data := data;
                     report_query_title := query5_title |}).

(** [templates.TemplateResponse("view.html", {...})] as [execute_sql] builds
    it; the dictionary display calls [get_table_names()]. *)
Definition sql_page `{Backend} (columns : list str) (data : list Row)
    (sql_query : str) (error success : option str) : M Response :=
  tables <- get_table_names ;;
  ret (SqlPage {| sql_tables := tables;
                  sql_current_query := lit "custom_sql";
                  sql_columns := columns;
                  sql_data := data;
                  sql_query_text := sql_query;
                  sql_error := error;
                  sql_success := success |}).

Definition dangerous_keywords : list str :=
  [lit "DROP"; lit "CREATE"; lit "ALTER"; lit "TRUNCATE"; lit "GRANT";
   lit "REVOKE"].

Definition newline : str := [10%N].

(** [str(e)]. *)
Definition exc_str (e : exc) : str :=
  match e with
  | SQLAlchemyError message => message
  | HTTPException status detail =>
      str_of_Z (Z.of_N status) ++ lit ": " ++ detail
  | KeyError key => lit "'" ++ key ++ lit "'"
  | IndexError => lit "list index out of range"
  end.

(** The message that the [except SQLAlchemyError] clause of [execute_sql]
    shows: the first line of [str(e)] and, when there is one, the line that
    follows [DETAIL:]. *)
Definition sql_error_message `{Backend} (e_str : str) : M str :=
  error_message <- or_raise IndexError (nth_error (split_sep e_str newline) 0) ;;
  if contains e_str (lit "DETAIL:")
  then after <- or_raise IndexError
                  (nth_error (split_sep e_str (lit "DETAIL:")) 1) ;;
       line <- or_raise IndexError (nth_error (split_sep after newline) 0) ;;
       ret (error_message ++ lit " Детали: " ++ strip line)
  else ret error_message.

Definition is_empty (s : str) : bool :=
  match s with [] => true | _ => false end.

(** The query type that [execute_sql] reads off a stripped query:
    [sql_query.upper().strip().split()[0]]. *)
Definition query_type_of `{PyRuntime} (sql_query : str) : option str :=
  nth_error (split (strip (upper sql_query))) 0.

(** The [try] block of [execute_sql], after [sql_query = sql_query.strip()]. *)
Definition execute_sql_try `{Backend} (sql_query : str) : M Response :=
  if is_empty sql_query
  then sql_page [] [] sql_query
         (Some (lit "Запрос не может быть пустым")) None
  else
    query_type <- or_raise IndexError (query_type_of sql_query) ;;
    if str_eqb query_type (lit "SELECT")
    then
      '(columns, data) <- execute_custom_query sql_query ;;
      let success_message :=
        lit "Запрос выполнен успешно. Найдено записей: "
        ++ str_of_Z (Z.of_nat (length data)) in
      sql_page columns data sql_query None (Some success_message)
    else if str_in query_type [lit "INSERT"; lit "UPDATE"; lit "DELETE"]
    then
      result <- db_execute sql_query [] ;;
      db_commit ;;;
      let rows_affected := rs_rowcount result in
      let success_message :=
        lit "Запрос выполнен успешно. Затронуто строк: "
        ++ str_of_Z rows_affected in
      sql_page [] [] sql_query None (Some success_message)
    else if str_in query_type dangerous_keywords
    then
      sql_page [] [] sql_query
        (Some (lit "Выполнение запросов типа " ++ query_type
               ++ lit " ограничено из соображений безопасности"))
        None
    else
      db_execute sql_query [] ;;;
      db_commit ;;;
      sql_page [] [] sql_query None (Some (lit "Запрос выполнен успешно")).

Definition execute_sql `{Backend} (sql_query : str) : M Response :=
  let sql_query := strip sql_query in
  try_except (execute_sql_try sql_query)
    (fun e =>
       match e with
       | SQLAlchemyError _ =>
           Some (db_rollback ;;;
                 error_message <- sql_error_message (exc_str e) ;;
                 sql_page [] [] sql_query (Some error_message) None)
       | _ =>
           Some (sql_page [] [] sql_query
                   (Some (lit "Неожиданная ошибка: " ++ exc_str e)) None)
       end).

(** The redirects of the record handlers. *)
Definition view_url (table_name message message_type : str) : str :=
  lit "/view?table_name=" ++ table_name ++ lit "&message=" ++ message
  ++ lit "&message_type=" ++ message_type.

(** [except SQLAlchemyError as e: db.rollback(); return RedirectResponse(...)],
    the clause that closes each record handler. *)
Definition redirect_on_db_error `{Backend} (table_name what : str)
    (e : exc) : option (M Response) :=
  match e with
  | SQLAlchemyError _ =>
      Some (db_rollback ;;;
            ret (RedirectResponse
                   (view_url table_name (what ++ exc_str e) (lit "danger"))
                   303))
  | _ => None
  end.

(** [dict(form_data)], whose values are the submitted strings. *)
Definition form_dict_of `{PyRuntime} (form_data : list (str * str))
  : dict pyval :=
  dict_of_items (map (fun kv => (fst kv, PStr (snd kv))) form_data).

Definition bad_request (detail : str) : exc := HTTPException 400 detail.

(** The body of [for column in table.columns] in [add_record].  A column
    collection has one column per name, so the value read from [form_dict]
    is the submitted string; other values are left as they are. *)
Definition convert_column `{PyRuntime} (column : Column)
    (form_dict : dict pyval) : result (dict pyval) :=
  let name := col_name column in
  match dict_get name form_dict with
  | Some (PStr value) =>
      if is_empty value && col_nullable column
      then Ok (dict_set name PNone form_dict)
      else
        let dated :=
          match col_type column, value with
          | Date, _ :: _ =>
              match date_fromisoformat value with
              | Some d => Ok (dict_set name (PDate d) form_dict)
              | None =>
                  Raise (bad_request
                    (lit "Неверный формат даты для поля " ++ name
                     ++ lit ". Используйте формат YYYY-MM-DD."))
              end
          | DateTime, _ :: _ =>
              match datetime_fromisoformat value with
              | Some d => Ok (dict_set name (PDateTime d) form_dict)
              | None =>
                  Raise (bad_request
                    (lit "Неверный формат даты для поля " ++ name
                     ++ lit ". Используйте формат YYYY-MM-DD."))
              end
          | _, _ => Ok form_dict
          end in
        match dated with
        | Raise e => Raise e
        | Ok form_dict =>
            match col_type column, value with
            | Integer, _ :: _ =>
                match int_of_str value with
                | Some z => Ok (dict_set name (PInt z) form_dict)
                | None =>
                    Raise (bad_request
                      (lit "Неверный числовой формат для поля " ++ name
                       ++ lit "."))
                end
            | Numeric, _ :: _ =>
                match float_of_str value with
                | Some f => Ok (dict_set name (PFloat f) form_dict)
                | None =>
                    Raise (bad_request
                      (lit "Неверный числовой формат для поля " ++ name
                       ++ lit "."))
                end
            | _, _ => Ok form_dict
            end
        end
  | _ => Ok form_dict
  end.

Fixpoint convert_columns `{PyRuntime} (columns : list Column)
    (form_dict : dict pyval) : result (dict pyval) :=
  match columns with
  | [] => Ok form_dict
  | column :: rest =>
      match convert_column column form_dict with
      | Ok form_dict => convert_columns rest form_dict
      | Raise e => Raise e
      end
  end.

(** The statement text of [add_record]. *)
Definition insert_statement (table_name : str) (keys : list str) : str :=
  let columns := join (lit ", ") (map (fun key => dq ++ key ++ dq) keys) in
  let placeholders := join (lit ", ") (map (fun key => lit ":" ++ key) keys) in
  lit "INSERT INTO " ++ dq ++ table_name ++ dq ++ lit " (" ++ columns
  ++ lit ") VALUES (" ++ placeholders ++ lit ")".

(** What [add_record] passes to [db.execute], unless a value is refused. *)
Definition add_statement `{PyRuntime} (table_name : str) (table : Table)
    (form_dict : dict pyval) : result (str * dict pyval) :=
  match convert_columns (tbl_columns table) form_dict with
  | Ok form_dict =>
      Ok (insert_statement table_name (dict_keys form_dict), form_dict)
  | Raise e => Raise e
  end.

(** The [try] block of [add_record]. *)
Definition add_record_try `{Backend} (table_name : str)
    (form_data : list (str * str)) : M Response :=
  let form_dict := form_dict_of form_data in
  form_dict <- or_raise (KeyError (lit "table_name"))
                 (dict_del (lit "table_name") form_dict) ;;
  tables <- get_table_names ;;
  if negb (str_in table_name tables)
  then raise (not_found table_name)
  else
    metadata <- reflect ;;
    table <- or_raise (KeyError table_name) (find_table table_name metadata) ;;
    '(query, form_dict) <- lift (add_statement table_name table form_dict) ;;
    db_execute query form_dict ;;;
    db_commit ;;;
    ret (RedirectResponse
           (view_url table_name (lit "Запись успешно добавлена")
              (lit "success"))
           303).

Definition add_record `{Backend} (table_name : str)
    (form_data : list (str * str)) : M Response :=
  try_except (add_record_try table_name form_data)
    (redirect_on_db_error table_name (lit "Ошибка при добавлении записи: ")).

(** The first loop of [edit_record] over [list(form_dict.items())]: a field
    whose name starts with [pk_] moves, without the prefix, from [form_dict]
    to [primary_keys].  The key deleted is one of the dictionary's own. *)
Definition split_primary_keys {V} (form_dict : dict V) : dict V * dict V :=
  fold_left
    (fun '(primary_keys, form_dict) '(key, value) =>
       if startswith key (lit "pk_")
       then let original_key := slice_from 3 key in
            (dict_set original_key value primary_keys,
             dict_remove key form_dict)
       else (primary_keys, form_dict))
    form_dict ([], form_dict).

(** The second loop of [edit_record]: an empty value becomes [None]. *)
Definition empty_to_none `{PyRuntime} (form_dict : dict pyval) : dict pyval :=
  fold_left
    (fun form_dict '(key, value) =>
       match value with
       | PStr [] => dict_set key PNone form_dict
       | _ => form_dict
       end)
    form_dict form_dict.

(** The statement text of [edit_record]. *)
Definition update_statement (table_name : str) (set_keys where_keys : list str)
  : str :=
  let set_clause :=
    join (lit ", ")
      (map (fun key => dq ++ key ++ dq ++ lit " = :" ++ key) set_keys) in
  let where_clause :=
    join (lit " AND ")
      (map (fun key => dq ++ key ++ dq ++ lit " = :" ++ key ++ lit "_pk")
         where_keys) in
  lit "UPDATE " ++ dq ++ table_name ++ dq ++ lit " SET " ++ set_clause
  ++ lit " WHERE " ++ where_clause.

(** What [edit_record] passes to [db.execute]: the statement and its
    parameters. *)
Definition edit_statement `{PyRuntime} (table_name : str)
    (form_dict : dict pyval) : str * dict pyval :=
  let '(primary_keys, form_dict) := split_primary_keys form_dict in
  let form_dict := empty_to_none form_dict in
  let where_values :=
    dict_of_items
      (map (fun '(key, value) => (key ++ lit "_pk", value)) primary_keys) in
  let query_params := dict_merge form_dict where_values in
  (update_statement table_name (dict_keys form_dict) (dict_keys primary_keys),
   query_params).

(** The [try] block of [edit_record]. *)
Definition edit_record_try `{Backend} (table_name : str)
    (form_data : list (str * str)) : M Response :=
  let form_dict := form_dict_of form_data in
  form_dict <- or_raise (KeyError (lit "table_name"))
                 (dict_del (lit "table_name") form_dict) ;;
  tables <- get_table_names ;;
  if negb (str_in table_name tables)
  then raise (not_found table_name)
  else
    let '(query, query_params) := edit_statement table_name form_dict in
    db_execute query query_params ;;;
    db_commit ;;;
    ret (RedirectResponse
           (view_url table_name (lit "Запись успешно обновлена")
              (lit "success"))
           303).

Definition edit_record `{Backend} (table_name : str)
    (form_data : list (str * str)) : M Response :=
  try_except (edit_record_try table_name form_data)
    (redirect_on_db_error table_name (lit "Ошибка при обновлении записи: ")).

(** The loop of [delete_record]: the [pk_] fields, without the prefix. *)
Definition collect_primary_keys {V} (form_dict : dict V) : dict V :=
  fold_left
    (fun primary_keys '(key, value) =>
       if startswith key (lit "pk_")
       then dict_set (slice_from 3 key) value primary_keys
       else primary_keys)
    form_dict [].

(** The statement text of [delete_record]. *)
Definition delete_statement_text (table_name : str) (where_keys : list str)
  : str :=
  let where_clause :=
    join (lit " AND ")
      (map (fun key => dq ++ key ++ dq ++ lit " = :" ++ key) where_keys) in
  lit "DELETE FROM " ++ dq ++ table_name ++ dq ++ lit " WHERE "
  ++ where_clause.

(** What [delete_record] passes to [db.execute]. *)
Definition delete_statement `{PyRuntime} (table_name : str)
    (form_dict : dict pyval) : str * dict pyval :=
  let primary_keys := collect_primary_keys form_dict in
  let query_params := dict_of_items primary_keys in
  (delete_statement_text table_name (dict_keys primary_keys), query_params).

(** The [try] block of [delete_record]. *)
Definition delete_record_try `{Backend} (table_name : str)
    (form_data : list (str * str)) : M Response :=
  let form_dict := form_dict_of form_data in
  form_dict <- or_raise (KeyError (lit "table_name"))
                 (dict_del (lit "table_name") form_dict) ;;
  tables <- get_table_names ;;
  if negb (str_in table_name tables)
  then raise (not_found table_name)
  else
    let '(query, query_params) := delete_statement table_name form_dict in
    db_execute query query_params ;;;
    db_commit ;;;
    ret (RedirectResponse
           (view_url table_name (lit "Запись успешно удалена")
              (lit "success"))
           303).

Definition delete_record `{Backend} (table_name : str)
    (form_data : list (str * str)) : M Response :=
  try_except (delete_record_try table_name form_data)
    (redirect_on_db_error table_name (lit "Ошибка при удалении записи: ")).

(** [input_type] in [get_table_schema]. *)
Definition input_type_of `{PyRuntime} (column_type : str) : str :=
  let lowered := lower column_type in
  if contains lowered (lit "int") then lit "number"
  else if contains lowered (lit "date") then lit "date"
  else if contains lowered (lit "time") then lit "time"
  else if contains lowered (lit "numeric") then lit "number"
  else lit "text".

(** The statement that lists the values a foreign key may take. *)
Definition distinct_statement (target_column target_table : str) : str :=
  lit "SELECT DISTINCT " ++ dq ++ target_column ++ dq ++ lit " FROM "
  ++ dq ++ target_table ++ dq.

(** [for fk in foreign_keys: if column.name in fk['constrained_columns']: ...
    break], giving [is_foreign_key] and [foreign_key_info]. *)
Fixpoint foreign_key_lookup `{Backend} (column_name : str)
    (foreign_keys : list ForeignKey) : M (bool * option ForeignKeyInfo) :=
  match foreign_keys with
  | [] => ret (false, None)
  | fk :: rest =>
      if str_in column_name (constrained_columns fk)
      then
        let target_table := referred_table fk in
        target_column <-
          or_raise IndexError (nth_error (referred_columns fk) 0) ;;
        result <- db_execute (distinct_statement target_column target_table) [] ;;
        values <- for_each (fun row => or_raise IndexError (nth_error row 0))
                    (rs_rows result) ;;
        ret (true, Some {| target_table := target_table;
                           target_column := target_column;
                           fk_values := values |})
      else foreign_key_lookup column_name rest
  end.

Definition column_info `{Backend} (foreign_keys : list ForeignKey)
    (column : Column) : M ColumnInfo :=
  let column_type := col_type_str column in
  let input_type := input_type_of column_type in
  '(is_foreign_key, foreign_key_info) <-
    foreign_key_lookup (col_name column) foreign_keys ;;
  ret {| ci_name := col_name column;
         ci_type := column_type;
         ci_input_type := input_type;
         ci_is_primary_key := col_primary_key column;
         ci_is_nullable := col_nullable column;
         ci_has_default := col_has_default column;
         ci_is_foreign_key := is_foreign_key;
         ci_foreign_key_info := foreign_key_info |}.

Definition get_table_schema `{Backend} (table_name : str) : M TableSchema :=
  try_except
    (tables <- get_table_names ;;
     if negb (str_in table_name tables)
     then raise (not_found table_name)
     else
       table_info <- get_table_info table_name ;;
       metadata <- reflect ;;
       match find_table table_name metadata with
       | None => raise (not_found table_name)
       | Some table =>
           foreign_keys <- get_foreign_keys table_name ;;
           columns_info <- for_each (column_info foreign_keys)
                             (tbl_columns table) ;;
           ret {| schema_table_name := table_name;
                  schema_primary_keys := info_primary_keys table_info;
                  schema_required_columns := info_required_columns table_info;
                  schema_columns := columns_info |}
       end)
    (fun e =>
       match e with
       | SQLAlchemyError _ =>
           Some (raise (HTTPException 500
                          (lit "Ошибка базы данных: " ++ exc_str e)))
       | _ => None
       end).

(** The report routes that the router registers, in source order. *)
Inductive report := Query1 | Query2 | Query3 | Query4 | Query5.

Definition report_routes : list (str * report) :=
  [(lit "/query1", Query1); (lit "/query2", Query2); (lit "/query3", Query3);
   (lit "/query4", Query4); (lit "/query5", Query5)].

Definition report_handler `{Backend} (r : report) : M Response :=
  match r with
  | Query1 => run_query1
  | Query2 => run_query2
  | Query3 => run_query3
  | Query4 => run_query4
  | Query5 => run_query5
  end.

(** ** A small runtime and database to run the handlers on

    The runtime knows the ASCII letters only; the database counts the
    statements it has run and refuses every statement that mentions
    [boom]. *)

Definition ascii_upper_cp (c : char) : list char :=
  if ((97 <=? c) && (c <=? 122))%N then [(c - 32)%N] else [c].

Definition ascii_lower_cp (c : char) : char :=
  if ((65 <=? c) && (c <=? 90))%N then (c + 32)%N else c.

Fixpoint digits_value (acc : Z) (s : str) : option Z :=
  match s with
  | [] => Some acc
  | c :: s' =>
      if ((48 <=? c) && (c <=? 57))%N
      then digits_value (10 * acc + Z.of_N (c - 48)) s'
      else None
  end.

Definition ascii_int_of_str (s : str) : option Z :=
  match s with
  | [] => None
  | 45%N :: (_ :: _) as s' => option_map Z.opp (digits_value 0 s')
  | _ => digits_value 0 s
  end.

Definition ascii_runtime : PyRuntime.
Proof.
  refine {| date := str; datetime := str; float := Z; decimal := Z;
            date_fromisoformat := fun s =>
              if Nat.eqb (length s) 10 then Some s else None;
            datetime_fromisoformat := fun s =>
              if Nat.leb 10 (length s) then Some s else None;
            int_of_str := ascii_int_of_str;
            float_of_str := ascii_int_of_str;
            date_isoformat := fun d => d;
            datetime_isoformat := fun d => d;
            float_of_decimal := fun d => d;
            upper_cp := ascii_upper_cp;
            lower := map ascii_lower_cp |}.
  - abstract
      (intros c Hc; unfold ascii_upper_cp;
       destruct ((97 <=? c) && (c <=? 122))%N eqn:E; [|reflexivity];
       exfalso; apply andb_prop in E; destruct E as [E1 E2];
       apply N.leb_le in E1, E2; unfold is_space in Hc;
       repeat (apply orb_prop in Hc; destruct Hc as [Hc|Hc]);
       repeat match goal with
              | H : (_ && _)%bool = true |- _ =>
                  apply andb_prop in H; destruct H
              | H : (_ <=? _)%N = true |- _ => apply N.leb_le in H
              | H : (_ =? _)%N = true |- _ => apply N.eqb_eq in H
              end; lia).
  - abstract
      (intros c Hc; unfold ascii_upper_cp;
       destruct ((97 <=? c) && (c <=? 122))%N eqn:E;
       [ split; [discriminate|]; simpl; rewrite andb_true_r;
         apply andb_prop in E; destruct E as [E1 E2];
         apply N.leb_le in E1, E2;
         assert (Hs : (c - 32 = 65 + (c - 97))%N) by lia; rewrite Hs;
         assert (Hr : (c - 97 <= 25)%N) by lia; clear - Hr;
         destruct (c - 97)%N as [|p]; [reflexivity|];
         do 5 (destruct p as [p|p|]; try reflexivity; try (exfalso; lia))
       | split; [discriminate|]; simpl; rewrite Hc; reflexivity ]).
Defined.

Definition toy_clients : Table :=
  {| tbl_name := lit "clients";
     tbl_columns :=
       [ {| col_name := lit "id"; col_type := Integer;
            col_type_str := lit "INTEGER"; col_nullable := false;
            col_primary_key := true; col_has_default := false |};
         {| col_name := lit "phone"; col_type := OtherType;
            col_type_str := lit "VARCHAR(20)"; col_nullable := true;
            col_primary_key := false; col_has_default := false |} ];
     tbl_primary_key := [lit "id"] |}.

Definition toy_payments : Table :=
  {| tbl_name := lit "payments";
     tbl_columns :=
       [ {| col_name := lit "no"; col_type := Integer;
            col_type_str := lit "INTEGER"; col_nullable := false;
            col_primary_key := true; col_has_default := false |};
         {| col_name := lit "client"; col_type := Integer;
            col_type_str := lit "INTEGER"; col_nullable := false;
            col_primary_key := false; col_has_default := false |};
         {| col_name := lit "paid_on"; col_type := Date;
            col_type_str := lit "DATE"; col_nullable := true;
            col_primary_key := false; col_has_default := false |} ];
     tbl_primary_key := [lit "no"] |}.

Definition toy_catalogue : Catalogue :=
  {| cat_tables := [toy_clients; toy_payments];
     cat_foreign_keys := fun table_name =>
       if str_eqb table_name (lit "payments")
       then [ {| constrained_columns := [lit "client"];
                 referred_table := lit "clients";
                 referred_columns := [lit "id"] |} ]
       else [] |}.

Definition toy_backend : @Backend ascii_runtime :=
  {| DBState := Z;
     sql_run := fun statement _ d =>
       if contains statement (lit "boom")
       then inr (lit "boom")
       else inl ({| rs_keys := [lit "n"];
                    rs_rows := [[PInt d]];
                    rs_rowcount := 1 |}, (d + 1)%Z);
     sql_commit := fun _ => None;
     catalogue := fun _ => toy_catalogue |}.

(** ** What a run of a handler shows *)

(** The calls that a run added to the session [s] it started from. *)
Definition new_calls `{Backend} (s s' : Session) : list db_call :=
  skipn (length (calls s)) (calls s').

(** Whether [execute_sql] passed the submitted query to the database. *)
Definition passed_to_database `{Backend} (sql_query : str) (s : Session)
  : bool :=
  match new_calls s (snd (execute_sql sql_query s)) with
  | Execute statement _ :: _ => str_eqb statement (strip sql_query)
  | _ => false
  end.

(** The first whitespace-delimited token of a submitted query. *)
Definition first_token (sql_query : str) : option str :=
  nth_error (split sql_query) 0.

(** Strings made of whitespace only, and strings without any. *)
Definition all_space (s : str) : bool := forallb is_space s.

Definition no_space (s : str) : bool :=
  forallb (fun c => negb (is_space c)) s.

(** A computation that leaves the session as it is and raises only
    exceptions that satisfy [P]. *)
Definition pure_raising `{Backend} {A} (P : exc -> Prop) (m : M A) : Prop :=
  forall s, exists r, m s = (r, s) /\ forall e, r = Raise e -> P e.

(** The text, the name and the title that each report route uses. *)
Definition report_sql (r : report) : str :=
  match r with
  | Query1 => query1_sql
  | Query2 => query2_sql
  | Query3 => query3_sql
  | Query4 => query4_sql
  | Query5 => query5_sql
  end.

Definition report_name (r : report) : str :=
  match r with
  | Query1 => lit "query1"
  | Query2 => lit "query2"
  | Query3 => lit "query3"
  | Query4 => lit "query4"
  | Query5 => lit "query5"
  end.

Definition report_title (r : report) : str :=
  match r with
  | Query1 => query1_title
  | Query2 => query2_title
  | Query3 => query3_title
  | Query4 => query4_title
  | Query5 => query5_title
  end.

(** A fetched row that has a cell for each of [n] columns. *)
Definition row_has_cells `{PyRuntime} (n : nat) (row : list pyval) : Prop :=
  (n <= length row)%nat.

(** ** What the record statements are made of *)

(** A field that names a primary-key column. *)
Definition is_pk (key : str) : bool := startswith key (lit "pk_").

Definition dict_map {V W} (f : V -> W) (d : dict V) : dict W :=
  map (fun kv => (fst kv, f (snd kv))) d.

(** The fields of a form other than [table_name], from the names alone, in
    the order in which the handlers meet them. *)
Definition field_names (names : list str) : list str :=
  dict_keys
    (dict_remove (lit "table_name")
       (dict_of_items (map (fun name => (name, tt)) names))).

(** The form of a record handler after [del form_dict["table_name"]]. *)
Definition fields_of `{PyRuntime} (form_data : list (str * str))
  : dict pyval :=
  dict_remove (lit "table_name") (form_dict_of form_data).

(** The value [edit_record] binds for a field that is not a key. *)
Definition none_if_empty `{PyRuntime} (value : pyval) : pyval :=
  match value with
  | PStr [] => PNone
  | _ => value
  end.

(** What the parameter bound for a submitted value may be: the string as it
    was submitted, [None] for the empty string, or what a parser of the
    runtime read from the string. *)
Definition bound_as `{PyRuntime} (value : str) (param : pyval) : Prop :=
  param = PStr value \/
  (value = [] /\ param = PNone) \/
  (exists d, date_fromisoformat value = Some d /\ param = PDate d) \/
  (exists d, datetime_fromisoformat value = Some d /\ param = PDateTime d) \/
  (exists z, int_of_str value = Some z /\ param = PInt z) \/
  (exists f, float_of_str value = Some f /\ param = PFloat f).

(** A submitted value that some parameter of the statement carries. *)
Definition value_is_bound `{PyRuntime} (value : str) (params : dict pyval)
  : Prop :=
  exists name param, dict_get name params = Some param /\ bound_as value param.

(** No field that is not a key is named like the [_pk] parameter of a key
    field. *)
Definition pk_suffix_free (keys : list str) : Prop :=
  forall key other,
    In key keys -> is_pk key = true ->
    In other keys -> is_pk other = false ->
    other <> slice_from 3 key ++ lit "_pk".

(** The key fields of a form with the prefix taken off, and the other
    fields. *)
Definition key_fields {V} (d : dict V) : dict V :=
  map (fun kv => (slice_from 3 (fst kv), snd kv))
    (filter (fun kv => is_pk (fst kv)) d).

Definition other_fields {V} (d : dict V) : dict V :=
  filter (fun kv => negb (is_pk (fst kv))) d.

(** What ties the parameters of [add_record] to the submitted form: the same
    keys, and for each submitted string a parameter read from it. *)
Definition binds_form `{PyRuntime} (form params : dict pyval) : Prop :=
  dict_keys params = dict_keys form /\
  forall key value,
    dict_get key form = Some (PStr value) ->
    exists param, dict_get key params = Some param /\ bound_as value param.

(** A computation that only adds calls to the session, and passes to
    [db.execute] only statements and parameters that satisfy [P]. *)
Definition only_executes `{Backend} {A} (P : str -> dict pyval -> Prop)
    (m : M A) : Prop :=
  forall s, exists added,
    calls (snd (m s)) = calls s ++ added /\
    forall statement params, In (Execute statement params) added ->
                             P statement params.

(** ** What the schema endpoint reports *)

(** Foreign keys that refer to a column whose values the database lists
    whenever it is asked, in rows of at least one cell. *)
Definition answers_lookups `{Backend} (foreign_keys : list ForeignKey)
  : Prop :=
  Forall
    (fun fk =>
       exists target,
         nth_error (referred_columns fk) 0 = Some target /\
         forall d, exists rs d',
           sql_run (distinct_statement target (referred_table fk)) [] d
           = inl (rs, d') /\
           Forall (row_has_cells 1) (rs_rows rs))
    foreign_keys.

(** ** Sample requests for the small database *)

Definition toy_session : @Session ascii_runtime toy_backend :=
  @SessionLocal ascii_runtime toy_backend 0%Z.

(** A form that deletes client 5 and carries a field that is not a key. *)
Definition delete_form : list (str * str) :=
  [(lit "table_name", lit "clients"); (lit "note", lit "z");
   (lit "pk_id", lit "5")].

(** A form that edits client 5. *)
Definition edit_form : list (str * str) :=
  [(lit "table_name", lit "clients"); (lit "phone", []);
   (lit "pk_id", lit "5")].

(** A form whose field [x_pk] is named like the parameter of the key field
    [pk_x]. *)
Definition collision_form (value : str) : list (str * str) :=
  [(lit "table_name", lit "clients"); (lit "x_pk", value);
   (lit "pk_x", lit "5")].

(** A form that adds a payment. *)
Definition add_form : list (str * str) :=
  [(lit "table_name", lit "payments"); (lit "no", lit "12");
   (lit "paid_on", [])].

(** A form for a column that the small database refuses. *)
Definition boom_form : list (str * str) :=
  [(lit "table_name", lit "clients"); (lit "boom", lit "1");
   (lit "pk_boom", lit "5")].

(** ** What the SQL editor answers *)

(** The page that [execute_sql] shows for a query: it echoes the query,
    lists the tables that the database has when the page is built, and
    carries either an error or a success message. *)
Definition answers_with `{Backend} (sql_query : str) (r : result Response)
    (s' : Session) : Prop :=
  exists page,
    r = Ok (SqlPage page) /\
    sql_query_text page = sql_query /\
    sql_current_query page = lit "custom_sql" /\
    sql_tables page = map tbl_name (cat_tables (catalogue (committed s'))) /\
    (sql_error page = None <-> sql_success page <> None).

(** ** What [add_record] binds for a field *)

(** The parameter that the column loop of [add_record] leaves for the
    submitted value of a field named like [column], or the error it raises:
    an empty value becomes [None] for a nullable column and stays as it is
    otherwise; any other value is parsed according to the type of the
    column. *)
Definition converted `{PyRuntime} (column : Column) (value : str)
  : result pyval :=
  let name := col_name column in
  match value with
  | [] => if col_nullable column then Ok PNone else Ok (PStr [])
  | _ :: _ =>
      match col_type column with
      | Date =>
          match date_fromisoformat value with
          | Some d => Ok (PDate d)
          | None =>
              Raise (bad_request
                (lit "Неверный формат даты для поля " ++ name
                 ++ lit ". Используйте формат YYYY-MM-DD."))
          end
      | DateTime =>
          match datetime_fromisoformat value with
          | Some d => Ok (PDateTime d)
          | None =>
              Raise (bad_request
                (lit "Неверный формат даты для поля " ++ name
                 ++ lit ". Используйте формат YYYY-MM-DD."))
          end
      | Integer =>
          match int_of_str value with
          | Some z => Ok (PInt z)
          | None =>
              Raise (bad_request
                (lit "Неверный числовой формат для поля " ++ name
                 ++ lit "."))
          end
      | Numeric =>
          match float_of_str value with
          | Some f => Ok (PFloat f)
          | None =>
              Raise (bad_request
                (lit "Неверный числовой формат для поля " ++ name
                 ++ lit "."))
          end
      | OtherType => Ok (PStr value)
      end
  end.

(** [table.columns[name]], if the table has such a column. *)
Fixpoint find_column (name : str) (columns : list Column) : option Column :=
  match columns with
  | [] => None
  | column :: rest =>
      if str_eqb name (col_name column) then Some column
      else find_column name rest
  end.

(** A form all of whose values are strings, as [dict(form_data)] is. *)
Definition all_strings `{PyRuntime} (form : dict pyval) : Prop :=
  forall key v, dict_get key form = Some v -> exists value, v = PStr value.

(** ** Handlers that only read *)

(** A computation that only executes statements: it neither commits nor
    rolls back nor closes the session, and the database holds afterwards
    what it held before. *)
Definition read_only `{Backend} {A} (m : M A) : Prop :=
  forall s,
    committed (snd (m s)) = committed s /\
    closed (snd (m s)) = closed s /\
    exists added,
      calls (snd (m s)) = calls s ++ added /\
      Forall (fun call => exists statement params,
                            call = Execute statement params) added.

(** ** JSON-safe rows *)

(** The values that [json.dumps] takes as they are. *)
Definition json_native `{PyRuntime} (value : pyval) : bool :=
  match value with
  | PDate _ | PDateTime _ | PDecimal _ => false
  | _ => true
  end.

(** A dictionary as Python builds it, whose values are all JSON-native. *)
Definition json_row `{PyRuntime} (row : Row) : Prop :=
  NoDup (dict_keys row) /\
  Forall (fun kv => json_native (snd kv) = true) row.

(** The loop of [safe_jsonify]: [safe_row[key] = value], made JSON-safe, for
    [key, value] in [row.items()]. *)
Definition safe_row `{PyRuntime} (row : Row) : Row :=
  fold_left
    (fun safe_row '(key, value) => dict_set key (json_safe value) safe_row)
    row [].

(** [safe_jsonify(row)], the template filter [safe_json]; [json_dumps] is
    [json.dumps] on dictionaries. *)
Definition safe_jsonify `{PyRuntime} (json_dumps : Row -> str)
    (row : option Row) : str :=
  match row with
  | None => lit "{}"
  | Some [] => lit "{}"
  | Some row => json_dumps (safe_row row)
  end.

(** ** The endpoint [/api/tables/info] *)

Record ColumnSummary := {
  cs_name : str;
  cs_type : str;
  cs_nullable : bool;
  cs_primary_key : bool
}.

Record TableSummary := {
  ts_columns : list ColumnSummary;
  ts_primary_keys : list str
}.

(** The entry that [get_tables_info] builds for a reflected table. *)
Definition summarize (table : Table) : TableSummary :=
  {| ts_columns :=
       map (fun column =>
              {| cs_name := col_name column;
                 cs_type := col_type_str column;
                 cs_nullable := col_nullable column;
                 cs_primary_key := col_primary_key column |})
         (tbl_columns table);
     ts_primary_keys := tbl_primary_key table |}.

(** [for table_name in table_names:], with a fresh reflection each time. *)
Fixpoint tables_info_loop `{Backend} (table_names : list str)
    (tables_info : dict TableSummary) : M (dict TableSummary) :=
  match table_names with
  | [] => ret tables_info
  | table_name :: rest =>
      metadata <- reflect ;;
      match find_table table_name metadata with
      | Some table =>
          tables_info_loop rest
            (dict_set table_name (summarize table) tables_info)
      | None => tables_info_loop rest tables_info
      end
  end.

Definition get_tables_info `{Backend} : M (dict TableSummary) :=
  try_except
    (table_names <- get_table_names ;;
     tables_info_loop table_names [])
    (fun e =>
       Some (raise (HTTPException 500
                      (lit "Ошибка получения информации о таблицах: "
                       ++ exc_str e)))).

(** ** More sample requests for the small database *)

(** What the small database answers to its first statement. *)
Definition first_answer : @ResultSet ascii_runtime :=
  {| rs_keys := [lit "n"]; rs_rows := [[PInt 0]]; rs_rowcount := 1 |}.

(** A form that adds a payment whose number is not a number. *)
Definition unreadable_form : list (str * str) :=
  [(lit "table_name", lit "payments"); (lit "no", lit "abc")].

(** A form without any key field. *)
Definition keyless_form : list (str * str) :=
  [(lit "table_name", lit "clients"); (lit "note", lit "z")].

(** A row with a date in it. *)
Definition dated_row : @Row ascii_runtime :=
  [(lit "paid_on", @PDate ascii_runtime (lit "2024-01-31"));
   (lit "no", PInt 12)].

(** ** The message shown for a database error *)

(** The text before the first line break. *)
Fixpoint first_line (s : str) : str :=
  match s with
  | [] => []
  | c :: s' => if (c =? 10)%N then [] else c :: first_line s'
  end.

(** A text without a line break. *)
Definition single_line (s : str) : bool :=
  forallb (fun c => negb (c =? 10)%N) s.

(** * A database that can fail

    The handlers above take the catalogue to be readable at any time and a
    statement to touch the data of the open transaction only.  The source
    has neither guarantee.  [get_table_names()], [MetaData.reflect] and
    [inspector.get_foreign_keys] are round trips on a connection of the
    engine and raise [SQLAlchemyError] when the database does not answer;
    and the text handed to [db.execute] is sent as it is, so a text that
    carries its own [COMMIT] ends the transaction whatever the session does
    afterwards.

    A [Server] adds both to a [Backend].  [unreadable s] is the message of
    the error that a read of the catalogue raises at this point of the
    session, if it raises; [ends_transaction statement params d] is the data
    that the statement commits by itself when it runs on [d], if it does.
    [Live] holds the handlers that catch [SQLAlchemyError], transcribed
    again over a [Server]; on [steady], the server that always answers and
    whose statements leave the transaction open, they are the handlers
    above. *)

Class Server `{Backend} : Type := {
  unreadable : Session -> option str;
  ends_transaction : str -> dict pyval -> DBState -> option DBState
}.

(** The session after [db.rollback()]. *)
Definition rolled_back `{Backend} (s : Session) : Session :=
  {| committed := committed s; working := committed s;
     calls := calls s ++ [Rollback]; closed := closed s |}.

(** No statement that the run from [s] to [s'] executed on the data of [s]
    ended the transaction by itself. *)
Definition leaves_transaction_open `{Server} (s s' : Session) : Prop :=
  forall statement params,
    In (Execute statement params) (new_calls s s') ->
    ends_transaction statement params (working s) = None.

Module Live.

(** [database_manager.get_table_names()]:
    [inspect(self.engine).get_table_names()]. *)
Definition get_table_names `{Server} : M (list str) :=
  fun s =>
    match unreadable s with
    | Some message => (Raise (SQLAlchemyError message), s)
    | None => (Ok (map tbl_name (cat_tables (catalogue (committed s)))), s)
    end.

(** [metadata.reflect(bind=engine)], giving [metadata.tables]. *)
Definition reflect `{Server} : M (list Table) :=
  fun s =>
    match unreadable s with
    | Some message => (Raise (SQLAlchemyError message), s)
    | None => (Ok (cat_tables (catalogue (committed s))), s)
    end.

(** [inspect(engine).get_foreign_keys(table_name)]. *)
Definition get_foreign_keys `{Server} (table_name : str)
  : M (list ForeignKey) :=
  fun s =>
    match unreadable s with
    | Some message => (Raise (SQLAlchemyError message), s)
    | None =>
        (Ok (cat_foreign_keys (catalogue (committed s)) table_name), s)
    end.

(** [db.execute(text(statement), params)]: what the statement commits by
    itself is committed whether or not the statement then raises. *)
Definition db_execute `{Server} (statement : str) (params : dict pyval)
  : M ResultSet :=
  fun s =>
    let held :=
      match ends_transaction statement params (working s) with
      | Some d => d
      | None => committed s
      end in
    match sql_run statement params (working s) with
    | inl (rs, d) =>
        (Ok rs, {| committed := held; working := d;
                   calls := calls s ++ [Execute statement params];
                   closed := closed s |})
    | inr message =>
        (Raise (SQLAlchemyError message),
         {| committed := held; working := working s;
            calls := calls s ++ [Execute statement params];
            closed := closed s |})
    end.

Definition get_table_info `{Server} (table_name : str) : M TableInfo :=
  tables <- reflect ;;
  match find_table table_name tables with
  | None => raise (not_found table_name)
  | Some table =>
      ret {| info_primary_keys := tbl_primary_key table;
             info_required_columns :=
               map col_name
                 (filter (fun column =>
                            negb (col_nullable column)
                            && negb (col_has_default column))
                         (tbl_columns table));
             info_columns := map col_name (tbl_columns table) |}
  end.

Definition execute_custom_query `{Server} (query : str)
  : M (list str * list Row) :=
  result <- db_execute query [] ;;
  let columns := rs_keys result in
  data <- rows_as_dicts columns (rs_rows result) ;;
  ret (columns, data).

(** [templates.TemplateResponse("view.html", {...})] as [execute_sql] builds
    it; the dictionary display calls [get_table_names()]. *)
Definition sql_page `{Server} (columns : list str) (data : list Row)
    (sql_query : str) (error success : option str) : M Response :=
  tables <- get_table_names ;;
  ret (SqlPage {| sql_tables := tables;
                  sql_current_query := lit "custom_sql";
                  sql_columns := columns;
                  sql_data := data;
                  sql_query_text := sql_query;
                  sql_error := error;
                  sql_success := success |}).

(** The [try] block of [execute_sql], after [sql_query = sql_query.strip()]. *)
Definition execute_sql_try `{Server} (sql_query : str) : M Response :=
  if is_empty sql_query
  then sql_page [] [] sql_query
         (Some (lit "Запрос не может быть пустым")) None
  else
    query_type <- or_raise IndexError (query_type_of sql_query) ;;
    if str_eqb query_type (lit "SELECT")
    then
      '(columns, data) <- execute_custom_query sql_query ;;
      let success_message :=
        lit "Запрос выполнен успешно. Найдено записей: "
        ++ str_of_Z (Z.of_nat (length data)) in
      sql_page columns data sql_query None (Some success_message)
    else if str_in query_type [lit "INSERT"; lit "UPDATE"; lit "DELETE"]
    then
      result <- db_execute sql_query [] ;;
      db_commit ;;;
      let rows_affected := rs_rowcount result in
      let success_message :=
        lit "Запрос выполнен успешно. Затронуто строк: "
        ++ str_of_Z rows_affected in
      sql_page [] [] sql_query None (Some success_message)
    else if str_in query_type dangerous_keywords
    then
      sql_page [] [] sql_query
        (Some (lit "Выполнение запросов типа " ++ query_type
               ++ lit " ограничено из соображений безопасности"))
        None
    else
      db_execute sql_query [] ;;;
      db_commit ;;;
      sql_page [] [] sql_query None (Some (lit "Запрос выполнен успешно")).

Definition execute_sql `{Server} (sql_query : str) : M Response :=
  let sql_query := strip sql_query in
  try_except (execute_sql_try sql_query)
    (fun e =>
       match e with
       | SQLAlchemyError _ =>
           Some (db_rollback ;;;
                 error_message <- sql_error_message (exc_str e) ;;
                 sql_page [] [] sql_query (Some error_message) None)
       | _ =>
           Some (sql_page [] [] sql_query
                   (Some (lit "Неожиданная ошибка: " ++ exc_str e)) None)
       end).

(** The [try] block of [add_record]. *)
Definition add_record_try `{Server} (table_name : str)
    (form_data : list (str * str)) : M Response :=
  let form_dict := form_dict_of form_data in
  form_dict <- or_raise (KeyError (lit "table_name"))
                 (dict_del (lit "table_name") form_dict) ;;
  tables <- get_table_names ;;
  if negb (str_in table_name tables)
  then raise (not_found table_name)
  else
    metadata <- reflect ;;
    table <- or_raise (KeyError table_name) (find_table table_name metadata) ;;
    '(query, form_dict) <- lift (add_statement table_name table form_dict) ;;
    db_execute query form_dict ;;;
    db_commit ;;;
    ret (RedirectResponse
           (view_url table_name (lit "Запись успешно добавлена")
              (lit "success"))
           303).

Definition add_record `{Server} (table_name : str)
    (form_data : list (str * str)) : M Response :=
  try_except (add_record_try table_name form_data)
    (redirect_on_db_error table_name (lit "Ошибка при добавлении записи: ")).

(** The [try] block of [edit_record]. *)
Definition edit_record_try `{Server} (table_name : str)
    (form_data : list (str * str)) : M Response :=
  let form_dict := form_dict_of form_data in
  form_dict <- or_raise (KeyError (lit "table_name"))
                 (dict_del (lit "table_name") form_dict) ;;
  tables <- get_table_names ;;
  if negb (str_in table_name tables)
  then raise (not_found table_name)
  else
    let '(query, query_params) := edit_statement table_name form_dict in
    db_execute query query_params ;;;
    db_commit ;;;
    ret (RedirectResponse
           (view_url table_name (lit "Запись успешно обновлена")
              (lit "success"))
           303).

Definition edit_record `{Server} (table_name : str)
    (form_data : list (str * str)) : M Response :=
  try_except (edit_record_try table_name form_data)
    (redirect_on_db_error table_name (lit "Ошибка при обновлении записи: ")).

(** The [try] block of [delete_record]. *)
Definition delete_record_try `{Server} (table_name : str)
    (form_data : list (str * str)) : M Response :=
  let form_dict := form_dict_of form_data in
  form_dict <- or_raise (KeyError (lit "table_name"))
                 (dict_del (lit "table_name") form_dict) ;;
  tables <- get_table_names ;;
  if negb (str_in table_name tables)
  then raise (not_found table_name)
  else
    let '(query, query_params) := delete_statement table_name form_dict in
    db_execute query query_params ;;;
    db_commit ;;;
    ret (RedirectResponse
           (view_url table_name (lit "Запись успешно удалена")
              (lit "success"))
           303).

Definition delete_record `{Server} (table_name : str)
    (form_data : list (str * str)) : M Response :=
  try_except (delete_record_try table_name form_data)
    (redirect_on_db_error table_name (lit "Ошибка при удалении записи: ")).

(** [for fk in foreign_keys: if column.name in fk['constrained_columns']: ...
    break], giving [is_foreign_key] and [foreign_key_info]. *)
Fixpoint foreign_key_lookup `{Server} (column_name : str)
    (foreign_keys : list ForeignKey) : M (bool * option ForeignKeyInfo) :=
  match foreign_keys with
  | [] => ret (false, None)
  | fk :: rest =>
      if str_in column_name (constrained_columns fk)
      then
        let target_table := referred_table fk in
        target_column <-
          or_raise IndexError (nth_error (referred_columns fk) 0) ;;
        result <- db_execute (distinct_statement target_column target_table) [] ;;
        values <- for_each (fun row => or_raise IndexError (nth_error row 0))
                    (rs_rows result) ;;
        ret (true, Some {| target_table := target_table;
                           target_column := target_column;
                           fk_values := values |})
      else foreign_key_lookup column_name rest
  end.

Definition column_info `{Server} (foreign_keys : list ForeignKey)
    (column : Column) : M ColumnInfo :=
  let column_type := col_type_str column in
  let input_type := input_type_of column_type in
  '(is_foreign_key, foreign_key_info) <-
    foreign_key_lookup (col_name column) foreign_keys ;;
  ret {| ci_name := col_name column;
         ci_type := column_type;
         ci_input_type := input_type;
         ci_is_primary_key := col_primary_key column;
         ci_is_nullable := col_nullable column;
         ci_has_default := col_has_default column;
         ci_is_foreign_key := is_foreign_key;
         ci_foreign_key_info := foreign_key_info |}.

Definition get_table_schema `{Server} (table_name : str) : M TableSchema :=
  try_except
    (tables <- get_table_names ;;
     if negb (str_in table_name tables)
     then raise (not_found table_name)
     else
       table_info <- get_table_info table_name ;;
       metadata <- reflect ;;
       match find_table table_name metadata with
       | None => raise (not_found table_name)
       | Some table =>
           foreign_keys <- get_foreign_keys table_name ;;
           columns_info <- for_each (column_info foreign_keys)
                             (tbl_columns table) ;;
           ret {| schema_table_name := table_name;
                  schema_primary_keys := info_primary_keys table_info;
                  schema_required_columns := info_required_columns table_info;
                  schema_columns := columns_info |}
       end)
    (fun e =>
       match e with
       | SQLAlchemyError _ =>
           Some (raise (HTTPException 500
                          (lit "Ошибка базы данных: " ++ exc_str e)))
       | _ => None
       end).

End Live.

(** The server that always answers and whose statements never end the
    transaction. *)
Definition steady `{Backend} : Server :=
  {| unreadable := fun _ => None;
     ends_transaction := fun _ _ _ => None |}.

(** ** What the schema endpoint lists *)

(** The constraint that [for fk in foreign_keys: ... break] stops at: the
    first one that lists the column. *)
Fixpoint first_constraint (name : str) (foreign_keys : list ForeignKey)
  : option ForeignKey :=
  match foreign_keys with
  | [] => None
  | fk :: rest =>
      if str_in name (constrained_columns fk) then Some fk
      else first_constraint name rest
  end.

(** A foreign key of one column. *)
Definition single_column (fk : ForeignKey) : Prop :=
  length (constrained_columns fk) = 1%nat /\
  length (referred_columns fk) = 1%nat.

(** The column entries of a schema, read from the columns of the table and
    from the answers of the database, which is in state [d] before the first
    look-up and in state [d'] after the last.  A column that no foreign key
    constrains is entered with its own properties.  A column constrained by
    a foreign key of one column is entered with the table and the column
    that the key refers to and with the first cell of every row that the
    database returns for [SELECT DISTINCT "column" FROM "table"]. *)
Inductive lists_columns `{Backend} (foreign_keys : list ForeignKey)
  : DBState -> list Column -> list ColumnInfo -> DBState -> Prop :=
| lists_no_column d : lists_columns foreign_keys d [] [] d
| lists_plain_column d d' column columns info infos :
    first_constraint (col_name column) foreign_keys = None ->
    ci_name info = col_name column ->
    ci_type info = col_type_str column ->
    ci_is_nullable info = col_nullable column ->
    ci_is_primary_key info = col_primary_key column ->
    ci_has_default info = col_has_default column ->
    ci_is_foreign_key info = false ->
    ci_foreign_key_info info = None ->
    lists_columns foreign_keys d columns infos d' ->
    lists_columns foreign_keys d (column :: columns) (info :: infos) d'
| lists_key_column d d1 d' column columns info infos fk target rs values :
    first_constraint (col_name column) foreign_keys = Some fk ->
    constrained_columns fk = [col_name column] ->
    referred_columns fk = [target] ->
    sql_run (lit "SELECT DISTINCT " ++ dq ++ target ++ dq ++ lit " FROM "
             ++ dq ++ referred_table fk ++ dq) [] d = inl (rs, d1) ->
    map (fun row => nth_error row 0) (rs_rows rs) = map Some values ->
    ci_name info = col_name column ->
    ci_type info = col_type_str column ->
    ci_is_nullable info = col_nullable column ->
    ci_is_primary_key info = col_primary_key column ->
    ci_has_default info = col_has_default column ->
    ci_is_foreign_key info = true ->
    ci_foreign_key_info info
    = Some {| target_table := referred_table fk;
              target_column := target;
              fk_values := values |} ->
    lists_columns foreign_keys d1 columns infos d' ->
    lists_columns foreign_keys d (column :: columns) (info :: infos) d'.

(** Foreign keys whose values the database lists whenever it is asked, in
    rows of at least one cell. *)
Definition lists_values `{Backend} (foreign_keys : list ForeignKey) : Prop :=
  Forall
    (fun fk =>
       forall target d,
         nth_error (referred_columns fk) 0 = Some target ->
         exists rs d',
           sql_run (lit "SELECT DISTINCT " ++ dq ++ target ++ dq
                    ++ lit " FROM " ++ dq ++ referred_table fk ++ dq) [] d
           = inl (rs, d') /\
           Forall (row_has_cells 1) (rs_rows rs))
    foreign_keys.

(** ** A database of meter readings

    A reading belongs to a contract, which is known by a client and a
    service together: the foreign key of [readings] has two columns.  The
    database lists the clients 1 and 2 and the service 7 of the contracts,
    holds one reading, and refuses every [INSERT] as a duplicate. *)

Definition meter_contracts : Table :=
  {| tbl_name := lit "contracts";
     tbl_columns :=
       [ {| col_name := lit "client_id"; col_type := Integer;
            col_type_str := lit "INTEGER"; col_nullable := false;
            col_primary_key := true; col_has_default := false |};
         {| col_name := lit "service_id"; col_type := Integer;
            col_type_str := lit "INTEGER"; col_nullable := false;
            col_primary_key := true; col_has_default := false |} ];
     tbl_primary_key := [lit "client_id"; lit "service_id"] |}.

Definition meter_readings : Table :=
  {| tbl_name := lit "readings";
     tbl_columns :=
       [ {| col_name := lit "no"; col_type := Integer;
            col_type_str := lit "INTEGER"; col_nullable := false;
            col_primary_key := true; col_has_default := false |};
         {| col_name := lit "client"; col_type := Integer;
            col_type_str := lit "INTEGER"; col_nullable := false;
            col_primary_key := false; col_has_default := false |};
         {| col_name := lit "service"; col_type := Integer;
            col_type_str := lit "INTEGER"; col_nullable := false;
            col_primary_key := false; col_has_default := false |};
         {| col_name := lit "taken_on"; col_type := Date;
            col_type_str := lit "DATE"; col_nullable := true;
            col_primary_key := false; col_has_default := false |} ];
     tbl_primary_key := [lit "no"] |}.

Definition contract_key : ForeignKey :=
  {| constrained_columns := [lit "client"; lit "service"];
     referred_table := lit "contracts";
     referred_columns := [lit "client_id"; lit "service_id"] |}.

Definition meter_catalogue : Catalogue :=
  {| cat_tables := [meter_contracts; meter_readings];
     cat_foreign_keys := fun table_name =>
       if str_eqb table_name (lit "readings") then [contract_key] else [] |}.

Definition duplicate_key : str :=
  lit "duplicate key value violates unique constraint" ++ newline
  ++ lit "DETAIL:  Key (no)=(1) already exists." ++ newline.

Definition meter_backend : @Backend ascii_runtime :=
  {| DBState := unit;
     sql_run := fun statement _ d =>
       if contains statement (lit "INSERT") then inr duplicate_key
       else if contains statement (lit "DISTINCT " ++ dq ++ lit "client_id")
       then inl ({| rs_keys := [lit "client_id"];
                    rs_rows := [[PInt 1]; [PInt 2]];
                    rs_rowcount := 2 |}, d)
       else if contains statement (lit "DISTINCT " ++ dq ++ lit "service_id")
       then inl ({| rs_keys := [lit "service_id"];
                    rs_rows := [[PInt 7]];
                    rs_rowcount := 1 |}, d)
       else inl ({| rs_keys := [lit "no"; lit "client"; lit "service";
                                lit "taken_on"];
                    rs_rows := [[PInt 1; PInt 2; PInt 7;
                                 @PDate ascii_runtime (lit "2024-01-31")]];
                    rs_rowcount := 1 |}, d);
     sql_commit := fun _ => None;
     catalogue := fun _ => meter_catalogue |}.

Definition meter_session : @Session ascii_runtime meter_backend :=
  @SessionLocal ascii_runtime meter_backend tt.

(** The row that [get_table_data] makes of the reading. *)
Definition reading_row : @Row ascii_runtime :=
  [(lit "no", PInt 1); (lit "client", PInt 2); (lit "service", PInt 7);
   (lit "taken_on", PStr (lit "2024-01-31"))].

(** A serializer for rows of integers and strings, in the manner of
    [json.dumps]. *)
Definition toy_json_value (value : @pyval ascii_runtime) : str :=
  match value with
  | PNone => lit "null"
  | PStr s => dq ++ s ++ dq
  | PInt z => str_of_Z z
  | PFloat f => str_of_Z f
  | PDecimal d => str_of_Z d
  | PDate d => d
  | PDateTime d => d
  end.

Definition toy_json_dumps (row : @Row ascii_runtime) : str :=
  lit "{"
  ++ join (lit ", ")
       (map (fun kv => dq ++ fst kv ++ dq ++ lit ": "
                       ++ toy_json_value (snd kv)) row)
  ++ lit "}".

(** ** A small server that loses its connection

    The server behind the small database fails to list its catalogue right
    after a commit and answers again from the next call on; it cannot list
    the catalogue at all once the database has run a hundred statements.  A
    statement that mentions [COMMIT] ends the transaction with the data it
    has produced. *)
Definition toy_server : @Server ascii_runtime toy_backend :=
  @Build_Server ascii_runtime toy_backend
    (fun s =>
       match last (calls s) Close with
       | Commit => Some (lit "connection lost")
       | _ =>
           if (100 <=? committed s)%Z then Some (lit "server down")
           else None
       end)
    (fun statement _ d =>
       if contains statement (lit "COMMIT") then Some (d + 1)%Z else None).

(** ** The sessions that a run leaves on a server *)

(** The session after [db.execute(text(statement), params)]: [d] is the data
    that the transaction sees afterwards, which is the data it saw before
    when the statement raised. *)
Definition executed `{Server} (statement : str) (params : dict pyval)
    (d : DBState) (s : Session) : Session :=
  {| committed :=
       match ends_transaction statement params (working s) with
       | Some held => held
       | None => committed s
       end;
     working := d;
     calls := calls s ++ [Execute statement params];
     closed := closed s |}.

(** The session after a [db.commit()] that went through, and after one that
    raised. *)
Definition commit_done `{Backend} (s : Session) : Session :=
  {| committed := working s; working := working s;
     calls := calls s ++ [Commit]; closed := closed s |}.

Definition commit_failed `{Backend} (s : Session) : Session :=
  {| committed := committed s; working := working s;
     calls := calls s ++ [Commit]; closed := closed s |}.

(** What a look-up of the values of a foreign key among [foreign_keys]
    leaves behind when it raises [e] in the session [s']: either the
    database refused the [SELECT DISTINCT] of that key, which is the last
    call of the session and fails on the data that the transaction sees, or
    an index was out of range, the key having no referred column or a row
    fetched by that statement having no cell. *)
Definition lookup_failed `{Server} (foreign_keys : list ForeignKey)
    (e : exc) (s' : Session) : Prop :=
  (exists message fk target log,
     e = SQLAlchemyError message /\
     In fk foreign_keys /\
     nth_error (referred_columns fk) 0 = Some target /\
     calls s'
     = log ++ [Execute (lit "SELECT DISTINCT " ++ dq ++ target ++ dq
                        ++ lit " FROM " ++ dq ++ referred_table fk ++ dq)
                 []] /\
     sql_run (lit "SELECT DISTINCT " ++ dq ++ target ++ dq ++ lit " FROM "
              ++ dq ++ referred_table fk ++ dq) [] (working s')
     = inr message) \/
  (e = IndexError /\
   exists fk,
     In fk foreign_keys /\
     (referred_columns fk = [] \/
      exists target log,
        nth_error (referred_columns fk) 0 = Some target /\
        calls s'
        = log ++ [Execute (lit "SELECT DISTINCT " ++ dq ++ target ++ dq
                           ++ lit " FROM " ++ dq ++ referred_table fk
                           ++ dq) []])).

(** ** A database with a dangling foreign key

    The table [orders] refers to a table [boom], which the small database
    refuses to read. *)

Definition toy_orders : Table :=
  {| tbl_name := lit "orders";
     tbl_columns :=
       [ {| col_name := lit "no"; col_type := Integer;
            col_type_str := lit "INTEGER"; col_nullable := false;
            col_primary_key := true; col_has_default := false |};
         {| col_name := lit "item"; col_type := Integer;
            col_type_str := lit "INTEGER"; col_nullable := false;
            col_primary_key := false; col_has_default := false |} ];
     tbl_primary_key := [lit "no"] |}.

Definition dangling_key : ForeignKey :=
  {| constrained_columns := [lit "item"];
     referred_table := lit "boom";
     referred_columns := [lit "id"] |}.

Definition orders_backend : @Backend ascii_runtime :=
  {| DBState := Z;
     sql_run := @sql_run ascii_runtime toy_backend;
     sql_commit := fun _ => None;
     catalogue := fun _ =>
       {| cat_tables := [toy_orders];
          cat_foreign_keys := fun table_name =>
            if str_eqb table_name (lit "orders") then [dangling_key]
            else [] |} |}.

Definition orders_session : @Session ascii_runtime orders_backend :=
  @SessionLocal ascii_runtime orders_backend 0%Z.

(** * Properties *)

Unset Implicit Arguments.

(** ** Strings *)

Lemma str_eqb_eq (a b : str) : str_eqb a b = true <-> a = b.
Proof.
  revert b. induction a as [|x a IH]; intros [|y b]; simpl;
    try (split; [discriminate|discriminate]); try tauto.
  rewrite andb_true_iff, N.eqb_eq, IH. split.
  - intros [-> ->]. reflexivity.
  - intros E. inversion E. auto.
Qed.

Lemma str_eqb_refl (a : str) : str_eqb a a = true.
Proof. apply str_eqb_eq. reflexivity. Qed.

Lemma str_eqb_neq (a b : str) : str_eqb a b = false <-> a <> b.
Proof.
  rewrite <- str_eqb_eq. destruct (str_eqb a b); split; congruence.
Qed.

Lemma str_in_In (x : str) (l : list str) : str_in x l = true <-> In x l.
Proof.
  unfold str_in. rewrite existsb_exists. split.
  - intros [y [Hy E]]. apply str_eqb_eq in E. subst. exact Hy.
  - intros Hx. exists x. split; [exact Hx|apply str_eqb_refl].
Qed.

Lemma lstrip_nil (s : str) : lstrip s = [] <-> all_space s = true.
Proof.
  induction s as [|c s IH]; simpl; [tauto|].
  destruct (is_space c); simpl; [exact IH|split; discriminate].
Qed.

Lemma rstrip_nil (s : str) : rstrip s = [] <-> all_space s = true.
Proof.
  induction s as [|c s IH]; simpl; [tauto|].
  destruct (rstrip s) eqn:E.
  - destruct (is_space c); simpl.
    + split; [intros _; apply IH; reflexivity|reflexivity].
    + split; discriminate.
  - split; [discriminate|]. rewrite andb_true_iff. intros [_ H].
    apply IH in H. discriminate.
Qed.

Lemma all_space_lstrip (s : str) : all_space (lstrip s) = all_space s.
Proof.
  induction s as [|c s IH]; simpl; [reflexivity|].
  destruct (is_space c) eqn:E; simpl; [exact IH|rewrite E; reflexivity].
Qed.

Lemma strip_nil (s : str) : strip s = [] <-> all_space s = true.
Proof.
  unfold strip. rewrite rstrip_nil, all_space_lstrip. tauto.
Qed.

Lemma split_scan_all_space (w s : str) :
  all_space s = true ->
  split_scan w s = match w with [] => [] | _ => [rev w] end.
Proof.
  revert w. induction s as [|c s IH]; intros w H; simpl in *; [reflexivity|].
  apply andb_prop in H. destruct H as [Hc Hs]. rewrite Hc.
  destruct w; rewrite (IH [] Hs); reflexivity.
Qed.

Lemma split_scan_lstrip (s : str) : split_scan [] (lstrip s) = split_scan [] s.
Proof.
  induction s as [|c s IH]; simpl; [reflexivity|].
  destruct (is_space c) eqn:E; [exact IH|]. simpl. rewrite E. reflexivity.
Qed.

Lemma split_scan_rstrip (w s : str) : split_scan w (rstrip s) = split_scan w s.
Proof.
  revert w. induction s as [|c s IH]; intros w; simpl; [reflexivity|].
  destruct (rstrip s) as [|x r] eqn:E.
  - apply rstrip_nil in E.
    destruct (is_space c) eqn:Ec; simpl.
    + destruct w; rewrite (split_scan_all_space [] s E); reflexivity.
    + rewrite Ec. rewrite (split_scan_all_space (c :: w) s E). reflexivity.
  - change (split_scan w (c :: x :: r)
            = (if is_space c
               then match w with
                    | [] => split_scan [] s
                    | _ => rev w :: split_scan [] s
                    end
               else split_scan (c :: w) s)).
    rewrite <- (IH []), <- (IH (c :: w)). reflexivity.
Qed.

Lemma split_strip (s : str) : split (strip s) = split s.
Proof.
  unfold split, strip. rewrite split_scan_rstrip. apply split_scan_lstrip.
Qed.

Lemma split_scan_app_word (l w s : str) :
  no_space l = true -> split_scan w (l ++ s) = split_scan (rev l ++ w) s.
Proof.
  revert w. induction l as [|c l IH]; intros w H; simpl in *; [reflexivity|].
  apply andb_prop in H. destruct H as [Hc Hl].
  apply negb_true_iff in Hc. rewrite Hc. rewrite (IH (c :: w) Hl).
  rewrite <- app_assoc. reflexivity.
Qed.

Lemma split_scan_cons_nonempty (w s : str) : w <> [] -> split_scan w s <> [].
Proof.
  revert w. induction s as [|c s IH]; intros w Hw; simpl.
  - destruct w; [contradiction|discriminate].
  - destruct (is_space c).
    + destruct w; [contradiction|discriminate].
    + apply IH. discriminate.
Qed.

Lemma split_nil (s : str) : split s = [] <-> all_space s = true.
Proof.
  unfold split. split.
  - induction s as [|c s IH]; simpl; [reflexivity|].
    destruct (is_space c) eqn:E; simpl; [exact IH|].
    intros H. exfalso. revert H. apply split_scan_cons_nonempty. discriminate.
  - intros H. apply (split_scan_all_space [] s H).
Qed.

Arguments lit : simpl never.
Arguments str_of_Z : simpl never.

Section UpperCase.
Context `{PyRuntime}.

Lemma upper_app (a b : str) : upper (a ++ b) = upper a ++ upper b.
Proof. apply flat_map_app. Qed.

Lemma no_space_app (a b : str) :
  no_space (a ++ b) = no_space a && no_space b.
Proof. apply forallb_app. Qed.

Lemma no_space_rev (w : str) : no_space (rev w) = no_space w.
Proof.
  induction w as [|c w IH]; simpl; [reflexivity|].
  rewrite no_space_app, IH. simpl. rewrite andb_true_r. apply andb_comm.
Qed.

Lemma upper_no_space (w : str) : no_space w = true -> no_space (upper w) = true.
Proof.
  induction w as [|c w IH]; simpl; intros Hw; [reflexivity|].
  apply andb_prop in Hw. destruct Hw as [Hc Hw].
  apply negb_true_iff in Hc. rewrite no_space_app, (IH Hw), andb_true_r.
  apply (upper_cp_word c Hc).
Qed.

Lemma upper_nonempty (w : str) :
  no_space w = true -> w <> [] -> upper w <> [].
Proof.
  destruct w as [|c w]; [congruence|]. simpl. intros Hw _ E.
  apply andb_prop in Hw. destruct Hw as [Hc _]. apply negb_true_iff in Hc.
  apply app_eq_nil in E. destruct E as [E _].
  apply (proj1 (upper_cp_word c Hc) E).
Qed.

Lemma split_scan_upper (w s : str) :
  no_space w = true ->
  split_scan (rev (upper (rev w))) (upper s) = map upper (split_scan w s).
Proof.
  revert w. induction s as [|c s IH]; intros w Hw.
  - simpl. destruct w as [|x w]; [reflexivity|].
    assert (Hne : upper (rev (x :: w)) <> []).
    { apply upper_nonempty; [rewrite no_space_rev; exact Hw|].
      simpl. intros E. apply app_eq_nil in E. destruct E. discriminate. }
    destruct (rev (upper (rev (x :: w)))) eqn:E.
    + exfalso. apply Hne. rewrite <- (rev_involutive (upper _)), E. reflexivity.
    + rewrite <- E, rev_involutive. reflexivity.
  - change (upper (c :: s)) with (upper_cp c ++ upper s).
    destruct (is_space c) eqn:Ec.
    + rewrite (upper_cp_space c Ec). simpl. rewrite Ec.
      specialize (IH [] eq_refl). simpl in IH. rewrite IH.
      destruct w as [|x w]; [reflexivity|].
      assert (Hne : upper (rev (x :: w)) <> []).
      { apply upper_nonempty; [rewrite no_space_rev; exact Hw|].
        simpl. intros E. apply app_eq_nil in E. destruct E. discriminate. }
      destruct (rev (upper (rev (x :: w)))) eqn:E.
      * exfalso. apply Hne.
        rewrite <- (rev_involutive (upper _)), E. reflexivity.
      * rewrite <- E, rev_involutive. reflexivity.
    + destruct (upper_cp_word c Ec) as [_ Hl].
      rewrite split_scan_app_word by exact Hl.
      simpl split_scan at 2. rewrite Ec.
      rewrite <- (IH (c :: w)).
      * change (rev (c :: w)) with (rev w ++ [c]).
        rewrite upper_app, rev_app_distr.
        simpl. rewrite app_nil_r. reflexivity.
      * simpl. rewrite Ec. exact Hw.
Qed.

Lemma split_upper (s : str) : split (upper s) = map upper (split s).
Proof. apply (split_scan_upper [] s eq_refl). Qed.

Lemma query_type_of_strip (sql_query : str) :
  query_type_of (strip sql_query) = option_map upper (first_token sql_query).
Proof.
  unfold query_type_of, first_token.
  rewrite split_strip, split_upper, split_strip. apply nth_error_map.
Qed.

Lemma first_token_some (sql_query : str) :
  all_space sql_query = false -> exists token, first_token sql_query = Some token.
Proof.
  intros Hq. unfold first_token. destruct (split sql_query) eqn:E.
  - apply split_nil in E. congruence.
  - eexists. reflexivity.
Qed.

Lemma first_token_is_empty (sql_query token : str) :
  first_token sql_query = Some token -> is_empty (strip sql_query) = false.
Proof.
  unfold first_token. intros Ht. destruct (strip sql_query) eqn:E; [|reflexivity].
  apply strip_nil, split_nil in E. rewrite E in Ht. discriminate.
Qed.

End UpperCase.

Lemma split_sep_scan_head (sep : str) (skip : nat) (part s : str) :
  exists first rest, split_sep_scan sep skip part s = first :: rest.
Proof.
  revert skip part.
  induction s as [|c s IH]; intros skip part; cbn [split_sep_scan].
  - eauto.
  - destruct skip as [|k]; [|apply IH].
    destruct (startswith (c :: s) sep); [eauto|apply IH].
Qed.

Lemma contains_nil (sub : str) : sub <> [] -> contains [] sub = false.
Proof. destruct sub; [congruence|reflexivity]. Qed.

Lemma split_sep_scan_second (sep : str) (skip : nat) (part s : str) :
  sep <> [] -> contains (skipn skip s) sep = true ->
  exists first second rest,
    split_sep_scan sep skip part s = first :: second :: rest.
Proof.
  intros Hsep. revert skip part.
  induction s as [|c s IH]; intros skip part Hc.
  - rewrite skipn_nil, contains_nil in Hc by exact Hsep. discriminate.
  - destruct skip as [|k]; cbn [split_sep_scan].
    + cbn [skipn] in Hc.
      destruct (startswith (c :: s) sep) eqn:E.
      * destruct (split_sep_scan_head sep (Nat.pred (length sep)) [] s)
          as [x [r Hx]].
        rewrite Hx. eauto.
      * cbn [contains] in Hc. rewrite E in Hc. cbn [orb] in Hc.
        apply (IH 0%nat). exact Hc.
    + apply IH. exact Hc.
Qed.

(** ** The SQL editor *)

Lemma dangerous_not_allowed (query_type : str) :
  str_in query_type dangerous_keywords = true ->
  str_eqb query_type (lit "SELECT") = false /\
  str_in query_type [lit "INSERT"; lit "UPDATE"; lit "DELETE"] = false.
Proof.
  intros Hd. apply str_in_In in Hd. unfold dangerous_keywords in Hd.
  simpl in Hd.
  repeat (destruct Hd as [Hd|Hd]; [subst query_type; split; reflexivity|]).
  contradiction.
Qed.

Section Monad.
Context `{Backend}.

Lemma pure_ret {A} (P : exc -> Prop) (a : A) : pure_raising P (ret a).
Proof. intros s. exists (Ok a). split; [reflexivity|discriminate]. Qed.

Lemma pure_raise {A} (P : exc -> Prop) (e : exc) :
  P e -> pure_raising P (@raise _ _ A e).
Proof.
  intros He s. exists (Raise e). split; [reflexivity|].
  intros e' E. inversion E. subst. exact He.
Qed.

Lemma pure_bind {A B} (P : exc -> Prop) (m : M A) (k : A -> M B) :
  pure_raising P m -> (forall a, pure_raising P (k a)) ->
  pure_raising P (bind m k).
Proof.
  intros Hm Hk s. unfold bind. destruct (Hm s) as [r [E Hr]]. rewrite E.
  destruct r as [a|e].
  - apply Hk.
  - exists (Raise e). split; [reflexivity|].
    intros e' E'. inversion E'. subst. apply Hr. reflexivity.
Qed.

Lemma pure_or_raise {A} (P : exc -> Prop) (e : exc) (o : option A) :
  P e -> pure_raising P (or_raise e o).
Proof.
  intros He. destruct o; simpl; [apply pure_ret|apply pure_raise, He].
Qed.

Lemma pure_for_each {A B} (P : exc -> Prop) (f : A -> M B) (l : list A) :
  (forall a, pure_raising P (f a)) -> pure_raising P (for_each f l).
Proof.
  intros Hf. induction l as [|a l IH]; simpl.
  - apply pure_ret.
  - apply pure_bind; [apply Hf|]. intros b.
    apply pure_bind; [exact IH|]. intros bs. apply pure_ret.
Qed.

Lemma pure_weaken {A} (P Q : exc -> Prop) (m : M A) :
  (forall e, P e -> Q e) -> pure_raising P m -> pure_raising Q m.
Proof.
  intros HPQ Hm s. destruct (Hm s) as [r [E Hr]]. exists r.
  split; [exact E|]. intros e He. apply HPQ, Hr, He.
Qed.

Lemma pure_get_table_names (P : exc -> Prop) : pure_raising P get_table_names.
Proof. intros s. eexists. split; [reflexivity|discriminate]. Qed.

Lemma pure_fill_row (columns : list str) (i : nat) (row : list pyval)
    (row_dict : Row) :
  pure_raising (fun e => e = IndexError) (fill_row columns i row row_dict).
Proof.
  revert i row_dict. induction columns as [|c columns IH]; intros i d; simpl.
  - apply pure_ret.
  - apply pure_bind; [apply pure_or_raise; reflexivity|]. intros v. apply IH.
Qed.

Lemma pure_rows_as_dicts (columns : list str) (rows : list (list pyval)) :
  pure_raising (fun e => e = IndexError) (rows_as_dicts columns rows).
Proof. apply pure_for_each. intros row. apply pure_fill_row. Qed.

Lemma pure_sql_page columns data sql_query error success :
  pure_raising (fun _ => False)
    (sql_page columns data sql_query error success).
Proof. intros s. eexists. split; [reflexivity|discriminate]. Qed.

Lemma pure_sql_error_message (e_str : str) :
  pure_raising (fun _ => False) (sql_error_message e_str).
Proof.
  unfold sql_error_message, split_sep.
  destruct (split_sep_scan_head newline 0 [] e_str) as [first [rest E]].
  rewrite E. simpl nth_error. simpl or_raise.
  apply pure_bind; [apply pure_ret|]. intros error_message.
  destruct (contains e_str (lit "DETAIL:")) eqn:Ec; [|apply pure_ret].
  destruct (split_sep_scan_second (lit "DETAIL:") 0 [] e_str)
    as [x [after [r Ex]]]; [discriminate|exact Ec|].
  rewrite Ex. simpl nth_error. simpl or_raise.
  apply pure_bind; [apply pure_ret|]. intros a.
  destruct (split_sep_scan_head newline 0 [] a) as [l [r' El]].
  rewrite El. simpl nth_error. simpl or_raise.
  apply pure_bind; [apply pure_ret|]. intros line. apply pure_ret.
Qed.

End Monad.

Section SqlEditor.
Context `{Backend}.

Lemma new_calls_app (s s' : Session) (l : list db_call) :
  calls s' = calls s ++ l -> new_calls s s' = l.
Proof.
  unfold new_calls. intros ->. rewrite skipn_app, skipn_all, Nat.sub_diag.
  reflexivity.
Qed.

Lemma new_calls_same (s : Session) : new_calls s s = [].
Proof. apply new_calls_app. rewrite app_nil_r. reflexivity. Qed.

Lemma execute_sql_restricted_run (sql_query token : str) (s : Session) :
  first_token sql_query = Some token ->
  str_in (upper token) dangerous_keywords = true ->
  execute_sql sql_query s =
    (Ok (SqlPage
           {| sql_tables := map tbl_name (cat_tables (catalogue (committed s)));
              sql_current_query := lit "custom_sql";
              sql_columns := [];
              sql_data := [];
              sql_query_text := strip sql_query;
              sql_error :=
                Some (lit "Выполнение запросов типа " ++ upper token
                      ++ lit " ограничено из соображений безопасности");
              sql_success := None |}),
     s).
Proof.
  intros Ht Hd.
  unfold execute_sql, try_except, execute_sql_try.
  rewrite (first_token_is_empty _ _ Ht).
  unfold bind, or_raise. rewrite query_type_of_strip, Ht.
  cbn [option_map]. unfold ret at 1. cbv beta iota.
  destruct (dangerous_not_allowed _ Hd) as [Hs Hm].
  rewrite Hs, Hm, Hd. reflexivity.
Qed.

(** What the [try] block of [execute_sql] does once the query type is known
    and is not a restricted one: the query is the first thing it passes to
    the session, and when it raises a database error the committed data are
    those it started from. *)
Lemma execute_sql_try_allowed (sql_query query_type : str) (s : Session) :
  is_empty sql_query = false ->
  query_type_of sql_query = Some query_type ->
  str_in query_type dangerous_keywords = false ->
  exists r s1 rest,
    execute_sql_try sql_query s = (r, s1) /\
    calls s1 = calls s ++ Execute sql_query [] :: rest /\
    closed s1 = closed s /\
    (forall e, r = Raise e -> committed s1 = committed s).
Proof.
  intros Hne Hq Hd. unfold execute_sql_try. rewrite Hne.
  unfold bind at 1. rewrite Hq. cbn [or_raise]. unfold ret at 1.
  cbv beta iota. rewrite Hd.
  destruct (str_eqb query_type (lit "SELECT")).
  - unfold bind, execute_custom_query, bind, db_execute, record_call.
    cbv zeta. cbn [committed working calls closed].
    destruct (sql_run sql_query [] (working s)) as [[rs d]|m].
    + match goal with
      | |- context [rows_as_dicts ?c ?r ?S] =>
          destruct (pure_rows_as_dicts c r S) as [rr [E _]]; rewrite E
      end.
      destruct rr as [data|e]; cbn [ret]; do 3 eexists;
        (split; [reflexivity|]); cbn [calls committed closed];
        repeat split; eauto.
    + do 3 eexists. split; [reflexivity|]. cbn [calls committed closed].
      repeat split; eauto.
  - destruct (str_in query_type [lit "INSERT"; lit "UPDATE"; lit "DELETE"]).
    + unfold bind, db_execute, db_commit, record_call.
      cbv zeta. cbn [committed working calls closed].
      destruct (sql_run sql_query [] (working s)) as [[rs d]|m].
      * cbn [committed working calls closed].
        destruct (sql_commit d) as [m|]; do 3 eexists;
          (split; [reflexivity|]); cbn [calls committed closed];
          rewrite <- app_assoc; cbn [app]; repeat split; eauto;
          discriminate.
      * do 3 eexists. split; [reflexivity|]. cbn [calls committed closed].
        repeat split; eauto.
    + unfold bind, db_execute, db_commit, record_call.
      cbv zeta. cbn [committed working calls closed].
      destruct (sql_run sql_query [] (working s)) as [[rs d]|m].
      * cbn [committed working calls closed].
        destruct (sql_commit d) as [m|]; do 3 eexists;
          (split; [reflexivity|]); cbn [calls committed closed];
          rewrite <- app_assoc; cbn [app]; repeat split; eauto;
          discriminate.
      * do 3 eexists. split; [reflexivity|]. cbn [calls committed closed].
        repeat split; eauto.
Qed.

(** The [except SQLAlchemyError] clause of [execute_sql]: a rollback and the
    error page. *)
Lemma execute_sql_except_run (message sql_query : str) (s1 : Session) :
  exists error_message,
    (db_rollback ;;;
     error_message <- sql_error_message message ;;
     sql_page [] [] sql_query (Some error_message) None) s1 =
    (Ok (SqlPage
           {| sql_tables := map tbl_name (cat_tables (catalogue (committed s1)));
              sql_current_query := lit "custom_sql";
              sql_columns := [];
              sql_data := [];
              sql_query_text := sql_query;
              sql_error := Some error_message;
              sql_success := None |}),
     {| committed := committed s1; working := committed s1;
        calls := calls s1 ++ [Rollback]; closed := closed s1 |}).
Proof.
  unfold bind at 1. unfold db_rollback, record_call. cbv zeta.
  cbn [committed working calls closed]. unfold bind at 1.
  match goal with
  | |- context [sql_error_message message ?S] =>
      destruct (pure_sql_error_message message S) as [r [E Hr]]; rewrite E
  end.
  destruct r as [error_message|e]; [|destruct (Hr e eq_refl)].
  exists error_message. reflexivity.
Qed.

Lemma execute_sql_allowed_run (sql_query token : str) (s : Session) :
  first_token sql_query = Some token ->
  str_in (upper token) dangerous_keywords = false ->
  exists rest,
    calls (snd (execute_sql sql_query s))
    = calls s ++ Execute (strip sql_query) [] :: rest.
Proof.
  intros Ht Hd. unfold execute_sql, try_except.
  destruct (execute_sql_try_allowed (strip sql_query) (upper token) s)
    as [r [s1 [rest [E [Hc _]]]]].
  - apply (first_token_is_empty _ _ Ht).
  - rewrite query_type_of_strip, Ht. reflexivity.
  - exact Hd.
  - rewrite E. destruct r as [page|e].
    + exists rest. exact Hc.
    + destruct e as [m| | |].
      * destruct (execute_sql_except_run m (strip sql_query) s1) as [msg Em].
        unfold exc_str. rewrite Em. cbn [snd calls]. rewrite Hc.
        rewrite <- app_assoc. eexists. reflexivity.
      * exists rest. exact Hc.
      * exists rest. exact Hc.
      * exists rest. exact Hc.
Qed.

Lemma passed_to_database_spec (sql_query token : str) (s : Session) :
  first_token sql_query = Some token ->
  passed_to_database sql_query s
  = negb (str_in (upper token) dangerous_keywords).
Proof.
  intros Ht. unfold passed_to_database.
  destruct (str_in (upper token) dangerous_keywords) eqn:Hd.
  - rewrite (execute_sql_restricted_run _ _ s Ht Hd). cbn [snd].
    rewrite new_calls_same. reflexivity.
  - destruct (execute_sql_allowed_run _ _ s Ht Hd) as [rest E].
    rewrite (new_calls_app _ _ _ E). apply str_eqb_refl.
Qed.

(** C1. A query whose first whitespace-delimited token, uppercased, is DROP,
    CREATE, ALTER, TRUNCATE, GRANT or REVOKE is denied: [execute_sql] makes
    no call on the session, so the query does not reach the database, and it
    returns the SQL page whose [sql_error] names the query type and whose
    [sql_success] is [None]. *)
Theorem execute_sql_denies_restricted (sql_query token : str) (s : Session) :
  first_token sql_query = Some token ->
  str_in (upper token) dangerous_keywords = true ->
  execute_sql sql_query s =
    (Ok (SqlPage
           {| sql_tables := map tbl_name (cat_tables (catalogue (committed s)));
              sql_current_query := lit "custom_sql";
              sql_columns := [];
              sql_data := [];
              sql_query_text := strip sql_query;
              sql_error :=
                Some (lit "Выполнение запросов типа " ++ upper token
                      ++ lit " ограничено из соображений безопасности");
              sql_success := None |}),
     s)
  /\ passed_to_database sql_query s = false.
Proof.
  intros Ht Hd. split.
  - apply execute_sql_restricted_run; assumption.
  - rewrite (passed_to_database_spec _ _ s Ht), Hd. reflexivity.
Qed.

(** C3. Whether [execute_sql] lets a query through depends on the first
    whitespace-delimited token alone, compared in upper case: two queries
    with the same uppercased first token are both passed to the database or
    both denied, whatever follows the token and whatever the session; the
    query is denied exactly when that token is a restricted keyword. *)
Theorem execute_sql_decision_by_first_token
    (query1 query2 token1 token2 : str) (s1 s2 : Session) :
  first_token query1 = Some token1 ->
  first_token query2 = Some token2 ->
  upper token1 = upper token2 ->
  passed_to_database query1 s1 = passed_to_database query2 s2 /\
  passed_to_database query1 s1
  = negb (str_in (upper token1) dangerous_keywords).
Proof.
  intros H1 H2 E.
  rewrite (passed_to_database_spec _ _ s1 H1).
  rewrite (passed_to_database_spec _ _ s2 H2).
  rewrite E. split; reflexivity.
Qed.

(** C8. A query that is empty or made of whitespace only gets the page
    saying that the query may not be empty, and the session is left as it
    was, with no call made on it; in every other case the query type
    [sql_query.upper().strip().split()[0]] that the classification reads
    exists, so the index cannot fail. *)
Theorem execute_sql_empty_query (sql_query : str) (s : Session) :
  (all_space sql_query = true ->
   execute_sql sql_query s =
     (Ok (SqlPage
            {| sql_tables := map tbl_name (cat_tables (catalogue (committed s)));
               sql_current_query := lit "custom_sql";
               sql_columns := [];
               sql_data := [];
               sql_query_text := [];
               sql_error := Some (lit "Запрос не может быть пустым");
               sql_success := None |}),
      s)) /\
  (all_space sql_query = false ->
   is_empty (strip sql_query) = false /\
   exists query_type, query_type_of (strip sql_query) = Some query_type).
Proof.
  split.
  - intros Hs. apply strip_nil in Hs.
    unfold execute_sql, try_except, execute_sql_try. rewrite Hs. reflexivity.
  - intros Hs. destruct (first_token_some _ Hs) as [token Ht]. split.
    + apply (first_token_is_empty _ _ Ht).
    + exists (upper token). rewrite query_type_of_strip, Ht. reflexivity.
Qed.

End SqlEditor.

(** ** Reading the catalogue *)

Section CatalogueReads.
Context `{Backend}.

Lemma pure_reflect (P : exc -> Prop) : pure_raising P reflect.
Proof. intros s. eexists. split; [reflexivity|discriminate]. Qed.

End CatalogueReads.

(** ** The table view *)

Section TableView.
Context `{Backend}.

Lemma pure_state {A} (P : exc -> Prop) (m : M A) (s : Session) :
  pure_raising P m -> snd (m s) = s.
Proof. intros Hm. destruct (Hm s) as [r [E _]]. rewrite E. reflexivity. Qed.

Lemma bind_pure_state {A B} (P : exc -> Prop) (m : M A) (k : A -> M B)
    (s : Session) :
  (forall a, pure_raising P (k a)) -> snd (bind m k s) = snd (m s).
Proof.
  intros Hk. unfold bind. destruct (m s) as [[a|e] s1]; [|reflexivity].
  apply (pure_state P), Hk.
Qed.

Lemma pure_get_table_info (table_name : str) :
  pure_raising (fun _ => True) (get_table_info table_name).
Proof.
  unfold get_table_info. apply pure_bind; [apply pure_reflect|].
  intros tables. destruct (find_table table_name tables).
  - apply pure_ret.
  - apply pure_raise. exact I.
Qed.

Lemma get_table_data_calls (table_name : str) (s : Session) :
  calls (snd (get_table_data table_name s))
  = calls s ++ [Execute (lit "SELECT * FROM " ++ dq ++ table_name ++ dq) []].
Proof.
  unfold get_table_data.
  rewrite (bind_pure_state (fun e => e = IndexError)).
  - unfold db_execute, record_call. cbv zeta.
    cbn [committed working calls closed].
    destruct (sql_run _ [] (working s)) as [[rs d]|m]; reflexivity.
  - intros result. apply pure_bind; [apply pure_rows_as_dicts|].
    intros data. apply pure_ret.
Qed.

(** C10. [show_tables] calls [get_table_data] only for a table that
    [get_table_names] lists: for any other [table_name], [None] included, it
    renders the page with empty [columns], [data], [primary_keys] and
    [required_columns] and makes no call on the session; and the only
    statement it ever executes is the [SELECT] of [get_table_data] on a
    listed table. *)
Theorem show_tables_reads_listed_tables_only
    (table_name message message_type : option str) (s : Session) :
  let tables := map tbl_name (cat_tables (catalogue (committed s))) in
  ((forall name, table_name = Some name -> str_in name tables = false) ->
   show_tables table_name message message_type s =
     (Ok (ViewPage {| view_tables := tables;
                      view_current_table := table_name;
                      view_columns := [];
                      view_data := [];
                      view_primary_keys := [];
                      view_required_columns := [];
                      view_message := message;
                      view_message_type := message_type |}),
      s)) /\
  (forall call,
     In call (new_calls s (snd (show_tables table_name message message_type s)))
     -> exists name,
          table_name = Some name /\ str_in name tables = true /\
          call = Execute (lit "SELECT * FROM " ++ dq ++ name ++ dq) []).
Proof.
  intros tables. split.
  - intros Hn. unfold show_tables, bind at 1, get_table_names.
    fold tables. destruct table_name as [name|]; [|reflexivity].
    rewrite (Hn name eq_refl), andb_false_r. reflexivity.
  - intros call Hin. unfold show_tables, bind at 1, get_table_names in Hin.
    fold tables in Hin. destruct table_name as [name|].
    + destruct (truthy (Some name) && str_in name tables) eqn:Hg.
      * apply andb_prop in Hg. destruct Hg as [Ht Hm]. rewrite Ht in Hin.
        exists name. split; [reflexivity|]. split; [exact Hm|].
        rewrite (bind_pure_state (fun _ => True)) in Hin
          by (intros [[[c d] p] r]; apply pure_ret).
        rewrite (bind_pure_state (fun _ => True)) in Hin.
        -- rewrite (new_calls_app _ _ _ (get_table_data_calls name s)) in Hin.
           destruct Hin as [Hin|[]]. symmetry. exact Hin.
        -- intros [c d]. apply pure_bind; [apply pure_get_table_info|].
           intros info. apply pure_ret.
      * cbn [bind ret snd] in Hin. unfold bind, ret in Hin. cbn [snd] in Hin.
        rewrite new_calls_same in Hin. destruct Hin.
    + unfold bind, ret in Hin. cbn [snd] in Hin.
      rewrite new_calls_same in Hin. destruct Hin.
Qed.

End TableView.

(** ** Dictionaries *)

Lemma str_eqb_sym (a b : str) : str_eqb a b = str_eqb b a.
Proof.
  destruct (str_eqb a b) eqn:E.
  - apply str_eqb_eq in E. subst. symmetry. apply str_eqb_refl.
  - symmetry. apply str_eqb_neq. apply str_eqb_neq in E. congruence.
Qed.

Lemma dict_get_set_eq {V} (k : str) (v : V) (d : dict V) :
  dict_get k (dict_set k v d) = Some v.
Proof.
  induction d as [|[k' v'] d IH]; simpl.
  - rewrite str_eqb_refl. reflexivity.
  - destruct (str_eqb k k') eqn:E; simpl; rewrite E; [reflexivity|exact IH].
Qed.

Lemma dict_get_set_neq {V} (k k' : str) (v : V) (d : dict V) :
  k <> k' -> dict_get k (dict_set k' v d) = dict_get k d.
Proof.
  intros Hk. apply str_eqb_neq in Hk.
  induction d as [|[k0 v0] d IH]; simpl.
  - rewrite Hk. reflexivity.
  - destruct (str_eqb k' k0) eqn:E; simpl.
    + apply str_eqb_eq in E. subst k0. rewrite Hk. reflexivity.
    + rewrite IH. reflexivity.
Qed.

Lemma dict_has_keys {V} (k : str) (d : dict V) :
  dict_has k d = true <-> In k (dict_keys d).
Proof.
  unfold dict_has. induction d as [|[k' v'] d IH]; simpl.
  - split; [discriminate|tauto].
  - destruct (str_eqb k k') eqn:E.
    + apply str_eqb_eq in E. subst. tauto.
    + apply str_eqb_neq in E. rewrite IH. split; [tauto|].
      intros [E'|Hin]; [congruence|exact Hin].
Qed.

Lemma dict_keys_set_in {V} (k : str) (v : V) (d : dict V) :
  dict_has k d = true -> dict_keys (dict_set k v d) = dict_keys d.
Proof.
  unfold dict_has. induction d as [|[k' v'] d IH]; simpl; [discriminate|].
  destruct (str_eqb k k') eqn:E; simpl; [reflexivity|].
  intros Hd. rewrite (IH Hd). reflexivity.
Qed.

Lemma dict_keys_set_new {V} (k : str) (v : V) (d : dict V) :
  dict_has k d = false -> dict_keys (dict_set k v d) = dict_keys d ++ [k].
Proof.
  unfold dict_has. induction d as [|[k' v'] d IH]; simpl; [reflexivity|].
  destruct (str_eqb k k') eqn:E; simpl; [discriminate|].
  intros Hd. rewrite (IH Hd). reflexivity.
Qed.

(** ** The session provider *)

Section SessionProvider.
Context `{Backend}.

(** C7. The session that [get_db] opens is closed when the scope of the
    request ends: resuming the generator after its [yield], normally or by
    throwing the exception of the code that used the session, runs
    [db.close()]; so a request returns what its handler returned, or raises
    what it raised, with the session closed. *)
Theorem get_db_closes_the_session {A} (handler : M A) (d : DBState) :
  yielded (get_db d) = SessionLocal d /\
  (forall s, continue (get_db d) Next s = (Stopped, db_close s)) /\
  (forall e s, continue (get_db d) (Throw e) s = (Raised e, db_close s)) /\
  request_scope handler d
  = (fst (handler (SessionLocal d)), db_close (snd (handler (SessionLocal d))))
  /\ closed (snd (request_scope handler d)) = true.
Proof.
  assert (E : request_scope handler d
              = (fst (handler (SessionLocal d)),
                 db_close (snd (handler (SessionLocal d))))).
  { unfold request_scope. cbn [get_db yielded continue].
    unfold cm_enter. cbn [DatabaseManager_get_db yielded].
    destruct (handler (SessionLocal d)) as [[a|e] s]; reflexivity. }
  repeat split; try reflexivity; try exact E.
  rewrite E. reflexivity.
Qed.

End SessionProvider.

(** ** The reports *)

Section Reports.
Context `{Backend}.

Lemma execute_custom_query_calls (query : str) (s : Session) :
  calls (snd (execute_custom_query query s))
  = calls s ++ [Execute query []].
Proof.
  unfold execute_custom_query.
  rewrite (bind_pure_state (fun e => e = IndexError)).
  - unfold db_execute, record_call. cbv zeta.
    cbn [committed working calls closed].
    destruct (sql_run _ [] (working s)) as [[rs d]|m]; reflexivity.
  - intros result. apply pure_bind; [apply pure_rows_as_dicts|].
    intros data. apply pure_ret.
Qed.

Lemma run_report (r : report) (s : Session) :
  report_handler r s =
    ('(columns, data) <- execute_custom_query (report_sql r) ;;
     tables <- get_table_names ;;
     ret (ReportPage {| report_tables := tables;
                        report_current_query := report_name r;
                        report_columns := columns;
                        report_data := data;
                        report_query_title := report_title r |})) s.
Proof.
  destruct r;
    cbn [report_handler report_sql report_name report_title];
    reflexivity.
Qed.

End Reports.

(** ** Insertion-ordered dictionaries, continued *)

Lemma dict_has_false {V} (k : str) (d : dict V) :
  dict_has k d = false <-> ~ In k (dict_keys d).
Proof.
  rewrite <- dict_has_keys. destruct (dict_has k d); split; congruence.
Qed.

Lemma dict_get_app {V} (k : str) (a b : dict V) :
  dict_get k (a ++ b)
  = match dict_get k a with Some v => Some v | None => dict_get k b end.
Proof.
  induction a as [|[k' v'] a IH]; simpl; [reflexivity|].
  destruct (str_eqb k k'); [reflexivity|exact IH].
Qed.

Lemma dict_has_app {V} (k : str) (a b : dict V) :
  dict_has k (a ++ b) = dict_has k a || dict_has k b.
Proof.
  unfold dict_has. rewrite dict_get_app. destruct (dict_get k a); reflexivity.
Qed.

Lemma dict_set_new_app {V} (k : str) (v : V) (d : dict V) :
  dict_has k d = false -> dict_set k v d = d ++ [(k, v)].
Proof.
  unfold dict_has. induction d as [|[k' v'] d IH]; simpl; [reflexivity|].
  destruct (str_eqb k k'); [discriminate|].
  intros Hd. rewrite (IH Hd). reflexivity.
Qed.

Lemma dict_set_app_at {V} (k : str) (v v0 : V) (a b : dict V) :
  dict_has k a = false -> dict_set k v (a ++ (k, v0) :: b) = a ++ (k, v) :: b.
Proof.
  unfold dict_has. induction a as [|[k' v'] a IH]; simpl.
  - rewrite str_eqb_refl. reflexivity.
  - destruct (str_eqb k k'); [discriminate|].
    intros Ha. rewrite (IH Ha). reflexivity.
Qed.

Lemma dict_remove_app_at {V} (k : str) (v0 : V) (a b : dict V) :
  dict_has k a = false -> dict_remove k (a ++ (k, v0) :: b) = a ++ b.
Proof.
  unfold dict_has. induction a as [|[k' v'] a IH]; simpl.
  - rewrite str_eqb_refl. reflexivity.
  - destruct (str_eqb k k'); [discriminate|].
    intros Ha. rewrite (IH Ha). reflexivity.
Qed.

Lemma nodup_keys_set {V} (k : str) (v : V) (d : dict V) :
  NoDup (dict_keys d) -> NoDup (dict_keys (dict_set k v d)).
Proof.
  intros Hd. destruct (dict_has k d) eqn:E.
  - rewrite dict_keys_set_in by exact E. exact Hd.
  - rewrite dict_keys_set_new by exact E.
    apply dict_has_false in E. apply NoDup_app; [exact Hd|repeat constructor; auto|].
    intros x Hx [Hk|[]]. subst. contradiction.
Qed.

Lemma nodup_keys_merge {V} (d l : dict V) :
  NoDup (dict_keys d) -> NoDup (dict_keys (dict_merge d l)).
Proof.
  unfold dict_merge. revert d. induction l as [|[k v] l IH]; intros d Hd.
  - exact Hd.
  - simpl. apply IH, nodup_keys_set, Hd.
Qed.

Lemma nodup_keys_of_items {V} (items : list (str * V)) :
  NoDup (dict_keys (dict_of_items items)).
Proof. apply nodup_keys_merge. constructor. Qed.

Lemma dict_keys_remove_subset {V} (k x : str) (d : dict V) :
  In x (dict_keys (dict_remove k d)) -> In x (dict_keys d).
Proof.
  induction d as [|[k' v'] d IH]; simpl; [tauto|].
  destruct (str_eqb k k'); simpl; [tauto|]. intros [E|Hx]; auto.
Qed.

Lemma nodup_keys_remove {V} (k : str) (d : dict V) :
  NoDup (dict_keys d) -> NoDup (dict_keys (dict_remove k d)).
Proof.
  induction d as [|[k' v'] d IH]; simpl; intros Hd; [constructor|].
  inversion Hd as [|? ? Hn Hd']. subst.
  destruct (str_eqb k k'); [exact Hd'|]. simpl. constructor.
  - intros Hx. apply Hn. apply (dict_keys_remove_subset _ _ _ Hx).
  - apply IH, Hd'.
Qed.

Lemma dict_merge_fresh {V} (d l : dict V) :
  NoDup (dict_keys l) ->
  (forall k, In k (dict_keys l) -> dict_has k d = false) ->
  dict_merge d l = d ++ l.
Proof.
  unfold dict_merge. revert d. induction l as [|[k v] l IH]; intros d Hl Hf.
  - simpl. rewrite app_nil_r. reflexivity.
  - simpl in *. inversion Hl as [|? ? Hn Hl']. subst.
    rewrite dict_set_new_app by (apply Hf; left; reflexivity).
    rewrite IH.
    + rewrite <- app_assoc. reflexivity.
    + exact Hl'.
    + intros k' Hk'. rewrite dict_has_app, (Hf k' (or_intror Hk')).
      unfold dict_has. simpl. destruct (str_eqb k' k) eqn:E; [|reflexivity].
      apply str_eqb_eq in E. subst. contradiction.
Qed.

Lemma dict_of_items_nodup {V} (l : dict V) :
  NoDup (dict_keys l) -> dict_of_items l = l.
Proof.
  intros Hl. unfold dict_of_items. rewrite dict_merge_fresh; auto.
Qed.

Lemma dict_keys_map {V W} (f : V -> W) (d : dict V) :
  dict_keys (dict_map f d) = dict_keys d.
Proof.
  unfold dict_keys, dict_map. rewrite map_map. reflexivity.
Qed.

Lemma dict_map_app {V W} (f : V -> W) (a b : dict V) :
  dict_map f (a ++ b) = dict_map f a ++ dict_map f b.
Proof. apply map_app. Qed.

Lemma dict_set_map {V W} (f : V -> W) (k : str) (v : V) (d : dict V) :
  dict_set k (f v) (dict_map f d) = dict_map f (dict_set k v d).
Proof.
  induction d as [|[k' v'] d IH]; simpl; [reflexivity|].
  destruct (str_eqb k k'); simpl; [reflexivity|]. rewrite IH. reflexivity.
Qed.

Lemma dict_remove_map {V W} (f : V -> W) (k : str) (d : dict V) :
  dict_remove k (dict_map f d) = dict_map f (dict_remove k d).
Proof.
  induction d as [|[k' v'] d IH]; simpl; [reflexivity|].
  destruct (str_eqb k k'); simpl; [reflexivity|]. rewrite IH. reflexivity.
Qed.

Lemma dict_merge_map {V W} (f : V -> W) (d l : dict V) :
  dict_merge (dict_map f d) (dict_map f l) = dict_map f (dict_merge d l).
Proof.
  unfold dict_merge. revert d. induction l as [|[k v] l IH]; intros d.
  - reflexivity.
  - simpl. rewrite dict_set_map. apply IH.
Qed.

Lemma dict_get_map {V W} (f : V -> W) (k : str) (d : dict V) :
  dict_get k (dict_map f d) = option_map f (dict_get k d).
Proof.
  induction d as [|[k' v'] d IH]; simpl; [reflexivity|].
  destruct (str_eqb k k'); [reflexivity|exact IH].
Qed.

Lemma dict_get_in {V} (k : str) (v : V) (d : dict V) :
  NoDup (dict_keys d) -> In (k, v) d -> dict_get k d = Some v.
Proof.
  induction d as [|[k' v'] d IH]; simpl; [tauto|]. intros Hd Hin.
  inversion Hd as [|? ? Hn Hd']. subst.
  destruct Hin as [E|Hin].
  - inversion E. subst. rewrite str_eqb_refl. reflexivity.
  - destruct (str_eqb k k') eqn:E.
    + apply str_eqb_eq in E. subst. exfalso. apply Hn.
      apply (in_map fst) in Hin. exact Hin.
    + apply IH; assumption.
Qed.

Lemma dict_get_some_in {V} (k : str) (v : V) (d : dict V) :
  dict_get k d = Some v -> In (k, v) d.
Proof.
  induction d as [|[k' v'] d IH]; simpl; [discriminate|].
  destruct (str_eqb k k') eqn:E.
  - apply str_eqb_eq in E. subst. intros E. inversion E. auto.
  - auto.
Qed.

(** ** The record statements *)

Lemma startswith_app (s p : str) :
  startswith s p = true -> s = p ++ skipn (length p) s.
Proof.
  revert s. induction p as [|x p IH]; intros s; [reflexivity|].
  destruct s as [|y s]; simpl; [discriminate|].
  rewrite andb_true_iff, N.eqb_eq. intros [-> Hs].
  rewrite <- (IH s Hs). reflexivity.
Qed.

Lemma slice_pk_inj (a b : str) :
  is_pk a = true -> is_pk b = true -> slice_from 3 a = slice_from 3 b -> a = b.
Proof.
  unfold is_pk, slice_from. intros Ha Hb E.
  rewrite (startswith_app _ _ Ha), (startswith_app _ _ Hb).
  change (length (lit "pk_")) with 3%nat. rewrite E. reflexivity.
Qed.

Lemma key_fields_app {V} (a b : dict V) :
  key_fields (a ++ b) = key_fields a ++ key_fields b.
Proof. unfold key_fields. rewrite filter_app, map_app. reflexivity. Qed.

Lemma other_fields_app {V} (a b : dict V) :
  other_fields (a ++ b) = other_fields a ++ other_fields b.
Proof. unfold other_fields. apply filter_app. Qed.

Lemma key_fields_one {V} (k : str) (v : V) :
  key_fields [(k, v)] = if is_pk k then [(slice_from 3 k, v)] else [].
Proof. unfold key_fields. cbn [filter fst]. destruct (is_pk k); reflexivity. Qed.

Lemma other_fields_one {V} (k : str) (v : V) :
  other_fields [(k, v)] = if is_pk k then [] else [(k, v)].
Proof.
  unfold other_fields. cbn [filter fst]. destruct (is_pk k); reflexivity.
Qed.

Lemma other_fields_keys {V} (k : str) (d : dict V) :
  In k (dict_keys (other_fields d)) -> In k (dict_keys d) /\ is_pk k = false.
Proof.
  unfold dict_keys, other_fields. rewrite in_map_iff.
  intros [[k' v] [E Hin]]. simpl in E. subst k'.
  apply filter_In in Hin. destruct Hin as [Hin Hp]. simpl in Hp. split.
  - apply (in_map fst) in Hin. exact Hin.
  - apply negb_true_iff. exact Hp.
Qed.

Lemma key_fields_keys {V} (k : str) (d : dict V) :
  In k (dict_keys (key_fields d)) ->
  exists key, In key (dict_keys d) /\ is_pk key = true /\ k = slice_from 3 key.
Proof.
  unfold dict_keys, key_fields. rewrite map_map, in_map_iff.
  intros [[k' v] [E Hin]]. simpl in E. subst k.
  apply filter_In in Hin. destruct Hin as [Hin Hp]. simpl in Hp.
  exists k'. split; [apply (in_map fst) in Hin; exact Hin|auto].
Qed.

Lemma key_field_fresh {V} (k : str) (d : dict V) :
  is_pk k = true -> ~ In k (dict_keys d) ->
  dict_has (slice_from 3 k) (key_fields d) = false.
Proof.
  intros Hk Hn. apply dict_has_false. intros Hin.
  apply key_fields_keys in Hin. destruct Hin as [key [Hin [Hp E]]].
  apply (slice_pk_inj _ _ Hk Hp) in E. subst. contradiction.
Qed.

Lemma other_field_fresh {V} (k : str) (d : dict V) :
  ~ In k (dict_keys d) -> dict_has k (other_fields d) = false.
Proof.
  intros Hn. apply dict_has_false. intros Hin.
  apply other_fields_keys in Hin. tauto.
Qed.

Lemma nodup_app_head {V} (a : dict V) (k : str) (v : V) (b : dict V) :
  NoDup (dict_keys (a ++ (k, v) :: b)) -> ~ In k (dict_keys a).
Proof.
  unfold dict_keys. rewrite map_app. simpl. intros Hd Hin.
  apply NoDup_remove_2 in Hd. apply Hd. apply in_or_app. left. exact Hin.
Qed.

Lemma split_primary_keys_from {V} (l done : dict V) :
  NoDup (dict_keys (done ++ l)) ->
  fold_left
    (fun '(primary_keys, form_dict) '(key, value) =>
       if startswith key (lit "pk_")
       then let original_key := slice_from 3 key in
            (dict_set original_key value primary_keys,
             dict_remove key form_dict)
       else (primary_keys, form_dict))
    l (key_fields done, other_fields done ++ l)
  = (key_fields (done ++ l), other_fields (done ++ l)).
Proof.
  revert done. induction l as [|[k v] l IH]; intros done Hd.
  - simpl. rewrite !app_nil_r. reflexivity.
  - pose proof (nodup_app_head _ _ _ _ Hd) as Hn.
    replace (done ++ (k, v) :: l) with ((done ++ [(k, v)]) ++ l) in *
      by (rewrite <- app_assoc; reflexivity).
    rewrite <- (IH (done ++ [(k, v)]) Hd). cbn [fold_left].
    f_equal. rewrite key_fields_app, other_fields_app.
    rewrite key_fields_one, other_fields_one.
    change (startswith k (lit "pk_")) with (is_pk k).
    destruct (is_pk k) eqn:Hk.
    + cbv zeta. rewrite !app_nil_r.
      rewrite dict_remove_app_at by (apply other_field_fresh, Hn).
      rewrite dict_set_new_app by (apply key_field_fresh; assumption).
      reflexivity.
    + rewrite app_nil_r, <- app_assoc. reflexivity.
Qed.

Lemma split_primary_keys_spec {V} (d : dict V) :
  NoDup (dict_keys d) ->
  split_primary_keys d = (key_fields d, other_fields d).
Proof. intros Hd. apply (split_primary_keys_from d [] Hd). Qed.

Lemma collect_primary_keys_from {V} (l done : dict V) :
  NoDup (dict_keys (done ++ l)) ->
  fold_left
    (fun primary_keys '(key, value) =>
       if startswith key (lit "pk_")
       then dict_set (slice_from 3 key) value primary_keys
       else primary_keys)
    l (key_fields done)
  = key_fields (done ++ l).
Proof.
  revert done. induction l as [|[k v] l IH]; intros done Hd.
  - simpl. rewrite app_nil_r. reflexivity.
  - pose proof (nodup_app_head _ _ _ _ Hd) as Hn.
    replace (done ++ (k, v) :: l) with ((done ++ [(k, v)]) ++ l) in *
      by (rewrite <- app_assoc; reflexivity).
    rewrite <- (IH (done ++ [(k, v)]) Hd). cbn [fold_left].
    f_equal. rewrite key_fields_app, key_fields_one.
    change (startswith k (lit "pk_")) with (is_pk k).
    destruct (is_pk k) eqn:Hk.
    + rewrite dict_set_new_app by (apply key_field_fresh; assumption).
      reflexivity.
    + rewrite app_nil_r. reflexivity.
Qed.

Lemma collect_primary_keys_spec {V} (d : dict V) :
  NoDup (dict_keys d) -> collect_primary_keys d = key_fields d.
Proof. intros Hd. apply (collect_primary_keys_from d [] Hd). Qed.

Lemma nodup_key_fields {V} (d : dict V) :
  NoDup (dict_keys d) -> NoDup (dict_keys (key_fields d)).
Proof.
  induction d as [|[k v] d IH]; intros Hd; [constructor|].
  simpl in Hd. inversion Hd as [|? ? Hn Hd']. subst.
  unfold key_fields. cbn [filter fst]. fold (is_pk k).
  destruct (is_pk k) eqn:Hk; [|apply IH, Hd'].
  cbn [map dict_keys fst snd]. constructor; [|apply IH, Hd'].
  apply dict_has_false. apply key_field_fresh; assumption.
Qed.

Lemma nodup_other_fields {V} (d : dict V) :
  NoDup (dict_keys d) -> NoDup (dict_keys (other_fields d)).
Proof.
  induction d as [|[k v] d IH]; intros Hd; [constructor|].
  simpl in Hd. inversion Hd as [|? ? Hn Hd']. subst.
  unfold other_fields. cbn [filter fst].
  destruct (negb (is_pk k)); [|apply IH, Hd'].
  cbn [map dict_keys fst]. constructor; [|apply IH, Hd'].
  intros Hin. apply other_fields_keys in Hin. tauto.
Qed.

Section RecordStatements.
Context `{PyRuntime}.

Lemma empty_to_none_from (l done : dict pyval) :
  NoDup (dict_keys (done ++ l)) ->
  fold_left
    (fun form_dict '(key, value) =>
       match value with
       | PStr [] => dict_set key PNone form_dict
       | _ => form_dict
       end)
    l (dict_map none_if_empty done ++ l)
  = dict_map none_if_empty (done ++ l).
Proof.
  revert done. induction l as [|[k v] l IH]; intros done Hd.
  - simpl. rewrite !app_nil_r. reflexivity.
  - pose proof (nodup_app_head _ _ _ _ Hd) as Hn.
    assert (Hf : dict_has k (dict_map none_if_empty done) = false).
    { apply dict_has_false. rewrite dict_keys_map. exact Hn. }
    replace (done ++ (k, v) :: l) with ((done ++ [(k, v)]) ++ l) in *
      by (rewrite <- app_assoc; reflexivity).
    rewrite <- (IH (done ++ [(k, v)]) Hd). cbn [fold_left].
    f_equal. rewrite dict_map_app.
    change (dict_map none_if_empty [(k, v)]) with [(k, none_if_empty v)].
    rewrite <- app_assoc. cbn [app].
    destruct v as [|value| | | | |]; try reflexivity.
    destruct value; [|reflexivity].
    apply dict_set_app_at, Hf.
Qed.

Lemma empty_to_none_spec (d : dict pyval) :
  NoDup (dict_keys d) -> empty_to_none d = dict_map none_if_empty d.
Proof. intros Hd. apply (empty_to_none_from d [] Hd). Qed.

Lemma nodup_suffixed {V} (d : dict V) :
  NoDup (dict_keys d) ->
  NoDup (dict_keys (map (fun '(key, value) => (key ++ lit "_pk", value)) d)).
Proof.
  induction d as [|[k v] d IH]; intros Hd; [constructor|].
  simpl in Hd. inversion Hd as [|? ? Hn Hd']. subst.
  cbn [map dict_keys fst]. constructor; [|apply IH, Hd'].
  intros Hin. apply Hn. unfold dict_keys in Hin. rewrite map_map in Hin.
  apply in_map_iff in Hin. destruct Hin as [[k' v'] [E Hin]].
  simpl in E. apply app_inv_tail in E. subst k'.
  apply (in_map fst) in Hin. exact Hin.
Qed.

(** The statement of [edit_record] in terms of the key fields and the other
    fields of a form. *)
Lemma edit_statement_spec (table_name : str) (d : dict pyval) :
  NoDup (dict_keys d) ->
  edit_statement table_name d =
    (update_statement table_name
       (dict_keys (other_fields d)) (dict_keys (key_fields d)),
     dict_merge (dict_map none_if_empty (other_fields d))
       (map (fun '(key, value) => (key ++ lit "_pk", value)) (key_fields d))).
Proof.
  intros Hd. unfold edit_statement. rewrite (split_primary_keys_spec d Hd).
  rewrite (empty_to_none_spec _ (nodup_other_fields d Hd)).
  rewrite dict_keys_map.
  rewrite (dict_of_items_nodup _ (nodup_suffixed _ (nodup_key_fields d Hd))).
  reflexivity.
Qed.

(** The statement of [delete_record] in the same terms. *)
Lemma delete_statement_spec (table_name : str) (d : dict pyval) :
  NoDup (dict_keys d) ->
  delete_statement table_name d =
    (delete_statement_text table_name (dict_keys (key_fields d)),
     key_fields d).
Proof.
  intros Hd. unfold delete_statement. rewrite (collect_primary_keys_spec d Hd).
  rewrite (dict_of_items_nodup _ (nodup_key_fields d Hd)). reflexivity.
Qed.

Lemma other_fields_names {V} (d : dict V) :
  dict_keys (other_fields d) = filter (fun k => negb (is_pk k)) (dict_keys d).
Proof.
  induction d as [|[k v] d IH]; [reflexivity|].
  unfold other_fields, dict_keys in *. cbn [filter map fst].
  destruct (negb (is_pk k)); cbn [map fst]; rewrite IH; reflexivity.
Qed.

Lemma key_fields_names {V} (d : dict V) :
  dict_keys (key_fields d) = map (slice_from 3) (filter is_pk (dict_keys d)).
Proof.
  induction d as [|[k v] d IH]; [reflexivity|].
  unfold key_fields, dict_keys in *. cbn [filter map fst].
  destruct (is_pk k); cbn [map fst]; rewrite IH; reflexivity.
Qed.

(** The form of a request: its keys come from the field names alone, no key
    occurs twice, and its values are the submitted strings. *)
Lemma fields_of_map (form_data : list (str * str)) :
  fields_of form_data
  = dict_map PStr (dict_remove (lit "table_name") (dict_of_items form_data)).
Proof.
  unfold fields_of, form_dict_of, dict_of_items.
  rewrite <- dict_remove_map, <- dict_merge_map. reflexivity.
Qed.

Lemma fields_of_names (form_data : list (str * str)) :
  dict_keys (fields_of form_data) = field_names (map fst form_data).
Proof.
  rewrite fields_of_map, dict_keys_map. unfold field_names.
  rewrite map_map.
  change (map (fun x : str * str => (fst x, tt)) form_data)
    with (dict_map (fun _ : str => tt) form_data).
  unfold dict_of_items.
  change (@nil (str * unit)) with (dict_map (fun _ : str => tt) []).
  rewrite dict_merge_map, dict_remove_map, dict_keys_map. reflexivity.
Qed.

Lemma fields_of_nodup (form_data : list (str * str)) :
  NoDup (dict_keys (fields_of form_data)).
Proof. apply nodup_keys_remove, nodup_keys_of_items. Qed.

End RecordStatements.

Section BoundValues.
Context `{PyRuntime}.

Lemma in_other_fields {V} (key : str) (v : V) (d : dict V) :
  In (key, v) d -> is_pk key = false -> In (key, v) (other_fields d).
Proof.
  intros Hin Hk. unfold other_fields. apply filter_In. split; [exact Hin|].
  simpl. rewrite Hk. reflexivity.
Qed.

Lemma in_key_fields {V} (key : str) (v : V) (d : dict V) :
  In (key, v) d -> is_pk key = true -> In (slice_from 3 key, v) (key_fields d).
Proof.
  intros Hin Hk. unfold key_fields.
  apply (in_map (fun kv => (slice_from 3 (fst kv), snd kv)) _ (key, v)).
  apply filter_In. split; [exact Hin|exact Hk].
Qed.

Lemma suffixed_fresh (d : dict pyval) (k : str) :
  pk_suffix_free (dict_keys d) ->
  In k (dict_keys (map (fun '(key, value) => (key ++ lit "_pk", value))
                     (key_fields d))) ->
  dict_has k (dict_map none_if_empty (other_fields d)) = false.
Proof.
  intros Hfree Hin. apply dict_has_false. rewrite dict_keys_map. intros Ho.
  apply other_fields_keys in Ho. destruct Ho as [Ho Hp].
  unfold dict_keys in Hin. rewrite map_map in Hin.
  apply in_map_iff in Hin. destruct Hin as [[k0 v0] [E Hin]]. simpl in E.
  apply (in_map fst) in Hin. apply key_fields_keys in Hin.
  destruct Hin as [key [Hkey [Hpk E0]]]. simpl in E0. subst k0.
  apply (Hfree key k Hkey Hpk Ho Hp). symmetry. exact E.
Qed.

Lemma edit_params_spec (d : dict pyval) :
  NoDup (dict_keys d) -> pk_suffix_free (dict_keys d) ->
  dict_merge (dict_map none_if_empty (other_fields d))
    (map (fun '(key, value) => (key ++ lit "_pk", value)) (key_fields d))
  = dict_map none_if_empty (other_fields d)
    ++ map (fun '(key, value) => (key ++ lit "_pk", value)) (key_fields d).
Proof.
  intros Hd Hfree. apply dict_merge_fresh.
  - apply nodup_suffixed, nodup_key_fields, Hd.
  - intros k Hk. apply suffixed_fresh; assumption.
Qed.

Lemma edit_binds_other (table_name : str) (d : dict pyval) (key : str)
    (v : pyval) :
  NoDup (dict_keys d) -> pk_suffix_free (dict_keys d) ->
  dict_get key d = Some v -> is_pk key = false ->
  dict_get key (snd (edit_statement table_name d)) = Some (none_if_empty v).
Proof.
  intros Hd Hfree Hget Hk. rewrite (edit_statement_spec _ d Hd). cbn [snd].
  rewrite (edit_params_spec d Hd Hfree), dict_get_app.
  rewrite dict_get_map.
  rewrite (dict_get_in key v (other_fields d) (nodup_other_fields d Hd)).
  - reflexivity.
  - apply in_other_fields; [apply dict_get_some_in, Hget|exact Hk].
Qed.

Lemma edit_binds_key (table_name : str) (d : dict pyval) (key : str)
    (v : pyval) :
  NoDup (dict_keys d) -> pk_suffix_free (dict_keys d) ->
  dict_get key d = Some v -> is_pk key = true ->
  dict_get (slice_from 3 key ++ lit "_pk") (snd (edit_statement table_name d))
  = Some v.
Proof.
  intros Hd Hfree Hget Hk. rewrite (edit_statement_spec _ d Hd). cbn [snd].
  rewrite (edit_params_spec d Hd Hfree), dict_get_app.
  assert (Hin : In (slice_from 3 key ++ lit "_pk", v)
                  (map (fun '(key, value) => (key ++ lit "_pk", value))
                     (key_fields d))).
  { apply (in_map (fun '(key, value) => (key ++ lit "_pk", value)) _
             (slice_from 3 key, v)).
    apply in_key_fields; [apply dict_get_some_in, Hget|exact Hk]. }
  assert (Hf : dict_has (slice_from 3 key ++ lit "_pk")
                 (dict_map none_if_empty (other_fields d)) = false).
  { apply suffixed_fresh; [exact Hfree|].
    apply (in_map fst) in Hin. exact Hin. }
  unfold dict_has in Hf.
  destruct (dict_get (slice_from 3 key ++ lit "_pk")
              (dict_map none_if_empty (other_fields d)));
    [discriminate|].
  apply dict_get_in; [|exact Hin].
  apply nodup_suffixed, nodup_key_fields, Hd.
Qed.

Lemma delete_binds_key (table_name : str) (d : dict pyval) (key : str)
    (v : pyval) :
  NoDup (dict_keys d) -> dict_get key d = Some v -> is_pk key = true ->
  dict_get (slice_from 3 key) (snd (delete_statement table_name d)) = Some v.
Proof.
  intros Hd Hget Hk. rewrite (delete_statement_spec _ d Hd). cbn [snd].
  apply dict_get_in; [apply nodup_key_fields, Hd|].
  apply in_key_fields; [apply dict_get_some_in, Hget|exact Hk].
Qed.

Lemma bound_as_str (value value' : str) :
  bound_as value (PStr value') -> value' = value.
Proof.
  intros [E|[[_ E]|[[d [_ E]]|[[d [_ E]]|[[z [_ E]]|[f [_ E]]]]]]];
    inversion E; reflexivity.
Qed.

Lemma binds_form_refl (form : dict pyval) : binds_form form form.
Proof.
  split; [reflexivity|]. intros key value Hget.
  exists (PStr value). split; [exact Hget|left; reflexivity].
Qed.

Lemma binds_form_set (form params : dict pyval) (name value : str)
    (param : pyval) :
  binds_form form params ->
  dict_get name params = Some (PStr value) ->
  bound_as value param ->
  binds_form form (dict_set name param params).
Proof.
  intros [Hkeys Hb] Hget Hparam. split.
  - rewrite dict_keys_set_in; [exact Hkeys|].
    unfold dict_has. rewrite Hget. reflexivity.
  - intros key value0 Hform. destruct (Hb key value0 Hform) as [p [Hp Hbp]].
    destruct (str_eqb key name) eqn:E.
    + apply str_eqb_eq in E. subst key. rewrite Hget in Hp.
      inversion Hp. subst p. apply bound_as_str in Hbp. subst value0.
      exists param. split; [apply dict_get_set_eq|exact Hparam].
    + apply str_eqb_neq in E. exists p.
      rewrite dict_get_set_neq by exact E. split; assumption.
Qed.

Lemma convert_column_binds (column : Column) (form params params' : dict pyval) :
  binds_form form params ->
  convert_column column params = Ok params' ->
  binds_form form params'.
Proof.
  intros Hb. unfold convert_column.
  destruct (dict_get (col_name column) params) as [[|value| | | | |]|] eqn:Hget;
    try (intros E; inversion E; subst; exact Hb).
  destruct (is_empty value && col_nullable column) eqn:Hn.
  - intros E. inversion E. subst.
    apply (binds_form_set _ _ _ value); [exact Hb|exact Hget|].
    apply andb_prop in Hn. destruct Hn as [Hn _].
    destruct value; [|discriminate]. right. left. auto.
  - destruct (col_type column); destruct value as [|c value];
      try (intros E; inversion E; subst; exact Hb).
    + destruct (date_fromisoformat (c :: value)) eqn:Ep;
        intros E; inversion E; subst.
      apply (binds_form_set _ _ _ (c :: value)); [exact Hb|exact Hget|].
      right. right. left. eauto.
    + destruct (datetime_fromisoformat (c :: value)) eqn:Ep;
        intros E; inversion E; subst.
      apply (binds_form_set _ _ _ (c :: value)); [exact Hb|exact Hget|].
      right. right. right. left. eauto.
    + destruct (int_of_str (c :: value)) eqn:Ep;
        intros E; inversion E; subst.
      apply (binds_form_set _ _ _ (c :: value)); [exact Hb|exact Hget|].
      right. right. right. right. left. eauto.
    + destruct (float_of_str (c :: value)) eqn:Ep;
        intros E; inversion E; subst.
      apply (binds_form_set _ _ _ (c :: value)); [exact Hb|exact Hget|].
      right. right. right. right. right. eauto.
Qed.

Lemma convert_columns_binds (columns : list Column)
    (form params params' : dict pyval) :
  binds_form form params ->
  convert_columns columns params = Ok params' ->
  binds_form form params'.
Proof.
  revert params. induction columns as [|column columns IH]; intros params Hb.
  - intros E. inversion E. subst. exact Hb.
  - cbn [convert_columns].
    destruct (convert_column column params) as [params1|e] eqn:E1;
      [|discriminate].
    apply IH. apply (convert_column_binds column form params); assumption.
Qed.

Lemma add_statement_spec (table_name : str) (table : Table)
    (form : dict pyval) (query : str) (params : dict pyval) :
  add_statement table_name table form = Ok (query, params) ->
  query = insert_statement table_name (dict_keys form) /\
  binds_form form params.
Proof.
  unfold add_statement.
  destruct (convert_columns (tbl_columns table) form) as [params'|e] eqn:E;
    [|discriminate].
  intros E'. inversion E'. subst.
  pose proof (convert_columns_binds _ _ _ _ (binds_form_refl form) E) as Hb.
  split; [|exact Hb]. destruct Hb as [Hk _]. rewrite Hk. reflexivity.
Qed.

End BoundValues.

Section RecordHandlers.
Context `{Backend}.

Lemma only_executes_pure {A} (Q : exc -> Prop)
    (P : str -> dict pyval -> Prop) (m : M A) :
  pure_raising Q m -> only_executes P m.
Proof.
  intros Hm s. exists []. rewrite (pure_state Q m s Hm), app_nil_r.
  split; [reflexivity|]. intros q p [].
Qed.

Lemma only_executes_bind_pure {A B} (Q : exc -> Prop)
    (P : str -> dict pyval -> Prop) (m : M A) (k : A -> M B) :
  pure_raising Q m -> (forall a, only_executes P (k a)) ->
  only_executes P (bind m k).
Proof.
  intros Hm Hk s. unfold bind. destruct (Hm s) as [r [E _]]. rewrite E.
  destruct r as [a|e]; [apply Hk|].
  exists []. cbn [snd]. rewrite app_nil_r. split; [reflexivity|].
  intros q p [].
Qed.

Lemma only_executes_execute_commit {A} (P : str -> dict pyval -> Prop)
    (query : str) (params : dict pyval) (a : A) :
  P query params ->
  only_executes P (db_execute query params ;;; db_commit ;;; ret a).
Proof.
  intros HP s. unfold bind, db_execute, db_commit, record_call, ret.
  cbv zeta. cbn [committed working calls closed].
  destruct (sql_run query params (working s)) as [[rs d]|m].
  - cbn [committed working calls closed].
    destruct (sql_commit d) as [m|]; cbn [snd calls];
      exists [Execute query params; Commit];
      (split; [rewrite <- app_assoc; reflexivity|]);
      intros q p [E|[E|[]]]; inversion E; subst; exact HP.
  - cbn [snd calls]. exists [Execute query params].
    split; [reflexivity|]. intros q p [E|[]]. inversion E. subst. exact HP.
Qed.

Lemma only_executes_redirect (P : str -> dict pyval -> Prop)
    (table_name what : str) (body : M Response) :
  only_executes P body ->
  only_executes P (try_except body (redirect_on_db_error table_name what)).
Proof.
  intros Hb s. destruct (Hb s) as [added [Hc HP]]. unfold try_except.
  destruct (body s) as [[a|e] s1]; cbn [snd] in Hc.
  - exists added. split; assumption.
  - destruct e as [m| | |]; cbn [redirect_on_db_error];
      try (exists added; split; assumption).
    exists (added ++ [Rollback]). cbn [snd calls]. split.
    + unfold bind, db_rollback, record_call, ret. cbv zeta.
      cbn [snd calls]. rewrite Hc, app_assoc. reflexivity.
    + intros q p Hin. apply in_app_or in Hin.
      destruct Hin as [Hin|[E|[]]]; [apply HP, Hin|discriminate].
Qed.

Lemma form_del_table_name (form_data : list (str * str)) (form : dict pyval) :
  dict_del (lit "table_name") (form_dict_of form_data) = Some form ->
  form = fields_of form_data.
Proof.
  unfold dict_del, fields_of.
  destruct (dict_has (lit "table_name") (form_dict_of form_data));
    intros E; inversion E; reflexivity.
Qed.

Lemma only_executes_or_raise {A B} (P : str -> dict pyval -> Prop)
    (e : exc) (o : option A) (k : A -> M B) :
  (forall a, o = Some a -> only_executes P (k a)) ->
  only_executes P (bind (or_raise e o) k).
Proof.
  intros Hk. destruct o as [a|].
  - intros s. apply (Hk a eq_refl s).
  - intros s. exists []. cbn [or_raise]. unfold bind, raise. cbn [snd].
    rewrite app_nil_r. split; [reflexivity|]. intros q p [].
Qed.

Lemma only_executes_lift {A B} (P : str -> dict pyval -> Prop)
    (r : result A) (k : A -> M B) :
  (forall a, r = Ok a -> only_executes P (k a)) ->
  only_executes P (bind (lift r) k).
Proof.
  intros Hk. destruct r as [a|e].
  - intros s. apply (Hk a eq_refl s).
  - intros s. exists []. unfold bind, lift. cbn [snd].
    rewrite app_nil_r. split; [reflexivity|]. intros q p [].
Qed.

Lemma add_record_executes (table_name : str) (form_data : list (str * str)) :
  only_executes
    (fun statement params =>
       exists table,
         add_statement table_name table (fields_of form_data)
         = Ok (statement, params))
    (add_record table_name form_data).
Proof.
  unfold add_record. apply only_executes_redirect. unfold add_record_try.
  apply only_executes_or_raise. intros form Ed.
  apply form_del_table_name in Ed. subst form.
  apply (only_executes_bind_pure (fun _ => True)); [apply pure_get_table_names|].
  intros tables. destruct (negb (str_in table_name tables)).
  { apply (only_executes_pure (fun _ => True)), pure_raise. exact I. }
  apply (only_executes_bind_pure (fun _ => True)); [apply pure_reflect|].
  intros metadata.
  apply (only_executes_bind_pure (fun _ => True));
    [apply pure_or_raise; exact I|].
  intros table. apply only_executes_lift. intros [query params] Ea.
  apply only_executes_execute_commit. exists table. exact Ea.
Qed.

Lemma edit_record_executes (table_name : str) (form_data : list (str * str)) :
  only_executes
    (fun statement params =>
       (statement, params)
       = edit_statement table_name (fields_of form_data))
    (edit_record table_name form_data).
Proof.
  unfold edit_record. apply only_executes_redirect. unfold edit_record_try.
  apply only_executes_or_raise. intros form Ed.
  apply form_del_table_name in Ed. subst form.
  apply (only_executes_bind_pure (fun _ => True)); [apply pure_get_table_names|].
  intros tables. destruct (negb (str_in table_name tables)).
  { apply (only_executes_pure (fun _ => True)), pure_raise. exact I. }
  destruct (edit_statement table_name (fields_of form_data))
    as [query params].
  apply only_executes_execute_commit. reflexivity.
Qed.

Lemma delete_record_executes (table_name : str)
    (form_data : list (str * str)) :
  only_executes
    (fun statement params =>
       (statement, params)
       = delete_statement table_name (fields_of form_data))
    (delete_record table_name form_data).
Proof.
  unfold delete_record. apply only_executes_redirect.
  unfold delete_record_try.
  apply only_executes_or_raise. intros form Ed.
  apply form_del_table_name in Ed. subst form.
  apply (only_executes_bind_pure (fun _ => True)); [apply pure_get_table_names|].
  intros tables. destruct (negb (str_in table_name tables)).
  { apply (only_executes_pure (fun _ => True)), pure_raise. exact I. }
  destruct (delete_statement table_name (fields_of form_data))
    as [query params].
  apply only_executes_execute_commit. reflexivity.
Qed.

End RecordHandlers.

Section BoundStatements.
Context `{Backend}.

Lemma executed_statement {A} (P : str -> dict pyval -> Prop) (m : M A)
    (s : Session) (statement : str) (params : dict pyval) :
  only_executes P m ->
  In (Execute statement params) (new_calls s (snd (m s))) ->
  P statement params.
Proof.
  intros Hm Hin. destruct (Hm s) as [added [Hc HP]].
  rewrite (new_calls_app _ _ _ Hc) in Hin. apply HP, Hin.
Qed.

(** C2, as amended. Whatever [add_record], [edit_record] or [delete_record]
    passes to [db.execute], the statement text is made of the table name
    and the field names only, and the values travel as named parameters:
    [add_record] binds every field under its own name, to the submitted
    string or to what was read from it; [edit_record] binds every field
    that is not a key under its own name and every [pk_] field under its
    name without the prefix and with [_pk] added, provided no field that is
    not a key bears such a name; [delete_record] binds the [pk_] fields
    under their names without the prefix, and uses no other field. *)
Theorem record_statements_bind_values
    (table_name : str) (form_data : list (str * str)) (s : Session)
    (statement : str) (params : dict pyval) :
  let names := field_names (map fst form_data) in
  let form := fields_of form_data in
  (In (Execute statement params)
      (new_calls s (snd (add_record table_name form_data s))) ->
   statement = insert_statement table_name names /\
   binds_form form params) /\
  (In (Execute statement params)
      (new_calls s (snd (edit_record table_name form_data s))) ->
   statement
   = update_statement table_name
       (filter (fun key => negb (is_pk key)) names)
       (map (slice_from 3) (filter is_pk names)) /\
   (pk_suffix_free names ->
    forall key value,
      dict_get key form = Some (PStr value) ->
      if is_pk key
      then dict_get (slice_from 3 key ++ lit "_pk") params
           = Some (PStr value)
      else dict_get key params = Some (none_if_empty (PStr value)))) /\
  (In (Execute statement params)
      (new_calls s (snd (delete_record table_name form_data s))) ->
   statement
   = delete_statement_text table_name
       (map (slice_from 3) (filter is_pk names)) /\
   dict_keys params = map (slice_from 3) (filter is_pk names) /\
   forall key value,
     dict_get key form = Some (PStr value) -> is_pk key = true ->
     dict_get (slice_from 3 key) params = Some (PStr value)).
Proof.
  intros names form.
  pose proof (fields_of_nodup form_data) as Hd. fold form in Hd.
  pose proof (fields_of_names form_data) as Hn. fold form names in Hn.
  split; [|split].
  - intros Hin.
    destruct (executed_statement _ _ _ _ _
                (add_record_executes table_name form_data) Hin)
      as [table Ea].
    destruct (add_statement_spec _ _ _ _ _ Ea) as [Eq Hb].
    fold form in Eq. rewrite Hn in Eq. split; assumption.
  - intros Hin.
    pose proof (executed_statement _ _ _ _ _
                  (edit_record_executes table_name form_data) Hin) as Ee.
    cbv beta in Ee. fold form in Ee. split.
    + apply (f_equal fst) in Ee. cbn [fst] in Ee. rewrite Ee.
      rewrite (edit_statement_spec _ form Hd). cbn [fst].
      rewrite other_fields_names, key_fields_names, Hn. reflexivity.
    + intros Hfree key value Hget. rewrite <- Hn in Hfree.
      apply (f_equal snd) in Ee. cbn [snd] in Ee. rewrite Ee.
      destruct (is_pk key) eqn:Hk.
      * apply edit_binds_key; assumption.
      * apply (edit_binds_other table_name form key (PStr value));
          assumption.
  - intros Hin.
    pose proof (executed_statement _ _ _ _ _
                  (delete_record_executes table_name form_data) Hin) as Ee.
    cbv beta in Ee. fold form in Ee.
    rewrite (delete_statement_spec _ form Hd) in Ee. inversion Ee. subst.
    rewrite key_fields_names, Hn. repeat split.
    intros key value Hget Hk.
    pose proof (delete_binds_key table_name form key (PStr value) Hd Hget Hk)
      as Hb.
    rewrite (delete_statement_spec _ form Hd) in Hb. exact Hb.
Qed.

End BoundStatements.

(** ** The schema endpoint *)

Section Schema.
Context `{Backend}.

Lemma find_table_listed (name : str) (ts : list Table) :
  str_in name (map tbl_name ts) = true ->
  exists table, find_table name ts = Some table.
Proof.
  induction ts as [|t ts IH]; simpl; [discriminate|].
  destruct (str_eqb name (tbl_name t)); simpl; eauto.
Qed.

Lemma for_each_ok {A B} (f : A -> M B) (l : list A) (s s' : Session)
    (bs : list B) :
  for_each f l s = (Ok bs, s') ->
  Forall2 (fun a b => exists s1 s2, f a s1 = (Ok b, s2)) l bs.
Proof.
  revert s bs. induction l as [|a l IH]; intros s bs; cbn [for_each].
  - intros E. inversion E. constructor.
  - unfold bind at 1. destruct (f a s) as [[b|e] s1] eqn:Ef; [|discriminate].
    unfold bind at 1. destruct (for_each f l s1) as [[bs'|e] s2] eqn:El;
      [|discriminate].
    intros E. inversion E. subst. constructor; [eauto|].
    apply (IH s1 bs' El).
Qed.

Lemma first_cells_ok (rows : list (list pyval)) (s s' : Session)
    (values : list pyval) :
  for_each (fun row => or_raise IndexError (nth_error row 0)) rows s
  = (Ok values, s') ->
  map (fun row => nth_error row 0) rows = map Some values.
Proof.
  intros E. apply for_each_ok in E.
  induction E as [|row v rows values [s1 [s2 Hv]] _ IH]; [reflexivity|].
  cbn [map]. rewrite IH. f_equal.
  destruct (nth_error row 0); inversion Hv. reflexivity.
Qed.

Lemma first_cells_total (rows : list (list pyval)) (s : Session) :
  Forall (row_has_cells 1) rows ->
  exists values,
    for_each (fun row => or_raise IndexError (nth_error row 0)) rows s
    = (Ok values, s).
Proof.
  induction 1 as [|row rows Hrow _ [values IH]].
  - exists []. reflexivity.
  - destruct row as [|v row]; [unfold row_has_cells in Hrow; simpl in Hrow; lia|].
    exists (v :: values). cbn [for_each].
    change (nth_error (v :: row) 0) with (Some v). cbn [or_raise].
    unfold bind at 1, ret at 1. unfold bind at 1. rewrite IH. reflexivity.
Qed.

Lemma foreign_key_lookup_total (name : str) (fks : list ForeignKey)
    (s : Session) :
  answers_lookups fks ->
  exists r s', foreign_key_lookup name fks s = (Ok r, s').
Proof.
  intros Hfks. induction Hfks as [|fk fks [target [Et Hdb]] _ IH].
  - do 2 eexists. reflexivity.
  - cbn [foreign_key_lookup].
    destruct (str_in name (constrained_columns fk)); [|exact IH].
    rewrite Et. cbn [or_raise]. unfold bind at 1, ret at 1.
    unfold bind at 1, db_execute. cbv zeta.
    destruct (Hdb (working s)) as [rs [d [Er Hrows]]].
    rewrite Er. unfold bind at 1.
    match goal with
    | |- context [for_each ?f ?l ?S] =>
        destruct (first_cells_total l S Hrows) as [values Ev]; rewrite Ev
    end.
    do 2 eexists. reflexivity.
Qed.

Lemma columns_info_total (fks : list ForeignKey) (columns : list Column)
    (s : Session) :
  answers_lookups fks ->
  exists infos s', for_each (column_info fks) columns s = (Ok infos, s').
Proof.
  intros Hfks. revert s. induction columns as [|column columns IH];
    intros s.
  - do 2 eexists. reflexivity.
  - cbn [for_each]. unfold bind at 1, column_info at 1, bind at 1.
    destruct (foreign_key_lookup_total (col_name column) fks s Hfks)
      as [[is_fk info] [s1 E]].
    rewrite E. unfold ret at 1. unfold bind at 1.
    destruct (IH s1) as [infos [s2 E2]]. rewrite E2.
    do 2 eexists. reflexivity.
Qed.

(** The [try] block of [get_table_schema] for a listed table. *)
Lemma get_table_schema_listed (table_name : str) (table : Table)
    (s : Session) :
  str_in table_name (map tbl_name (cat_tables (catalogue (committed s))))
  = true ->
  find_table table_name (cat_tables (catalogue (committed s))) = Some table ->
  get_table_schema table_name s =
    match for_each
            (column_info (cat_foreign_keys (catalogue (committed s)) table_name))
            (tbl_columns table) s with
    | (Ok columns_info, s') =>
        (Ok {| schema_table_name := table_name;
               schema_primary_keys := tbl_primary_key table;
               schema_required_columns :=
                 map col_name
                   (filter (fun column =>
                              negb (col_nullable column)
                              && negb (col_has_default column))
                      (tbl_columns table));
               schema_columns := columns_info |}, s')
    | (Raise (SQLAlchemyError message), s') =>
        (Raise (HTTPException 500 (lit "Ошибка базы данных: " ++ message)), s')
    | (Raise e, s') => (Raise e, s')
    end.
Proof.
  intros Hin Hfind.
  unfold get_table_schema, try_except, bind at 1, get_table_names.
  rewrite Hin. cbn [negb].
  unfold bind at 1, get_table_info, bind at 1, reflect. rewrite Hfind.
  unfold ret at 1. unfold bind at 1. rewrite Hfind.
  unfold bind at 1, get_foreign_keys. unfold bind at 1.
  destruct (for_each _ (tbl_columns table) s) as [[infos|e] s1];
    [reflexivity|].
  destruct e; reflexivity.
Qed.

End Schema.

(** * The properties on the small database *)

Lemma execute_sql_denies_restricted_witness :
  first_token (lit " drop table clients") = Some (lit "drop") /\
  @passed_to_database ascii_runtime toy_backend
    (lit " drop table clients") toy_session = false.
Proof.
  split; [reflexivity|].
  apply (@execute_sql_denies_restricted ascii_runtime toy_backend
           (lit " drop table clients") (lit "drop") toy_session);
    reflexivity.
Defined.

Lemma execute_sql_decision_by_first_token_witness :
  @passed_to_database ascii_runtime toy_backend
    (lit "select * from clients") toy_session
  = @passed_to_database ascii_runtime toy_backend
      (lit "  SELECT 1") toy_session.
Proof.
  apply (@execute_sql_decision_by_first_token ascii_runtime toy_backend
           (lit "select * from clients") (lit "  SELECT 1")
           (lit "select") (lit "SELECT") toy_session toy_session);
    reflexivity.
Defined.

Lemma execute_sql_empty_query_witness :
  all_space (lit "   ") = true /\
  fst (@execute_sql ascii_runtime toy_backend (lit "   ") toy_session)
  = Ok (SqlPage
          {| sql_tables := [lit "clients"; lit "payments"];
             sql_current_query := lit "custom_sql";
             sql_columns := [];
             sql_data := [];
             sql_query_text := [];
             sql_error := Some (lit "Запрос не может быть пустым");
             sql_success := None |}) /\
  all_space (lit " drop x") = false /\
  exists query_type,
    @query_type_of ascii_runtime (strip (lit " drop x")) = Some query_type.
Proof.
  split; [reflexivity|]. split.
  - rewrite (proj1 (@execute_sql_empty_query ascii_runtime toy_backend
                      (lit "   ") toy_session) eq_refl).
    reflexivity.
  - split; [reflexivity|].
    apply (proj2 (@execute_sql_empty_query ascii_runtime toy_backend
                    (lit " drop x") toy_session) eq_refl).
Defined.

Lemma show_tables_reads_listed_tables_only_witness :
  (forall name, Some (lit "nope") = Some name ->
                str_in name [lit "clients"; lit "payments"] = false) /\
  @show_tables ascii_runtime toy_backend (Some (lit "nope")) None None
    toy_session =
    (Ok (ViewPage {| view_tables := [lit "clients"; lit "payments"];
                     view_current_table := Some (lit "nope");
                     view_columns := [];
                     view_data := [];
                     view_primary_keys := [];
                     view_required_columns := [];
                     view_message := None;
                     view_message_type := None |}),
     toy_session).
Proof.
  assert (Hn : forall name, Some (lit "nope") = Some name ->
                 str_in name [lit "clients"; lit "payments"] = false).
  { intros name E. inversion E. reflexivity. }
  split; [exact Hn|].
  apply (proj1 (@show_tables_reads_listed_tables_only ascii_runtime
                  toy_backend (Some (lit "nope")) None None toy_session)).
  exact Hn.
Defined.

Lemma record_statements_bind_values_witness :
  (exists param,
     dict_get (lit "paid_on")
       [(lit "no", @PInt ascii_runtime 12); (lit "paid_on", PNone)]
     = Some param /\ bound_as [] param) /\
  dict_get (lit "id_pk")
    [(lit "phone", @PNone ascii_runtime); (lit "id_pk", PStr (lit "5"))]
  = Some (PStr (lit "5")) /\
  dict_get (lit "id") [(lit "id", @PStr ascii_runtime (lit "5"))]
  = Some (PStr (lit "5")).
Proof.
  split; [|split].
  - destruct (proj1 (@record_statements_bind_values ascii_runtime
                       toy_backend (lit "payments") add_form toy_session
                       (insert_statement (lit "payments")
                          [lit "no"; lit "paid_on"])
                       [(lit "no", PInt 12); (lit "paid_on", PNone)]))
      as [_ [_ Hb]].
    + left. reflexivity.
    + exact (Hb (lit "paid_on") [] eq_refl).
  - destruct (proj1 (proj2 (@record_statements_bind_values ascii_runtime
                       toy_backend (lit "clients") edit_form toy_session
                       (update_statement (lit "clients")
                          [lit "phone"] [lit "id"])
                       [(lit "phone", PNone);
                        (lit "id_pk", PStr (lit "5"))])))
      as [_ Hb].
    + left. reflexivity.
    + apply (Hb ltac:(intros key other Hk Hpk Ho Hno;
                      vm_compute in Hk, Ho;
                      destruct Hk as [Hk|[Hk|[]]]; subst key;
                      destruct Ho as [Ho|[Ho|[]]]; subst other;
                      try discriminate; vm_compute; discriminate)
                (lit "pk_id") (lit "5") eq_refl).
  - destruct (proj2 (proj2 (@record_statements_bind_values ascii_runtime
                       toy_backend (lit "clients") delete_form toy_session
                       (delete_statement_text (lit "clients") [lit "id"])
                       [(lit "id", PStr (lit "5"))])))
      as [_ [_ Hb]].
    + left. reflexivity.
    + apply (Hb (lit "pk_id") (lit "5") eq_refl eq_refl).
Defined.

(** C2, as stated, fails. [delete_record] leaves a field that is not a key
    out of its statement: the value [z] of the field [note] is carried by no
    parameter.  [edit_record] loses the value [a] of the field [x_pk] when
    the form also has the key field [pk_x]: the one parameter [x_pk] carries
    the key. *)
Lemma record_values_left_unbound :
  (exists statement params,
     In (Execute statement params)
        (new_calls toy_session
           (snd (@delete_record ascii_runtime toy_backend (lit "clients")
                   delete_form toy_session))) /\
     dict_get (lit "note") (@fields_of ascii_runtime delete_form)
     = Some (PStr (lit "z")) /\
     ~ @value_is_bound ascii_runtime (lit "z") params) /\
  (exists statement params,
     In (Execute statement params)
        (new_calls toy_session
           (snd (@edit_record ascii_runtime toy_backend (lit "clients")
                   (collision_form (lit "a")) toy_session))) /\
     dict_get (lit "x_pk")
       (@fields_of ascii_runtime (collision_form (lit "a")))
     = Some (PStr (lit "a")) /\
     ~ @value_is_bound ascii_runtime (lit "a") params).
Proof.
  split.
  - exists (delete_statement_text (lit "clients") [lit "id"]),
           [(lit "id", PStr (lit "5"))].
    split; [left; reflexivity|]. split; [reflexivity|].
    intros [name [param [Hget Hb]]]. cbn [dict_get] in Hget.
    destruct (str_eqb name (lit "id")); [|discriminate].
    inversion Hget. subst param. apply bound_as_str in Hb. discriminate.
  - exists (update_statement (lit "clients") [lit "x_pk"] [lit "x"]),
           [(lit "x_pk", PStr (lit "5"))].
    split; [left; reflexivity|]. split; [reflexivity|].
    intros [name [param [Hget Hb]]]. cbn [dict_get] in Hget.
    destruct (str_eqb name (lit "x_pk")); [|discriminate].
    inversion Hget. subst param. apply bound_as_str in Hb. discriminate.
Qed.

(** C4, at the input on which [edit_record] departs from it.  The form has
    the key field [pk_x] with the value [5] and the field [x_pk] with an
    empty value.  The statement sets [x_pk] from the parameter [x_pk], and
    that parameter carries the key [5], not [None]: the parameter of the key
    replaced the one of the field when the two dictionaries were merged. *)
Theorem edit_record_pk_suffix_collision :
  dict_get (lit "x_pk") (@fields_of ascii_runtime (collision_form []))
  = Some (PStr []) /\
  new_calls toy_session
    (snd (@edit_record ascii_runtime toy_backend (lit "clients")
            (collision_form []) toy_session))
  = [Execute (update_statement (lit "clients") [lit "x_pk"] [lit "x"])
       [(lit "x_pk", PStr (lit "5"))];
     Commit].
Proof. split; reflexivity. Qed.

(** * Further properties of the handlers *)

(** ** The SQL editor, continued *)

Section SqlEditorRuns.
Context `{Backend}.

Lemma one_of_error (message : str) :
  Some message = None <-> @None str <> None.
Proof. split; [discriminate|congruence]. Qed.

Lemma one_of_success (message : str) :
  @None str = None <-> Some message <> None.
Proof. split; [discriminate|reflexivity]. Qed.


End SqlEditorRuns.

(** ** The record handlers, continued *)

Section RecordRuns.
Context `{Backend}.

Lemma execute_commit_ok {A} (query : str) (params : dict pyval) (a : A)
    (s : Session) (rs : ResultSet) (d : DBState) :
  sql_run query params (working s) = inl (rs, d) ->
  sql_commit d = None ->
  (db_execute query params ;;; db_commit ;;; ret a) s =
    (Ok a, {| committed := d; working := d;
              calls := calls s ++ [Execute query params; Commit];
              closed := closed s |}).
Proof.
  intros Hrun Hcommit. unfold bind, db_execute, db_commit, record_call, ret.
  cbv zeta. cbn [committed working calls closed]. rewrite Hrun.
  cbn [committed working calls closed]. rewrite Hcommit.
  rewrite <- app_assoc. reflexivity.
Qed.

Lemma try_except_ok {A} (body : M A) (handler : exc -> option (M A))
    (s s1 : Session) (a : A) :
  body s = (Ok a, s1) -> try_except body handler s = (Ok a, s1).
Proof. intros E. unfold try_except. rewrite E. reflexivity. Qed.

Lemma try_except_pass {A} (body : M A) (handler : exc -> option (M A))
    (s s1 : Session) (e : exc) :
  body s = (Raise e, s1) -> handler e = None ->
  try_except body handler s = (Raise e, s1).
Proof. intros E Hh. unfold try_except. rewrite E, Hh. reflexivity. Qed.

Lemma add_record_try_listed (table_name : str) (form_data : list (str * str))
    (s : Session) (table : Table) :
  dict_has (lit "table_name") (form_dict_of form_data) = true ->
  find_table table_name (cat_tables (catalogue (committed s))) = Some table ->
  str_in table_name (map tbl_name (cat_tables (catalogue (committed s))))
  = true ->
  add_record_try table_name form_data s =
    ('(query, form_dict) <-
       lift (add_statement table_name table (fields_of form_data)) ;;
     db_execute query form_dict ;;;
     db_commit ;;;
     ret (RedirectResponse
            (view_url table_name (lit "Запись успешно добавлена")
               (lit "success"))
            303)) s.
Proof.
  intros Hhas Hfind Hin. unfold add_record_try, dict_del. rewrite Hhas.
  cbn [or_raise]. unfold bind at 1, ret at 1.
  unfold bind at 1, get_table_names. rewrite Hin. cbn [negb].
  unfold bind at 1, reflect. unfold bind at 1. rewrite Hfind.
  reflexivity.
Qed.

Lemma edit_record_try_listed (table_name : str) (form_data : list (str * str))
    (s : Session) :
  dict_has (lit "table_name") (form_dict_of form_data) = true ->
  str_in table_name (map tbl_name (cat_tables (catalogue (committed s))))
  = true ->
  edit_record_try table_name form_data s =
    (let '(query, query_params) :=
       edit_statement table_name (fields_of form_data) in
     db_execute query query_params ;;;
     db_commit ;;;
     ret (RedirectResponse
            (view_url table_name (lit "Запись успешно обновлена")
               (lit "success"))
            303)) s.
Proof.
  intros Hhas Hin. unfold edit_record_try, dict_del. rewrite Hhas.
  cbn [or_raise]. unfold bind at 1, ret at 1.
  unfold bind at 1, get_table_names. rewrite Hin. reflexivity.
Qed.

Lemma delete_record_try_listed (table_name : str)
    (form_data : list (str * str)) (s : Session) :
  dict_has (lit "table_name") (form_dict_of form_data) = true ->
  str_in table_name (map tbl_name (cat_tables (catalogue (committed s))))
  = true ->
  delete_record_try table_name form_data s =
    (let '(query, query_params) :=
       delete_statement table_name (fields_of form_data) in
     db_execute query query_params ;;;
     db_commit ;;;
     ret (RedirectResponse
            (view_url table_name (lit "Запись успешно удалена")
               (lit "success"))
            303)) s.
Proof.
  intros Hhas Hin. unfold delete_record_try, dict_del. rewrite Hhas.
  cbn [or_raise]. unfold bind at 1, ret at 1.
  unfold bind at 1, get_table_names. rewrite Hin. reflexivity.
Qed.

(** X4. A record handler asked for a table that [get_table_names] does not
    list raises the HTTP error 404 inside its [try] block, before it builds
    any statement: the clause [except SQLAlchemyError] does not match the
    exception, which leaves the handler, and no call is made on the
    session. *)
Theorem record_handlers_reject_unknown_table
    (table_name : str) (form_data : list (str * str)) (s : Session) :
  dict_has (lit "table_name") (form_dict_of form_data) = true ->
  str_in table_name (map tbl_name (cat_tables (catalogue (committed s))))
  = false ->
  let not_found :=
    Raise (HTTPException 404
             (lit "Таблица " ++ table_name ++ lit " не найдена")) in
  add_record table_name form_data s = (not_found, s) /\
  edit_record table_name form_data s = (not_found, s) /\
  delete_record table_name form_data s = (not_found, s).
Proof.
  intros Hhas Hin not_found. repeat split.
  - unfold add_record. apply try_except_pass; [|reflexivity].
    unfold add_record_try, dict_del. rewrite Hhas. cbn [or_raise].
    unfold bind at 1, ret at 1. unfold bind at 1, get_table_names.
    rewrite Hin. reflexivity.
  - unfold edit_record. apply try_except_pass; [|reflexivity].
    unfold edit_record_try, dict_del. rewrite Hhas. cbn [or_raise].
    unfold bind at 1, ret at 1. unfold bind at 1, get_table_names.
    rewrite Hin. reflexivity.
  - unfold delete_record. apply try_except_pass; [|reflexivity].
    unfold delete_record_try, dict_del. rewrite Hhas. cbn [or_raise].
    unfold bind at 1, ret at 1. unfold bind at 1, get_table_names.
    rewrite Hin. reflexivity.
Qed.

(** X5. When the database runs the statement of a record handler and the
    commit goes through, the handler has made exactly the calls [execute]
    and [commit], the database holds the data that the statement produced,
    and the answer is the redirect 303 to the view of the table with the
    success message of the handler. *)
Theorem record_handlers_commit_on_success
    (table_name : str) (form_data : list (str * str)) (s : Session)
    (query : str) (params : dict pyval) (rs : ResultSet) (d : DBState) :
  dict_has (lit "table_name") (form_dict_of form_data) = true ->
  str_in table_name (map tbl_name (cat_tables (catalogue (committed s))))
  = true ->
  sql_run query params (working s) = inl (rs, d) ->
  sql_commit d = None ->
  let after :=
    {| committed := d; working := d;
       calls := calls s ++ [Execute query params; Commit];
       closed := closed s |} in
  (forall table,
     find_table table_name (cat_tables (catalogue (committed s)))
     = Some table ->
     add_statement table_name table (fields_of form_data)
     = Ok (query, params) ->
     add_record table_name form_data s =
       (Ok (RedirectResponse
              (view_url table_name (lit "Запись успешно добавлена")
                 (lit "success")) 303), after)) /\
  (edit_statement table_name (fields_of form_data) = (query, params) ->
   edit_record table_name form_data s =
     (Ok (RedirectResponse
            (view_url table_name (lit "Запись успешно обновлена")
               (lit "success")) 303), after)) /\
  (delete_statement table_name (fields_of form_data) = (query, params) ->
   delete_record table_name form_data s =
     (Ok (RedirectResponse
            (view_url table_name (lit "Запись успешно удалена")
               (lit "success")) 303), after)).
Proof.
  intros Hhas Hin Hrun Hcommit after. repeat split.
  - intros table Hfind Ea. unfold add_record. apply try_except_ok.
    rewrite (add_record_try_listed _ _ _ table Hhas Hfind Hin).
    unfold bind at 1, lift. rewrite Ea.
    apply (execute_commit_ok _ _ _ _ rs d Hrun Hcommit).
  - intros Ee. unfold edit_record. apply try_except_ok.
    rewrite (edit_record_try_listed _ _ _ Hhas Hin), Ee.
    apply (execute_commit_ok _ _ _ _ rs d Hrun Hcommit).
  - intros Ed. unfold delete_record. apply try_except_ok.
    rewrite (delete_record_try_listed _ _ _ Hhas Hin), Ed.
    apply (execute_commit_ok _ _ _ _ rs d Hrun Hcommit).
Qed.

End RecordRuns.

(** ** The column loop of [add_record] *)

Section ColumnLoop.
Context `{PyRuntime}.

Lemma convert_column_other (column : Column) (fd fd' : dict pyval)
    (key : str) :
  convert_column column fd = Ok fd' ->
  key <> col_name column ->
  dict_get key fd' = dict_get key fd.
Proof.
  intros E Hk. unfold convert_column in E.
  destruct (dict_get (col_name column) fd) as [[|value| | | | |]|];
    try (inversion E; reflexivity).
  destruct (is_empty value && col_nullable column).
  { inversion E. apply dict_get_set_neq, Hk. }
  destruct (col_type column); destruct value as [|c value];
    try (inversion E; reflexivity).
  - destruct (date_fromisoformat (c :: value)); inversion E.
    apply dict_get_set_neq, Hk.
  - destruct (datetime_fromisoformat (c :: value)); inversion E.
    apply dict_get_set_neq, Hk.
  - destruct (int_of_str (c :: value)); inversion E.
    apply dict_get_set_neq, Hk.
  - destruct (float_of_str (c :: value)); inversion E.
    apply dict_get_set_neq, Hk.
Qed.

Lemma convert_column_absent (column : Column) (fd fd' : dict pyval) :
  convert_column column fd = Ok fd' ->
  dict_get (col_name column) fd = None ->
  fd' = fd.
Proof.
  intros E Hn. unfold convert_column in E. rewrite Hn in E.
  inversion E. reflexivity.
Qed.

Lemma dict_get_set_same {V} (k : str) (v : V) (d : dict V) :
  dict_get k d = Some v -> dict_get k (dict_set k v d) = Some v.
Proof. intros _. apply dict_get_set_eq. Qed.

Lemma convert_column_own (column : Column) (fd fd' : dict pyval)
    (value : str) :
  convert_column column fd = Ok fd' ->
  dict_get (col_name column) fd = Some (PStr value) ->
  exists param,
    converted column value = Ok param /\
    dict_get (col_name column) fd' = Some param.
Proof.
  intros E Hget. unfold convert_column in E. rewrite Hget in E.
  unfold converted.
  destruct value as [|c value]; cbn [is_empty andb] in E.
  - destruct (col_nullable column).
    + inversion E. exists PNone. split; [reflexivity|apply dict_get_set_eq].
    + exists (PStr []). split; [reflexivity|].
      destruct (col_type column); inversion E; subst; exact Hget.
  - destruct (col_type column).
    + destruct (date_fromisoformat (c :: value)); inversion E.
      eexists. split; [reflexivity|apply dict_get_set_eq].
    + destruct (datetime_fromisoformat (c :: value)); inversion E.
      eexists. split; [reflexivity|apply dict_get_set_eq].
    + destruct (int_of_str (c :: value)); inversion E.
      eexists. split; [reflexivity|apply dict_get_set_eq].
    + destruct (float_of_str (c :: value)); inversion E.
      eexists. split; [reflexivity|apply dict_get_set_eq].
    + inversion E. subst. eexists. split; [reflexivity|exact Hget].
Qed.

Lemma convert_column_raises (column : Column) (fd : dict pyval) (e : exc) :
  convert_column column fd = Raise e ->
  exists value,
    dict_get (col_name column) fd = Some (PStr value) /\
    converted column value = Raise e.
Proof.
  intros E. unfold convert_column in E.
  destruct (dict_get (col_name column) fd) as [[|value| | | | |]|];
    try discriminate.
  exists value. split; [reflexivity|]. unfold converted.
  destruct value as [|c value]; cbn [is_empty andb] in E.
  - destruct (col_nullable column); [discriminate|].
    destruct (col_type column); discriminate.
  - destruct (col_type column).
    + destruct (date_fromisoformat (c :: value)); [discriminate|].
      inversion E. reflexivity.
    + destruct (datetime_fromisoformat (c :: value)); [discriminate|].
      inversion E. reflexivity.
    + destruct (int_of_str (c :: value)); [discriminate|].
      inversion E. reflexivity.
    + destruct (float_of_str (c :: value)); [discriminate|].
      inversion E. reflexivity.
    + discriminate.
Qed.

Lemma find_column_app (key : str) (a b : list Column) :
  find_column key (a ++ b)
  = match find_column key a with
    | Some column => Some column
    | None => find_column key b
    end.
Proof.
  induction a as [|c a IH]; simpl; [reflexivity|].
  destruct (str_eqb key (col_name c)); [reflexivity|exact IH].
Qed.

Lemma find_column_in (key : str) (columns : list Column) (column : Column) :
  find_column key columns = Some column ->
  In key (map col_name columns).
Proof.
  induction columns as [|c columns IH]; simpl; [discriminate|].
  destruct (str_eqb key (col_name c)) eqn:E.
  - apply str_eqb_eq in E. auto.
  - auto.
Qed.

(** What the loop has done to a form once it has gone through the columns
    [done]. *)
Lemma convert_columns_from (rest done : list Column)
    (form fd params : dict pyval) :
  NoDup (map col_name (done ++ rest)) ->
  (forall key,
     match dict_get key form with
     | Some (PStr value) =>
         match find_column key done with
         | Some column =>
             exists param,
               converted column value = Ok param /\
               dict_get key fd = Some param
         | None => dict_get key fd = Some (PStr value)
         end
     | Some _ => True
     | None => dict_get key fd = None
     end) ->
  convert_columns rest fd = Ok params ->
  forall key,
    match dict_get key form with
    | Some (PStr value) =>
        match find_column key (done ++ rest) with
        | Some column =>
            exists param,
              converted column value = Ok param /\
              dict_get key params = Some param
        | None => dict_get key params = Some (PStr value)
        end
    | Some _ => True
    | None => dict_get key params = None
    end.
Proof.
  revert done fd. induction rest as [|c rest IH]; intros done fd Hd Hinv E.
  - inversion E. subst. rewrite app_nil_r. exact Hinv.
  - cbn [convert_columns] in E.
    destruct (convert_column c fd) as [fd1|e] eqn:Ec; [|discriminate].
    replace (done ++ c :: rest) with ((done ++ [c]) ++ rest) in *
      by (rewrite <- app_assoc; reflexivity).
    apply (IH (done ++ [c]) fd1 Hd); [|exact E].
    assert (Hfresh : ~ In (col_name c) (map col_name done)).
    { rewrite map_app, map_app in Hd. cbn [map] in Hd.
      rewrite <- app_assoc in Hd. cbn [app] in Hd.
      apply NoDup_remove_2 in Hd. intros Hin. apply Hd.
      apply in_or_app. left. exact Hin. }
    intros key. specialize (Hinv key). rewrite find_column_app.
    destruct (str_eqb key (col_name c)) eqn:Ek.
    + apply str_eqb_eq in Ek. subst key.
      destruct (find_column (col_name c) done) as [col|] eqn:Ef.
      { exfalso. apply Hfresh. apply (find_column_in _ _ _ Ef). }
      cbn [find_column]. rewrite str_eqb_refl.
      destruct (dict_get (col_name c) form) as [[|value| | | | |]|];
        try exact I.
      * apply (convert_column_own c fd fd1 value Ec Hinv).
      * rewrite (convert_column_absent c fd fd1 Ec Hinv). exact Hinv.
    + assert (Hk : key <> col_name c) by (apply str_eqb_neq, Ek).
      rewrite (convert_column_other c fd fd1 key Ec Hk).
      cbn [find_column]. rewrite Ek.
      destruct (dict_get key form) as [[|value| | | | |]|]; try exact I.
      * destruct (find_column key done); exact Hinv.
      * exact Hinv.
Qed.

Lemma fields_of_all_strings (form_data : list (str * str)) :
  all_strings (fields_of form_data).
Proof.
  intros key v. rewrite fields_of_map, dict_get_map.
  destruct (dict_get key _) as [value|]; simpl; [|discriminate].
  intros E. inversion E. eauto.
Qed.

Lemma convert_columns_raises (columns : list Column)
    (form fd : dict pyval) (e : exc) :
  all_strings form -> binds_form form fd ->
  convert_columns columns fd = Raise e ->
  exists column value,
    In column columns /\
    dict_get (col_name column) form = Some (PStr value) /\
    converted column value = Raise e.
Proof.
  intros Hall. revert fd. induction columns as [|c columns IH]; intros fd Hb.
  - discriminate.
  - cbn [convert_columns].
    destruct (convert_column c fd) as [fd1|e1] eqn:Ec.
    + intros E.
      destruct (IH fd1 (convert_column_binds c form fd fd1 Hb Ec) E)
        as [column [value [Hin Hrest]]].
      exists column, value. split; [right; exact Hin|exact Hrest].
    + intros E. inversion E. subst e1.
      destruct (convert_column_raises c fd e Ec) as [value [Hget Hconv]].
      exists c, value. split; [left; reflexivity|]. split; [|exact Hconv].
      destruct Hb as [Hkeys Hb].
      assert (Hhas : dict_has (col_name c) form = true).
      { apply dict_has_keys. rewrite <- Hkeys. apply dict_has_keys.
        unfold dict_has. rewrite Hget. reflexivity. }
      unfold dict_has in Hhas.
      destruct (dict_get (col_name c) form) as [v|] eqn:Ef; [|discriminate].
      destruct (Hall _ _ Ef) as [value0 Ev]. subst v.
      destruct (Hb _ _ Ef) as [param [Hp Hbound]].
      rewrite Hget in Hp. inversion Hp. subst param.
      apply bound_as_str in Hbound. subst. reflexivity.
Qed.

End ColumnLoop.

Section AddRecord.
Context `{Backend}.

Lemma find_table_is_listed (name : str) (ts : list Table) (table : Table) :
  find_table name ts = Some table -> str_in name (map tbl_name ts) = true.
Proof.
  induction ts as [|t ts IH]; simpl; [discriminate|].
  destruct (str_eqb name (tbl_name t)); simpl; auto.
Qed.

Lemma converted_raises_400 (column : Column) (value : str) (e : exc) :
  converted column value = Raise e ->
  value <> [] /\ exists detail, e = HTTPException 400 detail.
Proof.
  unfold converted. destruct value as [|c value].
  - destruct (col_nullable column); discriminate.
  - intros E. split; [discriminate|]. unfold bad_request in E.
    destruct (col_type column).
    + destruct (date_fromisoformat (c :: value)); inversion E. eauto.
    + destruct (datetime_fromisoformat (c :: value)); inversion E. eauto.
    + destruct (int_of_str (c :: value)); inversion E. eauto.
    + destruct (float_of_str (c :: value)); inversion E. eauto.
    + discriminate.
Qed.

(** X6. What [add_record] binds, field by field, for a table whose columns
    have distinct names: a field that names no column of the table is bound
    to the submitted string; a field that names a column is bound to [None]
    when it is empty and the column is nullable, to the empty string when it
    is empty and the column is not nullable, and otherwise to the date, the
    number or the string that the type of the column asks for. *)
Theorem add_record_converts_each_field
    (table_name : str) (form_data : list (str * str)) (table : Table)
    (statement : str) (params : dict pyval) (key value : str) :
  NoDup (map col_name (tbl_columns table)) ->
  add_statement table_name table (fields_of form_data)
  = Ok (statement, params) ->
  dict_get key (fields_of form_data) = Some (PStr value) ->
  match find_column key (tbl_columns table) with
  | Some column =>
      exists param,
        converted column value = Ok param /\
        dict_get key params = Some param
  | None => dict_get key params = Some (PStr value)
  end.
Proof.
  intros Hd Ea Hget. unfold add_statement in Ea.
  destruct (convert_columns (tbl_columns table) (fields_of form_data))
    as [params'|e] eqn:E; [|discriminate].
  inversion Ea. subst.
  pose proof (convert_columns_from (tbl_columns table) []
                (fields_of form_data) (fields_of form_data) params Hd)
    as Hspec.
  cbn [app] in Hspec.
  assert (Hbase : forall key0,
             match dict_get key0 (fields_of form_data) with
             | Some (PStr value0) =>
                 match find_column key0 [] with
                 | Some column =>
                     exists param,
                       converted column value0 = Ok param /\
                       dict_get key0 (fields_of form_data) = Some param
                 | None =>
                     dict_get key0 (fields_of form_data)
                     = Some (PStr value0)
                 end
             | Some _ => True
             | None => dict_get key0 (fields_of form_data) = None
             end).
  { intros key0.
    destruct (dict_get key0 (fields_of form_data)) as [[|v| | | | |]|];
      cbn [find_column]; auto. }
  specialize (Hspec Hbase E key). rewrite Hget in Hspec. exact Hspec.
Qed.

(** X7. [add_record] checks the values before it touches the database: when
    a field that names a column of the table holds a non-empty value that
    the parser for the type of the column refuses, the handler raises the
    HTTP error 400, the exception is not caught, and no call is made on the
    session. *)
Theorem add_record_rejects_unreadable_values
    (table_name : str) (form_data : list (str * str)) (s : Session)
    (table : Table) (e : exc) :
  dict_has (lit "table_name") (form_dict_of form_data) = true ->
  find_table table_name (cat_tables (catalogue (committed s))) = Some table ->
  add_statement table_name table (fields_of form_data) = Raise e ->
  add_record table_name form_data s = (Raise e, s) /\
  (exists detail, e = HTTPException 400 detail) /\
  exists column value,
    In column (tbl_columns table) /\
    dict_get (col_name column) (fields_of form_data) = Some (PStr value) /\
    value <> [] /\
    converted column value = Raise e.
Proof.
  intros Hhas Hfind Ea.
  assert (Hconv : exists column value,
             In column (tbl_columns table) /\
             dict_get (col_name column) (fields_of form_data)
             = Some (PStr value) /\
             converted column value = Raise e).
  { unfold add_statement in Ea.
    destruct (convert_columns (tbl_columns table) (fields_of form_data))
      as [params|e1] eqn:E; [discriminate|].
    inversion Ea. subst e1.
    apply (convert_columns_raises _ _ _ _
             (fields_of_all_strings form_data)
             (binds_form_refl (fields_of form_data)) E). }
  destruct Hconv as [column [value [Hin [Hget Hc]]]].
  destruct (converted_raises_400 _ _ _ Hc) as [Hne [detail Ee]].
  split; [|split; [eauto|]].
  - unfold add_record. apply try_except_pass.
    + rewrite (add_record_try_listed _ _ _ table Hhas Hfind
                 (find_table_is_listed _ _ _ Hfind)).
      unfold bind at 1, lift. rewrite Ea. reflexivity.
    + subst e. reflexivity.
  - exists column, value. auto.
Qed.

End AddRecord.

(** ** Handlers that only read *)

Section ReadOnly.
Context `{Backend}.

Lemma read_only_pure {A} (P : exc -> Prop) (m : M A) :
  pure_raising P m -> read_only m.
Proof.
  intros Hm s. rewrite (pure_state P m s Hm). repeat split.
  exists []. rewrite app_nil_r. split; [reflexivity|constructor].
Qed.

Lemma read_only_bind {A B} (m : M A) (k : A -> M B) :
  read_only m -> (forall a, read_only (k a)) -> read_only (bind m k).
Proof.
  intros Hm Hk s. unfold bind.
  destruct (Hm s) as [Hc [Hcl [added [Ha Hf]]]].
  destruct (m s) as [[a|e] s1]; cbn [snd] in *.
  - destruct (Hk a s1) as [Hc' [Hcl' [added' [Ha' Hf']]]].
    rewrite Hc', Hcl', Hc, Hcl. repeat split.
    exists (added ++ added'). rewrite Ha', Ha, app_assoc.
    split; [reflexivity|]. apply Forall_app. split; assumption.
  - repeat split; try assumption. exists added. split; assumption.
Qed.

Lemma read_only_execute (statement : str) (params : dict pyval) :
  read_only (db_execute statement params).
Proof.
  intros s. unfold db_execute, record_call. cbv zeta.
  cbn [committed working calls closed].
  destruct (sql_run statement params (working s)) as [[rs d]|m];
    cbn [snd committed calls closed]; repeat split;
    exists [Execute statement params]; (split; [reflexivity|]);
    constructor; eauto.
Qed.

Lemma read_only_for_each {A B} (f : A -> M B) (l : list A) :
  (forall a, read_only (f a)) -> read_only (for_each f l).
Proof.
  intros Hf. induction l as [|a l IH]; cbn [for_each].
  - apply (read_only_pure (fun _ => False)), pure_ret.
  - apply read_only_bind; [apply Hf|]. intros b.
    apply read_only_bind; [exact IH|]. intros bs.
    apply (read_only_pure (fun _ => False)), pure_ret.
Qed.

Lemma read_only_try {A} (P : exc -> Prop) (body : M A)
    (handler : exc -> option (M A)) :
  read_only body ->
  (forall e h, handler e = Some h -> pure_raising P h) ->
  read_only (try_except body handler).
Proof.
  intros Hb Hh s. unfold try_except. specialize (Hb s).
  destruct (body s) as [[a|e] s1]; cbn [snd] in *; [exact Hb|].
  destruct (handler e) as [h|] eqn:Eh; [|exact Hb].
  rewrite (pure_state P h s1 (Hh e h Eh)). exact Hb.
Qed.

Lemma read_only_get_table_data (table_name : str) :
  read_only (get_table_data table_name).
Proof.
  unfold get_table_data. apply read_only_bind; [apply read_only_execute|].
  intros result. apply (read_only_pure (fun e => e = IndexError)).
  apply pure_bind; [apply pure_rows_as_dicts|]. intros data. apply pure_ret.
Qed.

Lemma read_only_execute_custom_query (query : str) :
  read_only (execute_custom_query query).
Proof.
  unfold execute_custom_query.
  apply read_only_bind; [apply read_only_execute|].
  intros result. apply (read_only_pure (fun e => e = IndexError)).
  apply pure_bind; [apply pure_rows_as_dicts|]. intros data. apply pure_ret.
Qed.

Lemma read_only_show_tables (table_name message message_type : option str) :
  read_only (show_tables table_name message message_type).
Proof.
  unfold show_tables.
  apply read_only_bind;
    [apply (read_only_pure (fun _ => True)), pure_get_table_names|].
  intros tables. apply read_only_bind.
  - destruct table_name as [name|];
      [|apply (read_only_pure (fun _ => True)), pure_ret].
    destruct (truthy (Some name) && str_in name tables);
      [|apply (read_only_pure (fun _ => True)), pure_ret].
    apply read_only_bind; [apply read_only_get_table_data|].
    intros [columns data]. apply (read_only_pure (fun _ => True)).
    destruct (truthy (Some name)); [|apply pure_ret].
    apply pure_bind; [apply pure_get_table_info|]. intros info.
    apply pure_ret.
  - intros [[[columns data] pks] required].
    apply (read_only_pure (fun _ => True)), pure_ret.
Qed.

Lemma read_only_report (r : report) : read_only (report_handler r).
Proof.
  intros s. rewrite run_report. revert s.
  apply read_only_bind; [apply read_only_execute_custom_query|].
  intros [columns data]. apply (read_only_pure (fun _ => True)).
  apply pure_bind; [apply pure_get_table_names|]. intros tables.
  apply pure_ret.
Qed.

Lemma read_only_foreign_key_lookup (name : str) (fks : list ForeignKey) :
  read_only (foreign_key_lookup name fks).
Proof.
  induction fks as [|fk fks IH]; cbn [foreign_key_lookup].
  - apply (read_only_pure (fun _ => True)), pure_ret.
  - destruct (str_in name (constrained_columns fk)); [|exact IH].
    apply read_only_bind.
    { apply (read_only_pure (fun _ => True)), pure_or_raise. exact I. }
    intros target. apply read_only_bind; [apply read_only_execute|].
    intros result. apply (read_only_pure (fun _ => True)).
    apply pure_bind.
    + apply pure_for_each. intros row. apply pure_or_raise. exact I.
    + intros values. apply pure_ret.
Qed.

Lemma read_only_get_table_schema (table_name : str) :
  read_only (get_table_schema table_name).
Proof.
  unfold get_table_schema. apply (read_only_try (fun _ => True)).
  - apply read_only_bind;
      [apply (read_only_pure (fun _ => True)), pure_get_table_names|].
    intros tables. destruct (negb (str_in table_name tables)).
    { apply (read_only_pure (fun _ => True)), pure_raise. exact I. }
    apply read_only_bind;
      [apply (read_only_pure (fun _ => True)), pure_get_table_info|].
    intros info. apply read_only_bind;
      [apply (read_only_pure (fun _ => True)), pure_reflect|].
    intros metadata. destruct (find_table table_name metadata) as [table|].
    2:{ apply (read_only_pure (fun _ => True)), pure_raise. exact I. }
    apply read_only_bind.
    { apply (read_only_pure (fun _ => True)). intros s. eexists.
      split; [reflexivity|discriminate]. }
    intros fks. apply read_only_bind.
    + apply read_only_for_each. intros column. unfold column_info.
      apply read_only_bind; [apply read_only_foreign_key_lookup|].
      intros [is_fk info']. apply (read_only_pure (fun _ => True)), pure_ret.
    + intros infos. apply (read_only_pure (fun _ => True)), pure_ret.
  - intros e h Eh. destruct e; inversion Eh. apply pure_raise. exact I.
Qed.

(** X8. The table view, the five reports and the schema endpoint only read:
    whatever the request and whatever the database answers, they call
    nothing but [execute] on the session, never [commit], [rollback] or
    [close], and the database holds afterwards what it held before; so
    after the scope of such a request has ended the database still holds
    the data that the session was opened on. *)
Theorem reading_endpoints_never_commit :
  (forall table_name message message_type,
     read_only (show_tables table_name message message_type)) /\
  (forall r, read_only (report_handler r)) /\
  (forall table_name, read_only (get_table_schema table_name)) /\
  (forall A (handler : M A) d,
     read_only handler ->
     committed (snd (request_scope handler d)) = d /\
     working (snd (request_scope handler d)) = d).
Proof.
  split; [exact read_only_show_tables|].
  split; [exact read_only_report|].
  split; [exact read_only_get_table_schema|].
  intros A handler d Hr.
  assert (E : request_scope handler d
              = (fst (handler (SessionLocal d)),
                 db_close (snd (handler (SessionLocal d))))).
  { unfold request_scope. cbn [get_db yielded continue].
    unfold cm_enter. cbn [DatabaseManager_get_db yielded].
    destruct (handler (SessionLocal d)) as [[a|e] s]; reflexivity. }
  rewrite E. cbn [snd]. unfold db_close, record_call. cbv zeta.
  cbn [committed working]. destruct (Hr (SessionLocal d)) as [Hc _].
  rewrite Hc. split; reflexivity.
Qed.

End ReadOnly.

(** ** JSON-safe rows *)

Section JsonRows.
Context `{Backend}.

Lemma json_safe_native (value : pyval) : json_native (json_safe value) = true.
Proof. destruct value; reflexivity. Qed.

Lemma json_safe_id (value : pyval) :
  json_native value = true -> json_safe value = value.
Proof. destruct value; try reflexivity; discriminate. Qed.

Lemma forall_dict_set {V} (P : str * V -> Prop) (k : str) (v : V)
    (d : dict V) :
  (forall k', P (k', v)) -> Forall P d -> Forall P (dict_set k v d).
Proof.
  intros Hv Hd. induction Hd as [|[k' v'] d Hx Hd IH]; simpl.
  - constructor; [apply Hv|constructor].
  - destruct (str_eqb k k'); constructor; auto.
Qed.

Lemma json_row_set (key : str) (value : pyval) (row : Row) :
  json_native value = true -> json_row row ->
  json_row (dict_set key value row).
Proof.
  intros Hv [Hk Hn]. split; [apply nodup_keys_set, Hk|].
  apply forall_dict_set; [intros k'; exact Hv|exact Hn].
Qed.

Lemma fill_row_json (columns : list str) (i : nat) (row : list pyval)
    (row_dict filled : Row) (s s' : Session) :
  json_row row_dict ->
  fill_row columns i row row_dict s = (Ok filled, s') ->
  json_row filled.
Proof.
  revert i row_dict. induction columns as [|c columns IH]; intros i d Hd.
  - intros E. inversion E. subst. exact Hd.
  - cbn [fill_row]. unfold bind at 1.
    destruct (nth_error row i) as [value|]; [|discriminate].
    cbn [or_raise]. unfold ret at 1. cbv beta iota.
    apply IH. apply json_row_set; [apply json_safe_native|exact Hd].
Qed.

Lemma rows_as_dicts_json (columns : list str) (rows : list (list pyval))
    (data : list Row) (s s' : Session) :
  rows_as_dicts columns rows s = (Ok data, s') -> Forall json_row data.
Proof.
  intros E. apply for_each_ok in E.
  induction E as [|row filled rows data [s1 [s2 Hf]] _ IH]; constructor.
  - apply (fill_row_json columns 0 row [] filled s1 s2); [|exact Hf].
    split; constructor.
  - exact IH.
Qed.

Lemma safe_row_from (l acc : Row) :
  NoDup (dict_keys (acc ++ l)) ->
  fold_left
    (fun safe_row '(key, value) => dict_set key (json_safe value) safe_row)
    l acc
  = acc ++ dict_map json_safe l.
Proof.
  revert acc. induction l as [|[k v] l IH]; intros acc Hd.
  - simpl. rewrite app_nil_r. reflexivity.
  - pose proof (nodup_app_head _ _ _ _ Hd) as Hn. cbn [fold_left].
    rewrite dict_set_new_app by (apply dict_has_false, Hn).
    rewrite IH.
    + rewrite <- app_assoc. reflexivity.
    + unfold dict_keys in *. rewrite !map_app in *. cbn [map fst] in *.
      rewrite <- app_assoc. exact Hd.
Qed.

Lemma safe_row_spec (row : Row) :
  NoDup (dict_keys row) -> safe_row row = dict_map json_safe row.
Proof. intros Hd. apply (safe_row_from row [] Hd). Qed.

Lemma dict_map_json_native (row : Row) :
  Forall (fun kv => json_native (snd kv) = true) row ->
  dict_map json_safe row = row.
Proof.
  induction 1 as [|[k v] row Hv _ IH]; [reflexivity|].
  unfold dict_map in *. cbn [map fst snd]. rewrite IH.
  simpl in Hv. rewrite (json_safe_id v Hv). reflexivity.
Qed.

(** X9. Every row dictionary that [get_table_data] and
    [execute_custom_query] return is JSON-safe: no key occurs twice and no
    value is a date, a datetime or a Decimal any more.  Hence the template
    filter [safe_json] has nothing left to convert in such a row: it
    serializes the row as it is, or gives ["{}"] for a row without
    columns. *)
Theorem fetched_rows_are_json_safe (s s' : Session) (columns : list str)
    (data : list Row) (json_dumps : Row -> str) :
  (forall table_name,
     get_table_data table_name s = (Ok (columns, data), s') ->
     Forall json_row data) /\
  (forall query,
     execute_custom_query query s = (Ok (columns, data), s') ->
     Forall json_row data) /\
  (forall row,
     json_row row ->
     safe_jsonify json_dumps (Some row)
     = match row with [] => lit "{}" | _ => json_dumps row end).
Proof.
  split; [|split].
  - intros table_name. unfold get_table_data, bind.
    destruct (db_execute _ [] s) as [[rs|e] s1]; [|discriminate].
    destruct (rows_as_dicts (rs_keys rs) (rs_rows rs) s1)
      as [[data'|e] s2] eqn:E; [|discriminate].
    intros E'. inversion E'. subst.
    apply (rows_as_dicts_json _ _ _ _ _ E).
  - intros query. unfold execute_custom_query, bind.
    destruct (db_execute query [] s) as [[rs|e] s1]; [|discriminate].
    destruct (rows_as_dicts (rs_keys rs) (rs_rows rs) s1)
      as [[data'|e] s2] eqn:E; [|discriminate].
    intros E'. inversion E'. subst.
    apply (rows_as_dicts_json _ _ _ _ _ E).
  - intros row [Hk Hn]. unfold safe_jsonify.
    destruct row as [|kv row]; [reflexivity|].
    rewrite (safe_row_spec _ Hk), (dict_map_json_native _ Hn). reflexivity.
Qed.

(** X10. [safe_jsonify] gives ["{}"] for no row and for an empty row, and
    otherwise serializes a dictionary with the keys of the row in the same
    order, in which every date and datetime has become its ISO text and
    every Decimal a float, the other values being kept. *)
Theorem safe_jsonify_converts_values (json_dumps : Row -> str) (row : Row) :
  NoDup (dict_keys row) ->
  safe_jsonify json_dumps None = lit "{}" /\
  safe_jsonify json_dumps (Some row)
  = match row with
    | [] => lit "{}"
    | _ => json_dumps (dict_map json_safe row)
    end /\
  dict_keys (dict_map json_safe row) = dict_keys row /\
  json_row (dict_map json_safe row).
Proof.
  intros Hk. split; [reflexivity|]. split; [|split].
  - unfold safe_jsonify. destruct row as [|kv row]; [reflexivity|].
    rewrite (safe_row_spec _ Hk). reflexivity.
  - apply dict_keys_map.
  - split; [rewrite dict_keys_map; exact Hk|].
    clear Hk. induction row as [|[k v] row IH]; constructor.
    + apply json_safe_native.
    + exact IH.
Qed.

End JsonRows.

(** ** Fetched tables *)

Section FetchedTables.
Context `{Backend}.

Lemma skipn_nth_error {A} (l : list A) (i : nat) (x : A) :
  nth_error l i = Some x -> skipn i l = x :: skipn (S i) l.
Proof.
  revert i. induction l as [|y l IH]; intros [|i]; simpl;
    try discriminate.
  - intros E. inversion E. reflexivity.
  - intros E. rewrite (IH i E). reflexivity.
Qed.

Lemma fill_row_zip (columns : list str) (i : nat) (row : list pyval)
    (row_dict : Row) (s : Session) :
  NoDup (dict_keys row_dict ++ columns) ->
  (i + length columns = length row)%nat ->
  fill_row columns i row row_dict s =
    (Ok (row_dict ++ combine columns (map json_safe (skipn i row))), s).
Proof.
  revert i row_dict. induction columns as [|c columns IH]; intros i d Hd Hlen.
  - cbn [fill_row combine]. rewrite app_nil_r. reflexivity.
  - simpl in Hlen. cbn [fill_row]. unfold bind at 1.
    destruct (nth_error row i) as [value|] eqn:E.
    2:{ apply nth_error_None in E. lia. }
    cbn [or_raise]. unfold ret at 1. cbv beta iota.
    rewrite (skipn_nth_error _ _ _ E). cbn [map combine].
    assert (Hn : dict_has c d = false).
    { apply dict_has_false. apply NoDup_remove_2 in Hd. intros Hin.
      apply Hd. apply in_or_app. left. exact Hin. }
    rewrite (dict_set_new_app _ _ _ Hn). rewrite IH.
    + rewrite <- app_assoc. reflexivity.
    + unfold dict_keys. rewrite map_app. cbn [map fst].
      rewrite <- app_assoc. exact Hd.
    + lia.
Qed.

Lemma rows_as_dicts_zip (columns : list str) (rows : list (list pyval))
    (s : Session) :
  NoDup columns ->
  Forall (fun row => length row = length columns) rows ->
  rows_as_dicts columns rows s =
    (Ok (map (fun row => combine columns (map json_safe row)) rows), s).
Proof.
  intros Hd Hrows. unfold rows_as_dicts.
  induction Hrows as [|row rows Hrow _ IH]; [reflexivity|].
  cbn [for_each map]. unfold bind at 1.
  rewrite (fill_row_zip columns 0 row [] s Hd (eq_sym Hrow)).
  unfold bind at 1. rewrite IH. reflexivity.
Qed.

Lemma get_table_data_run
    (table_name : str) (s : Session) (rs : ResultSet) (d : DBState) :
  sql_run (lit "SELECT * FROM " ++ dq ++ table_name ++ dq) []
    (working s) = inl (rs, d) ->
  NoDup (rs_keys rs) ->
  Forall (fun row => length row = length (rs_keys rs)) (rs_rows rs) ->
  get_table_data table_name s =
    (Ok (rs_keys rs,
         map (fun row => combine (rs_keys rs) (map json_safe row))
           (rs_rows rs)),
     {| committed := committed s; working := d;
        calls := calls s
                 ++ [Execute (lit "SELECT * FROM " ++ dq ++ table_name ++ dq)
                       []];
        closed := closed s |}).
Proof.
  intros Hrun Hd Hrows. unfold get_table_data, bind at 1, db_execute,
    record_call.
  cbv zeta. cbn [committed working calls closed]. rewrite Hrun.
  unfold bind at 1. rewrite (rows_as_dicts_zip _ _ _ Hd Hrows).
  reflexivity.
Qed.

(** X11. When the database answers [SELECT * FROM "table"] with distinct
    column names and rows that have one cell per column, [get_table_data]
    returns those columns and, for every fetched row in order, the
    dictionary that pairs each column with the JSON-safe value of its cell;
    it has made that one call and nothing else. *)
Theorem get_table_data_pairs_columns_with_cells
    (table_name : str) (s : Session) (rs : ResultSet) (d : DBState) :
  sql_run (lit "SELECT * FROM " ++ dq ++ table_name ++ dq) []
    (working s) = inl (rs, d) ->
  NoDup (rs_keys rs) ->
  Forall (fun row => length row = length (rs_keys rs)) (rs_rows rs) ->
  get_table_data table_name s =
    (Ok (rs_keys rs,
         map (fun row => combine (rs_keys rs) (map json_safe row))
           (rs_rows rs)),
     {| committed := committed s; working := d;
        calls := calls s
                 ++ [Execute (lit "SELECT * FROM " ++ dq ++ table_name ++ dq)
                       []];
        closed := closed s |}).
Proof. apply get_table_data_run. Qed.

End FetchedTables.

(** ** The endpoint [/api/tables/info] *)

Section TablesInfo.
Context `{Backend}.

Lemma find_table_unlisted (name : str) (ts : list Table) :
  str_in name (map tbl_name ts) = false -> find_table name ts = None.
Proof.
  induction ts as [|t ts IH]; simpl; [reflexivity|].
  destruct (str_eqb name (tbl_name t)); simpl; [discriminate|exact IH].
Qed.

Lemma tables_info_loop_run (table_names : list str)
    (tables_info : dict TableSummary) (s : Session) :
  exists info,
    tables_info_loop table_names tables_info s = (Ok info, s) /\
    forall name,
      dict_get name info
      = match (if str_in name table_names
               then find_table name (cat_tables (catalogue (committed s)))
               else None) with
        | Some table => Some (summarize table)
        | None => dict_get name tables_info
        end.
Proof.
  revert tables_info.
  induction table_names as [|name0 rest IH]; intros acc.
  - exists acc. split; [reflexivity|]. intros name. reflexivity.
  - cbn [tables_info_loop]. unfold bind at 1, reflect.
    destruct (find_table name0 (cat_tables (catalogue (committed s))))
      as [table|] eqn:Ef.
    + destruct (IH (dict_set name0 (summarize table) acc)) as [info [E Hi]].
      exists info. split; [exact E|]. intros name. rewrite Hi.
      unfold str_in. cbn [existsb]. fold (str_in name rest).
      destruct (str_eqb name name0) eqn:En; cbn [orb].
      * apply str_eqb_eq in En. subst name0. rewrite Ef.
        destruct (str_in name rest); [reflexivity|].
        apply dict_get_set_eq.
      * apply str_eqb_neq in En. rewrite (dict_get_set_neq _ _ _ _ En).
        reflexivity.
    + destruct (IH acc) as [info [E Hi]].
      exists info. split; [exact E|]. intros name. rewrite Hi.
      unfold str_in. cbn [existsb]. fold (str_in name rest).
      destruct (str_eqb name name0) eqn:En; cbn [orb]; [|reflexivity].
      apply str_eqb_eq in En. subst name0. rewrite Ef.
      destruct (str_in name rest); reflexivity.
Qed.

(** X12. [get_tables_info] reads the catalogue only: it makes no call on
    the session and returns a dictionary that has, for each table of the
    catalogue and for nothing else, the name, type, nullability and
    primary-key flag of every column in order together with the names of the
    primary-key columns. *)
Theorem get_tables_info_summarizes_catalogue (s : Session) :
  exists info,
    get_tables_info s = (Ok info, s) /\
    forall name,
      dict_get name info
      = option_map summarize
          (find_table name (cat_tables (catalogue (committed s)))).
Proof.
  destruct (tables_info_loop_run
              (map tbl_name (cat_tables (catalogue (committed s)))) [] s)
    as [info [E Hi]].
  exists info. split.
  - unfold get_tables_info, try_except, bind, get_table_names.
    rewrite E. reflexivity.
  - intros name. rewrite Hi.
    destruct (str_in name
                (map tbl_name (cat_tables (catalogue (committed s)))))
      eqn:Hin.
    + destruct (find_table name _); reflexivity.
    + rewrite (find_table_unlisted _ _ Hin). reflexivity.
Qed.

End TablesInfo.

(** ** The schema endpoint, continued *)

Section SchemaErrors.
Context `{Backend}.

Lemma column_info_fields (fks : list ForeignKey) (column : Column)
    (s s' : Session) (info : ColumnInfo) :
  column_info fks column s = (Ok info, s') ->
  ci_name info = col_name column /\
  ci_is_nullable info = col_nullable column /\
  ci_has_default info = col_has_default column /\
  ci_input_type info = input_type_of (col_type_str column).
Proof.
  unfold column_info, bind.
  destruct (foreign_key_lookup (col_name column) fks s)
    as [[[is_fk fk_info]|e] s1]; [|discriminate].
  intros E. inversion E. repeat split.
Qed.

Lemma forall2_in_left {A B} (R : A -> B -> Prop) (l : list A) (l' : list B)
    (a : A) :
  Forall2 R l l' -> In a l -> exists b, In b l' /\ R a b.
Proof.
  induction 1 as [|x y l l' Hxy _ IH]; simpl; [tauto|].
  intros [E|Hin].
  - subst. eauto.
  - destruct (IH Hin) as [b [Hb Hr]]. eauto.
Qed.

Lemma forall2_in_right {A B} (R : A -> B -> Prop) (l : list A) (l' : list B)
    (b : B) :
  Forall2 R l l' -> In b l' -> exists a, In a l /\ R a b.
Proof.
  induction 1 as [|x y l l' Hxy _ IH]; simpl; [tauto|].
  intros [E|Hin].
  - subst. eauto.
  - destruct (IH Hin) as [a [Ha Hr]]. eauto.
Qed.

(** X14. In what [get_table_schema] returns, [required_columns] agrees with
    the column entries: a name is listed as required exactly when some
    column entry of that name is neither nullable nor has a default. *)
Theorem get_table_schema_required_columns
    (table_name : str) (s s' : Session) (schema : TableSchema) (name : str) :
  get_table_schema table_name s = (Ok schema, s') ->
  (In name (schema_required_columns schema) <->
   exists info,
     In info (schema_columns schema) /\
     ci_name info = name /\
     ci_is_nullable info = false /\
     ci_has_default info = false).
Proof.
  destruct (str_in table_name
              (map tbl_name (cat_tables (catalogue (committed s))))) eqn:Hin.
  2:{ unfold get_table_schema, try_except, bind at 1, get_table_names.
      rewrite Hin. discriminate. }
  destruct (find_table_listed _ _ Hin) as [table Hfind].
  rewrite (get_table_schema_listed table_name table s Hin Hfind).
  destruct (for_each _ (tbl_columns table) s) as [[infos|e1] s1] eqn:Ef.
  2:{ destruct e1; discriminate. }
  intros E. inversion E. subst schema s1.
  cbn [schema_required_columns schema_columns].
  apply for_each_ok in Ef.
  assert (Hrel : Forall2
            (fun column info =>
               ci_name info = col_name column /\
               ci_is_nullable info = col_nullable column /\
               ci_has_default info = col_has_default column)
            (tbl_columns table) infos).
  { revert Ef. apply Forall2_impl. intros column info [t1 [t2 Hc]].
    destruct (column_info_fields _ _ _ _ _ Hc) as [H1 [H2 [H3 _]]]. auto. }
  rewrite in_map_iff. split.
  - intros [column [En Hf]]. apply filter_In in Hf. destruct Hf as [Hc Hp].
    apply andb_prop in Hp. destruct Hp as [Hp1 Hp2].
    apply negb_true_iff in Hp1, Hp2.
    destruct (forall2_in_left _ _ _ _ Hrel Hc) as [info [Hi [H1 [H2 H3]]]].
    exists info. repeat split; congruence.
  - intros [info [Hi [H1 [H2 H3]]]].
    destruct (forall2_in_right _ _ _ _ Hrel Hi) as [column [Hc [R1 [R2 R3]]]].
    exists column. split; [congruence|]. apply filter_In.
    split; [exact Hc|].
    rewrite <- R2, <- R3, H2, H3. reflexivity.
Qed.

End SchemaErrors.

(** ** Forms without key fields *)

Section NoKeyFields.
Context `{PyRuntime}.

Lemma key_fields_none {V} (d : dict V) :
  forallb (fun key => negb (is_pk key)) (dict_keys d) = true ->
  key_fields d = [] /\ other_fields d = d.
Proof.
  induction d as [|[k v] d IH]; [split; reflexivity|].
  cbn [dict_keys map fst forallb]. intros Hf.
  apply andb_prop in Hf. destruct Hf as [Hk Hd].
  apply negb_true_iff in Hk. destruct (IH Hd) as [IH1 IH2].
  unfold key_fields, other_fields in *. cbn [filter fst].
  rewrite Hk. cbn [negb]. rewrite IH1, IH2. split; reflexivity.
Qed.

(** X15. A form without any [pk_] field gives a statement with an empty
    condition: the text of [delete_record] ends in [WHERE] and has no
    parameter, and the text of [edit_record] sets every submitted field and
    ends in [WHERE], its parameters being those of the fields alone. *)
Theorem statements_without_key_fields
    (table_name : str) (form_data : list (str * str)) :
  forallb (fun key => negb (is_pk key)) (field_names (map fst form_data))
  = true ->
  delete_statement table_name (fields_of form_data)
  = (lit "DELETE FROM " ++ dq ++ table_name ++ dq ++ lit " WHERE ", []) /\
  edit_statement table_name (fields_of form_data)
  = (lit "UPDATE " ++ dq ++ table_name ++ dq ++ lit " SET "
     ++ join (lit ", ")
          (map (fun key => dq ++ key ++ dq ++ lit " = :" ++ key)
             (field_names (map fst form_data)))
     ++ lit " WHERE ",
     dict_map none_if_empty (fields_of form_data)).
Proof.
  intros Hf. rewrite <- fields_of_names in *.
  destruct (key_fields_none _ Hf) as [Hk Ho].
  pose proof (fields_of_nodup form_data) as Hd. split.
  - rewrite (delete_statement_spec _ _ Hd), Hk. unfold delete_statement_text.
    cbn [dict_keys map join]. rewrite app_nil_r. reflexivity.
  - rewrite (edit_statement_spec _ _ Hd), Hk, Ho. unfold update_statement.
    cbn [dict_keys map join dict_merge fold_left]. rewrite app_nil_r.
    reflexivity.
Qed.

End NoKeyFields.

(** ** The table view, continued *)

Section TableViewRuns.
Context `{Backend}.

(** X16. For a table that the catalogue holds, named by a non-empty
    [table_name], and a database that answers the [SELECT] with distinct
    column names and one cell per column, [show_tables] renders the columns
    and the rows of the answer together with the primary-key columns of the
    reflected table and its required columns, those that are neither
    nullable nor have a default; the message and its type are passed on to
    the page as they came. *)
Theorem show_tables_shows_listed_table
    (name : str) (message message_type : option str) (s : Session)
    (table : Table) (rs : ResultSet) (d : DBState) :
  name <> [] ->
  find_table name (cat_tables (catalogue (committed s))) = Some table ->
  sql_run (lit "SELECT * FROM " ++ dq ++ name ++ dq) [] (working s)
  = inl (rs, d) ->
  NoDup (rs_keys rs) ->
  Forall (fun row => length row = length (rs_keys rs)) (rs_rows rs) ->
  show_tables (Some name) message message_type s =
    (Ok (ViewPage
           {| view_tables :=
                map tbl_name (cat_tables (catalogue (committed s)));
              view_current_table := Some name;
              view_columns := rs_keys rs;
              view_data :=
                map (fun row => combine (rs_keys rs) (map json_safe row))
                  (rs_rows rs);
              view_primary_keys := tbl_primary_key table;
              view_required_columns :=
                map col_name
                  (filter (fun column =>
                             negb (col_nullable column)
                             && negb (col_has_default column))
                     (tbl_columns table));
              view_message := message;
              view_message_type := message_type |}),
     {| committed := committed s; working := d;
        calls := calls s
                 ++ [Execute (lit "SELECT * FROM " ++ dq ++ name ++ dq) []];
        closed := closed s |}).
Proof.
  intros Hne Hfind Hrun Hd Hrows.
  unfold show_tables, bind at 1, get_table_names.
  assert (Ht : truthy (Some name) = true)
    by (destruct name; [congruence|reflexivity]).
  rewrite Ht, (find_table_is_listed _ _ _ Hfind). cbn [andb].
  unfold bind at 1. unfold bind at 1.
  rewrite (get_table_data_run name s rs d Hrun Hd Hrows).
  unfold bind at 1, get_table_info, bind at 1, reflect.
  cbn [committed]. rewrite Hfind. reflexivity.
Qed.

End TableViewRuns.

(** ** The message shown for a database error *)

Section ErrorMessage.
Context `{Backend}.

Lemma split_newline_head (part s : str) :
  exists rest,
    split_sep_scan newline 0 part s = (rev part ++ first_line s) :: rest.
Proof.
  revert part. induction s as [|c s IH]; intros part.
  - exists []. cbn [split_sep_scan first_line]. rewrite app_nil_r.
    reflexivity.
  - cbn [split_sep_scan first_line]. unfold newline at 1.
    cbn [startswith]. destruct (10 =? c)%N eqn:E.
    + apply N.eqb_eq in E. subst c. cbn [andb N.eqb Pos.eqb].
      rewrite app_nil_r.
      destruct s; cbn [startswith]; eexists; reflexivity.
    + cbn [andb]. rewrite N.eqb_sym, E.
      destruct (IH (c :: part)) as [rest Hr]. exists rest. rewrite Hr.
      cbn [rev]. rewrite <- app_assoc. reflexivity.
Qed.

Lemma first_line_single (s : str) : single_line (first_line s) = true.
Proof.
  induction s as [|c s IH]; [reflexivity|]. cbn [first_line].
  destruct (c =? 10)%N eqn:E; [reflexivity|].
  cbn [single_line forallb]. rewrite E. exact IH.
Qed.

Lemma single_line_app (a b : str) :
  single_line (a ++ b) = single_line a && single_line b.
Proof. apply forallb_app. Qed.

Lemma lstrip_single (s : str) :
  single_line s = true -> single_line (lstrip s) = true.
Proof.
  induction s as [|c s IH]; [reflexivity|]. cbn [lstrip].
  destruct (is_space c); [|auto]. cbn [single_line forallb].
  intros Hs. apply andb_prop in Hs. apply IH, Hs.
Qed.

Lemma rstrip_single (s : str) :
  single_line s = true -> single_line (rstrip s) = true.
Proof.
  induction s as [|c s IH]; [reflexivity|].
  cbn [single_line forallb]. intros Hs. apply andb_prop in Hs.
  destruct Hs as [Hc Hs]. specialize (IH Hs). cbn [rstrip].
  destruct (rstrip s) as [|x r].
  - destruct (is_space c); [reflexivity|].
    cbn [single_line forallb]. rewrite Hc. reflexivity.
  - change (single_line (c :: x :: r))
      with (negb (c =? 10)%N && single_line (x :: r)).
    rewrite Hc. exact IH.
Qed.

Lemma strip_single (s : str) :
  single_line s = true -> single_line (strip s) = true.
Proof. intros Hs. apply rstrip_single, lstrip_single, Hs. Qed.

Lemma startswith_prefix (a b : str) : startswith (a ++ b) a = true.
Proof.
  induction a as [|x a IH]; [destruct b; reflexivity|].
  cbn [app startswith]. rewrite N.eqb_refl. exact IH.
Qed.

Lemma sql_error_message_run (e_str : str) (s : Session) :
  exists error_message,
    sql_error_message e_str s = (Ok error_message, s) /\
    single_line error_message = true /\
    startswith error_message (first_line e_str) = true /\
    (contains e_str (lit "DETAIL:") = false ->
     error_message = first_line e_str).
Proof.
  unfold sql_error_message, split_sep.
  destruct (split_newline_head [] e_str) as [rest E]. rewrite E.
  cbn [rev app nth_error or_raise]. unfold bind at 1, ret at 1.
  destruct (contains e_str (lit "DETAIL:")) eqn:Ec.
  - destruct (split_sep_scan_second (lit "DETAIL:") 0 [] e_str)
      as [x [after [r Ex]]]; [discriminate|exact Ec|].
    rewrite Ex. cbn [nth_error or_raise]. unfold bind at 1, ret at 1.
    destruct (split_newline_head [] after) as [rest' E']. rewrite E'.
    cbn [rev app nth_error or_raise]. unfold bind at 1, ret at 1.
    eexists. split; [reflexivity|]. split; [|split].
    + rewrite !single_line_app, first_line_single.
      rewrite (strip_single _ (first_line_single after)). reflexivity.
    + apply startswith_prefix.
    + discriminate.
  - eexists. split; [reflexivity|]. split; [apply first_line_single|].
    split; [|reflexivity].
    rewrite <- (app_nil_r (first_line e_str)) at 1. apply startswith_prefix.
Qed.

End ErrorMessage.

(** * The further properties on the small database *)


Lemma record_handlers_reject_unknown_table_witness :
  @delete_record ascii_runtime toy_backend (lit "nope") delete_form
    toy_session
  = (Raise (HTTPException 404
              (lit "Таблица " ++ lit "nope" ++ lit " не найдена")),
     toy_session).
Proof.
  exact (proj2 (proj2 (@record_handlers_reject_unknown_table ascii_runtime
                         toy_backend (lit "nope") delete_form toy_session
                         eq_refl eq_refl))).
Defined.

Lemma record_handlers_commit_on_success_witness :
  committed (snd (@edit_record ascii_runtime toy_backend (lit "clients")
                    edit_form toy_session)) = 1%Z.
Proof.
  rewrite (proj1 (proj2 (@record_handlers_commit_on_success ascii_runtime
                           toy_backend (lit "clients") edit_form toy_session
                           (update_statement (lit "clients")
                              [lit "phone"] [lit "id"])
                           [(lit "phone", PNone);
                            (lit "id_pk", PStr (lit "5"))]
                           first_answer 1%Z
                           eq_refl eq_refl eq_refl eq_refl)) eq_refl).
  reflexivity.
Defined.

Lemma add_record_converts_each_field_witness :
  exists param,
    @converted ascii_runtime
      {| col_name := lit "paid_on"; col_type := Date;
         col_type_str := lit "DATE"; col_nullable := true;
         col_primary_key := false; col_has_default := false |} []
    = Ok param /\
    dict_get (lit "paid_on")
      [(lit "no", @PInt ascii_runtime 12); (lit "paid_on", PNone)]
    = Some param.
Proof.
  assert (Hd : NoDup (map col_name (tbl_columns toy_payments))).
  { vm_compute. repeat constructor; simpl; intuition discriminate. }
  exact (@add_record_converts_each_field ascii_runtime
           (lit "payments") add_form toy_payments
           (insert_statement (lit "payments") [lit "no"; lit "paid_on"])
           [(lit "no", PInt 12); (lit "paid_on", PNone)]
           (lit "paid_on") [] Hd eq_refl eq_refl).
Defined.

Lemma add_record_rejects_unreadable_values_witness :
  @add_record ascii_runtime toy_backend (lit "payments") unreadable_form
    toy_session
  = (Raise (HTTPException 400
              (lit "Неверный числовой формат для поля " ++ lit "no"
               ++ lit ".")),
     toy_session).
Proof.
  exact (proj1 (@add_record_rejects_unreadable_values ascii_runtime
                  toy_backend (lit "payments") unreadable_form toy_session
                  toy_payments _ eq_refl eq_refl eq_refl)).
Defined.

Lemma reading_endpoints_never_commit_witness :
  committed (snd (@request_scope ascii_runtime toy_backend _
                    (@report_handler ascii_runtime toy_backend Query1)
                    0%Z)) = 0%Z.
Proof.
  destruct (@reading_endpoints_never_commit ascii_runtime toy_backend)
    as [_ [Hreport [_ Hscope]]].
  exact (proj1 (Hscope _ (report_handler Query1) 0%Z (Hreport Query1))).
Defined.

Lemma safe_jsonify_converts_values_witness :
  @safe_jsonify ascii_runtime (fun _ => lit "{...}") (Some dated_row)
  = (fun _ => lit "{...}")
      [(lit "paid_on", @PStr ascii_runtime (lit "2024-01-31"));
       (lit "no", PInt 12)].
Proof.
  assert (Hd : NoDup (dict_keys dated_row)).
  { vm_compute. repeat constructor; simpl; intuition discriminate. }
  exact (proj1 (proj2 (@safe_jsonify_converts_values ascii_runtime
                         (fun _ => lit "{...}") dated_row Hd))).
Defined.

Lemma get_table_data_pairs_columns_with_cells_witness :
  fst (@get_table_data ascii_runtime toy_backend (lit "clients") toy_session)
  = Ok ([lit "n"], [[(lit "n", PInt 0)]]).
Proof.
  rewrite (@get_table_data_pairs_columns_with_cells ascii_runtime toy_backend
             (lit "clients") toy_session first_answer 1%Z eq_refl).
  - reflexivity.
  - repeat constructor. intros [].
  - repeat constructor.
Defined.

Lemma get_table_schema_required_columns_witness :
  exists schema s',
    @get_table_schema ascii_runtime toy_backend (lit "payments") toy_session
    = (Ok schema, s') /\
    (In (lit "client") (schema_required_columns schema) <->
     exists info,
       In info (schema_columns schema) /\
       ci_name info = lit "client" /\
       ci_is_nullable info = false /\
       ci_has_default info = false).
Proof.
  do 2 eexists. split; [reflexivity|].
  apply (@get_table_schema_required_columns ascii_runtime toy_backend
           (lit "payments") toy_session _ _ (lit "client") eq_refl).
Defined.

Lemma statements_without_key_fields_witness :
  @delete_statement ascii_runtime (lit "clients") (fields_of keyless_form)
  = (lit "DELETE FROM " ++ dq ++ lit "clients" ++ dq ++ lit " WHERE ", []).
Proof.
  exact (proj1 (@statements_without_key_fields ascii_runtime (lit "clients")
                  keyless_form eq_refl)).
Defined.

Lemma show_tables_shows_listed_table_witness :
  fst (@show_tables ascii_runtime toy_backend (Some (lit "clients")) None None
         toy_session)
  = Ok (ViewPage
          {| view_tables := [lit "clients"; lit "payments"];
             view_current_table := Some (lit "clients");
             view_columns := [lit "n"];
             view_data := [[(lit "n", PInt 0)]];
             view_primary_keys := [lit "id"];
             view_required_columns := [lit "id"];
             view_message := None;
             view_message_type := None |}).
Proof.
  rewrite (@show_tables_shows_listed_table ascii_runtime toy_backend
             (lit "clients") None None toy_session toy_clients
             first_answer 1%Z).
  - reflexivity.
  - discriminate.
  - reflexivity.
  - reflexivity.
  - repeat constructor. intros [].
  - repeat constructor.
Defined.


(** * The rows of a result *)

Section ResultRows.
Context `{Backend}.

(** The loop over [enumerate(columns)] is [dict(zip(columns, cells))]
    started from what [row_dict] already holds. *)
Lemma fill_row_items (columns : list str) (i : nat) (row : list pyval)
    (row_dict : Row) (s : Session) :
  (i + length columns <= length row)%nat ->
  fill_row columns i row row_dict s =
    (Ok (dict_merge row_dict
           (combine columns (map json_safe (skipn i row)))), s).
Proof.
  revert i row_dict. induction columns as [|c columns IH]; intros i d Hlen.
  - reflexivity.
  - simpl in Hlen. cbn [fill_row]. unfold bind at 1.
    destruct (nth_error row i) as [value|] eqn:E.
    2:{ apply nth_error_None in E. lia. }
    cbn [or_raise]. unfold ret at 1. cbv beta iota.
    rewrite IH by lia. rewrite (skipn_nth_error _ _ _ E).
    reflexivity.
Qed.

Lemma rows_as_dicts_items (columns : list str) (rows : list (list pyval))
    (s : Session) :
  Forall (row_has_cells (length columns)) rows ->
  rows_as_dicts columns rows s =
    (Ok (map (fun row =>
                dict_of_items (combine columns (map json_safe row))) rows),
     s).
Proof.
  intros Hrows. unfold rows_as_dicts.
  induction Hrows as [|row rows Hrow _ IH]; [reflexivity|].
  cbn [for_each map]. unfold bind at 1.
  rewrite (fill_row_items columns 0 row [] s Hrow).
  unfold bind at 1. rewrite IH. reflexivity.
Qed.

(** C6. The report routes are the five paths [/query1] to [/query5]; each
    handler takes no input from the request and executes exactly one
    statement, the constant text of its report, with no parameters; and when
    the database answers with a result set whose rows have a cell for every
    column, the handler returns the report page with the columns of the
    result set and, for every fetched row in order, the dictionary
    [dict(zip(columns, cells))] of the JSON-safe cells of that row. *)
Theorem reports_are_five_fixed_queries :
  map fst report_routes
  = [lit "/query1"; lit "/query2"; lit "/query3"; lit "/query4";
     lit "/query5"] /\
  NoDup (map snd report_routes) /\
  (forall r, In r (map snd report_routes)) /\
  (forall r s,
     new_calls s (snd (report_handler r s)) = [Execute (report_sql r) []]) /\
  (forall r s rs d,
     sql_run (report_sql r) [] (working s) = inl (rs, d) ->
     Forall (row_has_cells (length (rs_keys rs))) (rs_rows rs) ->
     report_handler r s =
       (Ok (ReportPage
              {| report_tables :=
                   map tbl_name (cat_tables (catalogue (committed s)));
                 report_current_query := report_name r;
                 report_columns := rs_keys rs;
                 report_data :=
                   map (fun row =>
                          dict_of_items
                            (combine (rs_keys rs) (map json_safe row)))
                     (rs_rows rs);
                 report_query_title := report_title r |}),
        {| committed := committed s; working := d;
           calls := calls s ++ [Execute (report_sql r) []];
           closed := closed s |})).
Proof.
  split; [reflexivity|]. split.
  { simpl. repeat constructor; simpl; intuition discriminate. }
  split.
  { intros r. destruct r; simpl; auto 6. }
  split.
  - intros r s. rewrite run_report. apply new_calls_app.
    rewrite (bind_pure_state (fun _ => False)).
    + apply execute_custom_query_calls.
    + intros [columns data].
      apply pure_bind; [apply pure_get_table_names|].
      intros tables. apply pure_ret.
  - intros r s rs d Hrun Hrows. rewrite run_report.
    unfold bind at 1, execute_custom_query, bind at 1, db_execute,
      record_call.
    cbv zeta. cbn [committed working calls closed]. rewrite Hrun.
    unfold bind at 1. rewrite (rows_as_dicts_items _ _ _ Hrows).
    reflexivity.
Qed.

End ResultRows.

(** * The column entries of a schema *)

Section SchemaColumns.
Context `{Backend}.

Lemma first_constraint_in (name : str) (fks : list ForeignKey)
    (fk : ForeignKey) :
  first_constraint name fks = Some fk ->
  In fk fks /\ str_in name (constrained_columns fk) = true.
Proof.
  induction fks as [|fk' fks IH]; cbn [first_constraint]; [discriminate|].
  destruct (str_in name (constrained_columns fk')) eqn:E.
  - intros Ef. inversion Ef. subst. split; [left; reflexivity|exact E].
  - intros Ef. destruct (IH Ef) as [Hin Hc]. split; [right; exact Hin|exact Hc].
Qed.

Lemma first_cells_state (rows : list (list pyval)) (s s' : Session)
    (r : result (list pyval)) :
  for_each (fun row => or_raise IndexError (nth_error row 0)) rows s
  = (r, s') ->
  s' = s.
Proof.
  intros E.
  assert (Hp : pure_raising (fun _ => True)
                 (for_each (fun row : list pyval =>
                              or_raise IndexError (nth_error row 0)) rows)).
  { apply pure_for_each. intros row. apply pure_or_raise. exact I. }
  destruct (Hp s) as [r' [E' _]]. rewrite E' in E. inversion E. reflexivity.
Qed.

(** What the loop over the foreign keys found for a column. *)
Lemma foreign_key_lookup_first (name : str) (fks : list ForeignKey)
    (s s' : Session) (is_fk : bool) (info : option ForeignKeyInfo) :
  foreign_key_lookup name fks s = (Ok (is_fk, info), s') ->
  match first_constraint name fks with
  | None => is_fk = false /\ info = None /\ s' = s
  | Some fk =>
      exists target rs values,
        nth_error (referred_columns fk) 0 = Some target /\
        sql_run (lit "SELECT DISTINCT " ++ dq ++ target ++ dq ++ lit " FROM "
                 ++ dq ++ referred_table fk ++ dq) [] (working s)
        = inl (rs, working s') /\
        map (fun row => nth_error row 0) (rs_rows rs) = map Some values /\
        is_fk = true /\
        info = Some {| target_table := referred_table fk;
                       target_column := target;
                       fk_values := values |}
  end.
Proof.
  induction fks as [|fk fks IH]; cbn [foreign_key_lookup first_constraint].
  - intros E. inversion E. auto.
  - destruct (str_in name (constrained_columns fk)); [|exact IH].
    unfold bind at 1.
    destruct (nth_error (referred_columns fk) 0) as [target|] eqn:Et;
      [|discriminate].
    cbn [or_raise]. unfold ret at 1. unfold bind at 1, db_execute.
    cbv zeta. unfold distinct_statement.
    match goal with
    | |- context [sql_run ?q [] (working s)] =>
        destruct (sql_run q [] (working s)) as [[rs d]|m] eqn:Er
    end; [|discriminate].
    unfold bind at 1.
    match goal with
    | |- context [for_each ?f ?l ?S] =>
        destruct (for_each f l S) as [[values|e] s1] eqn:Ev
    end; [|discriminate].
    intros E. inversion E. subst.
    pose proof (first_cells_state _ _ _ _ Ev) as Hs. subst s'.
    exists target, rs, values. cbn [working].
    repeat split; try assumption; try reflexivity.
    apply (first_cells_ok _ _ _ _ Ev).
Qed.

Lemma single_column_key (name : str) (fk : ForeignKey) (target : str) :
  single_column fk ->
  str_in name (constrained_columns fk) = true ->
  nth_error (referred_columns fk) 0 = Some target ->
  constrained_columns fk = [name] /\ referred_columns fk = [target].
Proof.
  intros [Hc Hr] Hin Ht.
  destruct (constrained_columns fk) as [|c [|c' cs]]; try discriminate.
  destruct (referred_columns fk) as [|r [|r' rs]]; try discriminate.
  apply str_in_In in Hin. destruct Hin as [Hin|[]]. subst c.
  inversion Ht. subst. auto.
Qed.

Lemma columns_info_listed (fks : list ForeignKey) (columns : list Column)
    (s s' : Session) (infos : list ColumnInfo) :
  Forall single_column fks ->
  for_each (column_info fks) columns s = (Ok infos, s') ->
  lists_columns fks (working s) columns infos (working s').
Proof.
  intros Hfks. revert s infos.
  induction columns as [|column columns IH]; intros s infos;
    cbn [for_each].
  - intros E. inversion E. constructor.
  - unfold bind at 1, column_info at 1, bind at 1.
    destruct (foreign_key_lookup (col_name column) fks s)
      as [[[is_fk fk_info]|e] s1] eqn:El; [|discriminate].
    unfold ret at 1. unfold bind at 1.
    destruct (for_each (column_info fks) columns s1)
      as [[infos'|e] s2] eqn:Er; [|discriminate].
    intros E. inversion E. subst.
    apply foreign_key_lookup_first in El.
    destruct (first_constraint (col_name column) fks) as [fk|] eqn:Ef.
    + destruct El as [target [rs [values [Ht [Hrun [Hv [-> ->]]]]]]].
      destruct (first_constraint_in _ _ _ Ef) as [Hin Hc].
      rewrite Forall_forall in Hfks.
      destruct (single_column_key _ _ _ (Hfks fk Hin) Hc Ht) as [Hcc Hrc].
      eapply lists_key_column; try eassumption; try reflexivity.
      apply (IH s1 infos' Er).
    + destruct El as [-> [-> ->]].
      apply lists_plain_column; try reflexivity; try assumption.
      apply (IH s infos'); assumption.
Qed.

Lemma lists_values_answers (fks : list ForeignKey) :
  Forall single_column fks -> lists_values fks -> answers_lookups fks.
Proof.
  unfold lists_values, answers_lookups. intros Hs Hv.
  rewrite Forall_forall in *. intros fk Hin.
  destruct (Hs fk Hin) as [_ Hr].
  destruct (referred_columns fk) as [|target [|r rs]] eqn:Er;
    try discriminate.
  exists target. split; [reflexivity|]. intros d.
  apply (Hv fk Hin target d). rewrite Er. reflexivity.
Qed.

(** X18. For a table of the catalogue whose foreign keys have one column
    each, the columns that [get_table_schema] returns are the columns of the
    table in order, each with its name, type, nullability, primary-key flag
    and default flag.  A column that no foreign key constrains is entered
    as no foreign key; a constrained column is entered with the table and
    the column that its first constraint refers to and with the first cell
    of every row that [SELECT DISTINCT "column" FROM "table"] returned, the
    look-ups running one after the other on the data of the session.  The
    endpoint does return when the database answers these look-ups. *)
Theorem get_table_schema_lists_columns
    (table_name : str) (s : Session) (table : Table) :
  find_table table_name (cat_tables (catalogue (committed s))) = Some table ->
  Forall single_column
    (cat_foreign_keys (catalogue (committed s)) table_name) ->
  (forall schema s',
     get_table_schema table_name s = (Ok schema, s') ->
     schema_table_name schema = table_name /\
     lists_columns (cat_foreign_keys (catalogue (committed s)) table_name)
       (working s) (tbl_columns table) (schema_columns schema)
       (working s')) /\
  (lists_values (cat_foreign_keys (catalogue (committed s)) table_name) ->
   exists schema s', get_table_schema table_name s = (Ok schema, s')).
Proof.
  intros Hfind Hfks.
  pose proof (find_table_is_listed _ _ _ Hfind) as Hin.
  split.
  - intros schema s' E.
    rewrite (get_table_schema_listed table_name table s Hin Hfind) in E.
    match type of E with
    | context [for_each ?f ?l s] =>
        destruct (for_each f l s) as [[infos|e] s1] eqn:Ef
    end.
    + inversion E. subst. cbn [schema_table_name schema_columns].
      split; [reflexivity|].
      apply (columns_info_listed _ _ _ _ _ Hfks Ef).
    + destruct e; discriminate.
  - intros Hv.
    rewrite (get_table_schema_listed table_name table s Hin Hfind).
    destruct (columns_info_total _ (tbl_columns table) s
                (lists_values_answers _ Hfks Hv)) as [infos [s1 E]].
    rewrite E. do 2 eexists. reflexivity.
Qed.

(** C5. On the database of meter readings the foreign key of [readings]
    pairs [client] with [contracts.client_id] and [service] with
    [contracts.service_id].  [get_table_schema] enters the column [service]
    with the target column [client_id] and with the clients 1 and 2 as its
    values: it takes the first referred column of the constraint for every
    column that the constraint lists. *)
Theorem get_table_schema_composite_key :
  cat_foreign_keys meter_catalogue (lit "readings")
  = [ {| constrained_columns := [lit "client"; lit "service"];
         referred_table := lit "contracts";
         referred_columns := [lit "client_id"; lit "service_id"] |} ] /\
  @sql_run ascii_runtime meter_backend
    (lit "SELECT DISTINCT " ++ dq ++ lit "service_id" ++ dq ++ lit " FROM "
     ++ dq ++ lit "contracts" ++ dq) [] tt
  = inl ({| rs_keys := [lit "service_id"]; rs_rows := [[PInt 7]];
            rs_rowcount := 1 |}, tt) /\
  exists schema s',
    @get_table_schema ascii_runtime meter_backend (lit "readings")
      meter_session = (Ok schema, s') /\
    nth_error (schema_columns schema) 2
    = Some {| ci_name := lit "service";
              ci_type := lit "INTEGER";
              ci_input_type := lit "number";
              ci_is_primary_key := false;
              ci_is_nullable := false;
              ci_has_default := false;
              ci_is_foreign_key := true;
              ci_foreign_key_info :=
                Some {| target_table := lit "contracts";
                        target_column := lit "client_id";
                        fk_values := [PInt 1; PInt 2] |} |}.
Proof.
  split; [reflexivity|]. split; [reflexivity|].
  do 2 eexists. split; reflexivity.
Qed.

End SchemaColumns.

(** * The handlers on a server that can fail *)

Section LiveRuns.
Context `{Server}.

Lemma live_get_table_names_run (s : Session) :
  Live.get_table_names s =
  match unreadable s with
  | Some message => (Raise (SQLAlchemyError message), s)
  | None => (Ok (map tbl_name (cat_tables (catalogue (committed s)))), s)
  end.
Proof. reflexivity. Qed.

Lemma live_sql_page_run (columns : list str) (data : list Row)
    (sql_query : str) (error success : option str) (s : Session) :
  Live.sql_page columns data sql_query error success s =
  match unreadable s with
  | Some message => (Raise (SQLAlchemyError message), s)
  | None =>
      (Ok (SqlPage
             {| sql_tables :=
                  map tbl_name (cat_tables (catalogue (committed s)));
                sql_current_query := lit "custom_sql";
                sql_columns := columns;
                sql_data := data;
                sql_query_text := sql_query;
                sql_error := error;
                sql_success := success |}), s)
  end.
Proof.
  unfold Live.sql_page, bind, Live.get_table_names.
  destruct (unreadable s); reflexivity.
Qed.

Lemma live_db_execute_run (statement : str) (params : dict pyval)
    (s : Session) :
  Live.db_execute statement params s =
  match sql_run statement params (working s) with
  | inl (rs, d) => (Ok rs, executed statement params d s)
  | inr message =>
      (Raise (SQLAlchemyError message),
       executed statement params (working s) s)
  end.
Proof.
  unfold Live.db_execute, executed.
  destruct (sql_run statement params (working s)) as [[rs d]|m];
    reflexivity.
Qed.

Lemma db_commit_run (s : Session) :
  db_commit s =
  match sql_commit (working s) with
  | None => (Ok tt, commit_done s)
  | Some message => (Raise (SQLAlchemyError message), commit_failed s)
  end.
Proof.
  unfold db_commit, commit_done, commit_failed, record_call.
  destruct (sql_commit (working s)); reflexivity.
Qed.

(** [result = db.execute(text(statement), params); db.commit(); ...]. *)
Lemma live_execute_commit_run {A} (statement : str) (params : dict pyval)
    (k : ResultSet -> M A) (s : Session) :
  (result <- Live.db_execute statement params ;; db_commit ;;; k result) s =
  match sql_run statement params (working s) with
  | inr message =>
      (Raise (SQLAlchemyError message),
       executed statement params (working s) s)
  | inl (rs, d) =>
      match sql_commit d with
      | Some message =>
          (Raise (SQLAlchemyError message),
           commit_failed (executed statement params d s))
      | None => k rs (commit_done (executed statement params d s))
      end
  end.
Proof.
  unfold bind at 1. rewrite live_db_execute_run.
  destruct (sql_run statement params (working s)) as [[rs d]|m];
    [|reflexivity].
  unfold bind at 1. rewrite db_commit_run. cbn [executed working].
  destruct (sql_commit d); reflexivity.
Qed.

(** A statement that left the transaction open has committed nothing. *)
Lemma quiet_executed (statement : str) (params : dict pyval) (d : DBState)
    (s s1 : Session) (rest : list db_call) :
  calls s1 = calls s ++ Execute statement params :: rest ->
  committed s1 = committed (executed statement params d s) ->
  leaves_transaction_open s s1 ->
  committed s1 = committed s.
Proof.
  intros Hc Hcm Hq. rewrite Hcm. unfold executed. cbn [committed].
  rewrite (Hq statement params); [reflexivity|].
  rewrite (new_calls_app s s1 _ Hc). left. reflexivity.
Qed.

(** When [db.execute(...); db.commit(); return response] raises, the
    commit has not gone through. *)
Lemma live_execute_commit_raises {A} (statement : str) (params : dict pyval)
    (a : A) (s s1 : Session) (e : exc) :
  (Live.db_execute statement params ;;; db_commit ;;; ret a) s
  = (Raise e, s1) ->
  leaves_transaction_open s s1 -> committed s1 = committed s.
Proof.
  rewrite (live_execute_commit_run statement params (fun _ => ret a) s).
  destruct (sql_run statement params (working s)) as [[rs d]|m].
  - destruct (sql_commit d) as [m|]; [|discriminate].
    intros E. inversion E. subst.
    apply (quiet_executed statement params d s _ [Commit]).
    + cbn [commit_failed executed calls]. rewrite <- app_assoc. reflexivity.
    + reflexivity.
  - intros E. inversion E. subst.
    apply (quiet_executed statement params (working s) s _ []); reflexivity.
Qed.

Lemma live_add_record_try_raises (table_name : str)
    (form_data : list (str * str)) (s s1 : Session) (message : str) :
  Live.add_record_try table_name form_data s
  = (Raise (SQLAlchemyError message), s1) ->
  leaves_transaction_open s s1 -> committed s1 = committed s.
Proof.
  unfold Live.add_record_try. unfold bind at 1.
  destruct (dict_del (lit "table_name") (form_dict_of form_data))
    as [form_dict|]; cbn [or_raise]; [|discriminate].
  unfold ret at 1. unfold bind at 1. rewrite live_get_table_names_run.
  destruct (unreadable s) as [m|] eqn:U.
  { intros E. inversion E. reflexivity. }
  destruct (negb (str_in table_name _)); [discriminate|].
  unfold bind at 1, Live.reflect. rewrite U.
  unfold bind at 1.
  destruct (find_table table_name _) as [table|]; cbn [or_raise];
    [|discriminate].
  unfold ret at 1. unfold bind at 1, lift.
  destruct (add_statement table_name table form_dict) as [[query params]|e].
  - apply live_execute_commit_raises.
  - intros E. inversion E. reflexivity.
Qed.

Lemma live_edit_record_try_raises (table_name : str)
    (form_data : list (str * str)) (s s1 : Session) (message : str) :
  Live.edit_record_try table_name form_data s
  = (Raise (SQLAlchemyError message), s1) ->
  leaves_transaction_open s s1 -> committed s1 = committed s.
Proof.
  unfold Live.edit_record_try. unfold bind at 1.
  destruct (dict_del (lit "table_name") (form_dict_of form_data))
    as [form_dict|]; cbn [or_raise]; [|discriminate].
  unfold ret at 1. unfold bind at 1. rewrite live_get_table_names_run.
  destruct (unreadable s) as [m|] eqn:U.
  { intros E. inversion E. reflexivity. }
  destruct (negb (str_in table_name _)); [discriminate|].
  destruct (edit_statement table_name form_dict) as [query params].
  apply live_execute_commit_raises.
Qed.

Lemma live_delete_record_try_raises (table_name : str)
    (form_data : list (str * str)) (s s1 : Session) (message : str) :
  Live.delete_record_try table_name form_data s
  = (Raise (SQLAlchemyError message), s1) ->
  leaves_transaction_open s s1 -> committed s1 = committed s.
Proof.
  unfold Live.delete_record_try. unfold bind at 1.
  destruct (dict_del (lit "table_name") (form_dict_of form_data))
    as [form_dict|]; cbn [or_raise]; [|discriminate].
  unfold ret at 1. unfold bind at 1. rewrite live_get_table_names_run.
  destruct (unreadable s) as [m|] eqn:U.
  { intros E. inversion E. reflexivity. }
  destruct (negb (str_in table_name _)); [discriminate|].
  destruct (delete_statement table_name form_dict) as [query params].
  apply live_execute_commit_raises.
Qed.

End LiveRuns.

Section LiveSqlEditor.
Context `{Server}.

(** What the [except SQLAlchemyError] clause of [execute_sql] answers. *)
Lemma live_execute_sql_except (sql_query message : str) (s s1 : Session) :
  Live.execute_sql_try (strip sql_query) s
  = (Raise (SQLAlchemyError message), s1) ->
  exists error_message,
    sql_error_message message (rolled_back s1)
    = (Ok error_message, rolled_back s1) /\
    Live.execute_sql sql_query s =
      (match unreadable (rolled_back s1) with
       | Some lost => Raise (SQLAlchemyError lost)
       | None =>
           Ok (SqlPage
                 {| sql_tables :=
                      map tbl_name (cat_tables (catalogue (committed s1)));
                    sql_current_query := lit "custom_sql";
                    sql_columns := [];
                    sql_data := [];
                    sql_query_text := strip sql_query;
                    sql_error := Some error_message;
                    sql_success := None |})
       end, rolled_back s1).
Proof.
  intros E.
  destruct (sql_error_message_run message (rolled_back s1))
    as [error_message [Em _]].
  exists error_message. split; [exact Em|].
  unfold Live.execute_sql, try_except. rewrite E.
  unfold bind at 1, db_rollback, record_call. cbv zeta.
  cbn [committed working calls closed]. fold (rolled_back s1).
  unfold bind at 1, exc_str. rewrite Em. rewrite live_sql_page_run.
  destruct (unreadable (rolled_back s1)); reflexivity.
Qed.

(** The clause [except Exception] of [execute_sql]. *)
Lemma live_execute_sql_unexpected (sql_query : str) (s s1 : Session)
    (e : exc) :
  Live.execute_sql_try (strip sql_query) s = (Raise e, s1) ->
  (forall message, e <> SQLAlchemyError message) ->
  Live.execute_sql sql_query s =
    Live.sql_page [] [] (strip sql_query)
      (Some (lit "Неожиданная ошибка: " ++ exc_str e)) None s1.
Proof.
  intros E He. unfold Live.execute_sql, try_except. rewrite E.
  destruct e; try reflexivity. exfalso. apply (He message). reflexivity.
Qed.

Lemma new_calls_two (s s1 : Session) (a b : db_call) :
  calls s1 = (calls s ++ [a]) ++ [b] -> new_calls s s1 = [a; b].
Proof.
  intros E. apply new_calls_app. rewrite E, <- app_assoc. reflexivity.
Qed.

(** When the [try] block of [execute_sql] raises a [SQLAlchemyError], either
    nothing has been committed or the error comes from listing the tables
    after the commit. *)
Lemma live_execute_sql_try_raises (sql_query message : str)
    (s s1 : Session) :
  Live.execute_sql_try sql_query s = (Raise (SQLAlchemyError message), s1) ->
  leaves_transaction_open s s1 ->
  committed s1 = committed s \/
  (In Commit (new_calls s s1) /\ committed s1 = working s1 /\
   unreadable s1 = Some message).
Proof.
  unfold Live.execute_sql_try. destruct (is_empty sql_query).
  { rewrite live_sql_page_run. destruct (unreadable s); intros E;
      inversion E. left. reflexivity. }
  unfold bind at 1.
  destruct (query_type_of sql_query) as [query_type|]; cbn [or_raise];
    [|discriminate].
  unfold ret at 1. cbv beta iota.
  assert (Hcommit :
    forall k : ResultSet -> option str,
      (result <- Live.db_execute sql_query [] ;; db_commit ;;;
       Live.sql_page [] [] sql_query None (k result)) s
      = (Raise (SQLAlchemyError message), s1) ->
      leaves_transaction_open s s1 ->
      committed s1 = committed s \/
      (In Commit (new_calls s s1) /\ committed s1 = working s1 /\
       unreadable s1 = Some message)).
  { intros k.
    rewrite (live_execute_commit_run sql_query []
               (fun result =>
                  Live.sql_page [] [] sql_query None (k result)) s).
    destruct (sql_run sql_query [] (working s)) as [[rs d]|m].
    - destruct (sql_commit d) as [m|].
      + intros E Hq. inversion E. subst. left.
        apply (quiet_executed sql_query [] d s _ [Commit]);
          [|reflexivity|exact Hq].
        cbn [commit_failed executed calls]. rewrite <- app_assoc.
        reflexivity.
      + rewrite live_sql_page_run.
        destruct (unreadable (commit_done (executed sql_query [] d s)))
          as [lost|] eqn:U; [|discriminate].
        intros E Hq. inversion E. subst. right.
        split; [|split; [reflexivity|exact U]].
        rewrite (new_calls_two s _ (Execute sql_query []) Commit);
          [right; left; reflexivity|reflexivity].
    - intros E Hq. inversion E. subst. left.
      apply (quiet_executed sql_query [] (working s) s _ []);
        [reflexivity|reflexivity|exact Hq]. }
  destruct (str_eqb query_type (lit "SELECT")).
  { unfold bind at 1, Live.execute_custom_query. unfold bind at 1.
    rewrite live_db_execute_run.
    destruct (sql_run sql_query [] (working s)) as [[rs d]|m].
    - unfold bind at 1.
      destruct (pure_rows_as_dicts (rs_keys rs) (rs_rows rs)
                  (executed sql_query [] d s)) as [r [Er Hr]].
      rewrite Er. destruct r as [data|e].
      + unfold ret at 1. cbv beta iota zeta. rewrite live_sql_page_run.
        destruct (unreadable (executed sql_query [] d s)); [|discriminate].
        intros E Hq. inversion E. subst. left.
        apply (quiet_executed sql_query [] d s _ []);
          [reflexivity|reflexivity|exact Hq].
      + intros E. inversion E. subst e.
        discriminate (Hr _ eq_refl).
    - intros E Hq. inversion E. subst. left.
      apply (quiet_executed sql_query [] (working s) s _ []);
        [reflexivity|reflexivity|exact Hq]. }
  destruct (str_in query_type [lit "INSERT"; lit "UPDATE"; lit "DELETE"]).
  { apply (Hcommit
             (fun result =>
                Some (lit "Запрос выполнен успешно. Затронуто строк: "
                      ++ str_of_Z (rs_rowcount result)))). }
  destruct (str_in query_type dangerous_keywords).
  { rewrite live_sql_page_run. destruct (unreadable s); intros E;
      inversion E. left. reflexivity. }
  apply (Hcommit (fun _ => Some (lit "Запрос выполнен успешно"))).
Qed.

End LiveSqlEditor.

Section LiveDatabaseErrors.
Context `{Server}.

(** The redirect of the clause [except SQLAlchemyError] of a record
    handler, as its f-string spells it. *)
Lemma danger_url (table_name message : str) :
  view_url table_name (lit "Ошибка при добавлении записи: " ++ message)
    (lit "danger")
  = lit "/view?table_name=" ++ table_name
    ++ lit "&message=Ошибка при добавлении записи: " ++ message
    ++ lit "&message_type=danger" /\
  view_url table_name (lit "Ошибка при обновлении записи: " ++ message)
    (lit "danger")
  = lit "/view?table_name=" ++ table_name
    ++ lit "&message=Ошибка при обновлении записи: " ++ message
    ++ lit "&message_type=danger" /\
  view_url table_name (lit "Ошибка при удалении записи: " ++ message)
    (lit "danger")
  = lit "/view?table_name=" ++ table_name
    ++ lit "&message=Ошибка при удалении записи: " ++ message
    ++ lit "&message_type=danger".
Proof.
  unfold view_url.
  replace (lit "&message_type=danger")
    with (lit "&message_type=" ++ lit "danger")
    by (vm_compute; reflexivity).
  replace (lit "&message=Ошибка при добавлении записи: ")
    with (lit "&message=" ++ lit "Ошибка при добавлении записи: ")
    by (vm_compute; reflexivity).
  replace (lit "&message=Ошибка при обновлении записи: ")
    with (lit "&message=" ++ lit "Ошибка при обновлении записи: ")
    by (vm_compute; reflexivity).
  replace (lit "&message=Ошибка при удалении записи: ")
    with (lit "&message=" ++ lit "Ошибка при удалении записи: ")
    by (vm_compute; reflexivity).
  rewrite <- !app_assoc. repeat split; reflexivity.
Qed.

Lemma live_record_except (table_name what message : str) (r : M Response)
    (s s1 : Session) :
  r s = (Raise (SQLAlchemyError message), s1) ->
  try_except r (redirect_on_db_error table_name what) s =
    (Ok (RedirectResponse
           (view_url table_name (what ++ message) (lit "danger")) 303),
     rolled_back s1).
Proof. intros E. unfold try_except. rewrite E. reflexivity. Qed.

(** C9. When the [try] block of [add_record], [edit_record] or
    [delete_record] raises a [SQLAlchemyError], be it from reading the
    catalogue, from [db.execute] or from [db.commit], the handler calls
    [db.rollback()] and returns the redirect to [/view] whose message
    reports the error with [message_type=danger]; the database then holds
    the data it held before the request, unless the statement itself ended
    the transaction.  When the [try] block of [execute_sql] raises a
    [SQLAlchemyError], the handler calls [db.rollback()] and builds the SQL
    page with the error message; it returns that page when the list of
    tables can be read, and otherwise the error of that read leaves the
    handler.  The database then holds the data it held before, unless the
    statement itself ended the transaction or the error came from listing
    the tables after the commit had gone through. *)
Theorem handlers_roll_back_on_database_error :
  (forall table_name form_data message s s1,
     Live.add_record_try table_name form_data s
     = (Raise (SQLAlchemyError message), s1) ->
     Live.add_record table_name form_data s =
       (Ok (RedirectResponse
              (lit "/view?table_name=" ++ table_name
               ++ lit "&message=Ошибка при добавлении записи: " ++ message
               ++ lit "&message_type=danger") 303),
        rolled_back s1) /\
     (leaves_transaction_open s s1 ->
      committed (rolled_back s1) = committed s /\
      working (rolled_back s1) = committed s)) /\
  (forall table_name form_data message s s1,
     Live.edit_record_try table_name form_data s
     = (Raise (SQLAlchemyError message), s1) ->
     Live.edit_record table_name form_data s =
       (Ok (RedirectResponse
              (lit "/view?table_name=" ++ table_name
               ++ lit "&message=Ошибка при обновлении записи: " ++ message
               ++ lit "&message_type=danger") 303),
        rolled_back s1) /\
     (leaves_transaction_open s s1 ->
      committed (rolled_back s1) = committed s /\
      working (rolled_back s1) = committed s)) /\
  (forall table_name form_data message s s1,
     Live.delete_record_try table_name form_data s
     = (Raise (SQLAlchemyError message), s1) ->
     Live.delete_record table_name form_data s =
       (Ok (RedirectResponse
              (lit "/view?table_name=" ++ table_name
               ++ lit "&message=Ошибка при удалении записи: " ++ message
               ++ lit "&message_type=danger") 303),
        rolled_back s1) /\
     (leaves_transaction_open s s1 ->
      committed (rolled_back s1) = committed s /\
      working (rolled_back s1) = committed s)) /\
  (forall sql_query message s s1,
     Live.execute_sql_try (strip sql_query) s
     = (Raise (SQLAlchemyError message), s1) ->
     (exists error_message,
        startswith error_message (first_line message) = true /\
        Live.execute_sql sql_query s =
          (match unreadable (rolled_back s1) with
           | Some lost => Raise (SQLAlchemyError lost)
           | None =>
               Ok (SqlPage
                     {| sql_tables :=
                          map tbl_name
                            (cat_tables (catalogue (committed s1)));
                        sql_current_query := lit "custom_sql";
                        sql_columns := [];
                        sql_data := [];
                        sql_query_text := strip sql_query;
                        sql_error := Some error_message;
                        sql_success := None |})
           end, rolled_back s1)) /\
     (leaves_transaction_open s s1 ->
      (committed (rolled_back s1) = committed s /\
       working (rolled_back s1) = committed s) \/
      (In Commit (new_calls s s1) /\ unreadable s1 = Some message /\
       committed (rolled_back s1) = working s1))).
Proof.
  split; [|split; [|split]].
  - intros table_name form_data message s s1 E. split.
    + unfold Live.add_record. rewrite (live_record_except _ _ _ _ _ _ E).
      rewrite (proj1 (danger_url table_name message)). reflexivity.
    + intros Hq. cbn [rolled_back committed working].
      rewrite (live_add_record_try_raises _ _ _ _ _ E Hq). auto.
  - intros table_name form_data message s s1 E. split.
    + unfold Live.edit_record. rewrite (live_record_except _ _ _ _ _ _ E).
      rewrite (proj1 (proj2 (danger_url table_name message))). reflexivity.
    + intros Hq. cbn [rolled_back committed working].
      rewrite (live_edit_record_try_raises _ _ _ _ _ E Hq). auto.
  - intros table_name form_data message s s1 E. split.
    + unfold Live.delete_record. rewrite (live_record_except _ _ _ _ _ _ E).
      rewrite (proj2 (proj2 (danger_url table_name message))). reflexivity.
    + intros Hq. cbn [rolled_back committed working].
      rewrite (live_delete_record_try_raises _ _ _ _ _ E Hq). auto.
  - intros sql_query message s s1 E. split.
    + destruct (live_execute_sql_except _ _ _ _ E)
        as [error_message [Em Er]].
      exists error_message. split; [|exact Er].
      destruct (sql_error_message_run message (rolled_back s1))
        as [error_message' [Em' [_ [Hp _]]]].
      rewrite Em in Em'. inversion Em'. subst. exact Hp.
    + intros Hq. cbn [rolled_back committed working].
      destruct (live_execute_sql_try_raises _ _ _ _ E Hq)
        as [Hc|[Hin [Hc Hu]]].
      * left. rewrite Hc. auto.
      * right. auto.
Qed.

End LiveDatabaseErrors.


(** * What the SQL editor answers on a server that can fail *)

Section LiveSqlEditorRuns.
Context `{Server}.

Lemma live_sql_page_outcome (columns : list str) (data : list Row)
    (sql_query : str) (error success : option str) (s s0 : Session) :
  closed s0 = closed s ->
  (error = None <-> success <> None) ->
  closed (snd (Live.sql_page columns data sql_query error success s0))
  = closed s /\
  forall response,
    fst (Live.sql_page columns data sql_query error success s0)
    = Ok response ->
    answers_with sql_query
      (fst (Live.sql_page columns data sql_query error success s0))
      (snd (Live.sql_page columns data sql_query error success s0)) /\
    unreadable
      (snd (Live.sql_page columns data sql_query error success s0)) = None.
Proof.
  intros Hc Hone. rewrite live_sql_page_run.
  destruct (unreadable s0) eqn:U; cbn [fst snd].
  - split; [exact Hc|discriminate].
  - split; [exact Hc|]. intros response _. split; [|exact U].
    eexists. split; [reflexivity|].
    cbn [sql_query_text sql_current_query sql_tables sql_error sql_success].
    repeat split; try reflexivity; apply Hone.
Qed.

(** Whatever the [try] block of [execute_sql] returns is a page for the
    query, built when the list of tables could be read; the block does not
    close the session. *)
Lemma live_execute_sql_try_outcome (sql_query : str) (s : Session)
    (run : result Response * Session) :
  run = Live.execute_sql_try sql_query s ->
  closed (snd run) = closed s /\
  forall response,
    fst run = Ok response ->
    answers_with sql_query (fst run) (snd run) /\
    unreadable (snd run) = None.
Proof.
  assert (Hraise : forall e s0,
    closed s0 = closed s ->
    closed (snd (@Raise Response e, s0)) = closed s /\
    forall response,
      fst (@Raise Response e, s0) = Ok response ->
      answers_with sql_query (fst (@Raise Response e, s0))
        (snd (@Raise Response e, s0)) /\
      unreadable (snd (@Raise Response e, s0)) = None).
  { intros e s0 Hc. split; [exact Hc|discriminate]. }
  assert (Hcommit :
    forall (k : ResultSet -> str) run,
      run =
        (result <- Live.db_execute sql_query [] ;; db_commit ;;;
         Live.sql_page [] [] sql_query None (Some (k result))) s ->
      closed (snd run) = closed s /\
      forall response,
        fst run = Ok response ->
        answers_with sql_query (fst run) (snd run) /\
        unreadable (snd run) = None).
  { intros k run' Erun.
    rewrite (live_execute_commit_run sql_query []
               (fun result =>
                  Live.sql_page [] [] sql_query None (Some (k result))) s)
      in Erun.
    destruct (sql_run sql_query [] (working s)) as [[rs d]|m].
    - destruct (sql_commit d) as [m|]; rewrite Erun.
      + apply Hraise. reflexivity.
      + apply live_sql_page_outcome; [reflexivity|apply one_of_success].
    - rewrite Erun. apply Hraise. reflexivity. }
  intros Erun. unfold Live.execute_sql_try in Erun.
  destruct (is_empty sql_query).
  { rewrite Erun.
    apply live_sql_page_outcome; [reflexivity|apply one_of_error]. }
  unfold bind at 1 in Erun.
  destruct (query_type_of sql_query) as [query_type|]; cbn [or_raise] in Erun.
  2:{ rewrite Erun. apply Hraise. reflexivity. }
  unfold ret at 1 in Erun. cbv beta iota in Erun.
  destruct (str_eqb query_type (lit "SELECT")).
  { unfold bind at 1, Live.execute_custom_query in Erun.
    unfold bind at 1 in Erun. rewrite live_db_execute_run in Erun.
    destruct (sql_run sql_query [] (working s)) as [[rs d]|m].
    - unfold bind at 1 in Erun.
      destruct (pure_rows_as_dicts (rs_keys rs) (rs_rows rs)
                  (executed sql_query [] d s)) as [r [Er _]].
      rewrite Er in Erun. destruct r as [data|e].
      + unfold ret at 1 in Erun. cbv beta iota zeta in Erun. rewrite Erun.
        apply live_sql_page_outcome; [reflexivity|apply one_of_success].
      + rewrite Erun. apply Hraise. reflexivity.
    - rewrite Erun. apply Hraise. reflexivity. }
  destruct (str_in query_type [lit "INSERT"; lit "UPDATE"; lit "DELETE"]).
  { apply (Hcommit
             (fun result =>
                lit "Запрос выполнен успешно. Затронуто строк: "
                ++ str_of_Z (rs_rowcount result))).
    exact Erun. }
  destruct (str_in query_type dangerous_keywords).
  { rewrite Erun.
    apply live_sql_page_outcome; [reflexivity|apply one_of_error]. }
  apply (Hcommit (fun _ => lit "Запрос выполнен успешно")). exact Erun.
Qed.

(** X1. [execute_sql] lets no exception of its [try] block through.  When
    the list of tables can be read at the end of the request, the handler
    has answered with the SQL page: the page echoes the stripped query,
    lists the tables that the database holds, and carries exactly one of
    [sql_error] and [sql_success].  Otherwise the [SQLAlchemyError] of that
    read has left the handler, and it is the only exception that can.  The
    handler does not close the session. *)
Theorem execute_sql_always_answers (sql_query : str) (s : Session) :
  closed (snd (Live.execute_sql sql_query s)) = closed s /\
  match unreadable (snd (Live.execute_sql sql_query s)) with
  | None =>
      answers_with (strip sql_query)
        (fst (Live.execute_sql sql_query s))
        (snd (Live.execute_sql sql_query s))
  | Some lost =>
      fst (Live.execute_sql sql_query s) = Raise (SQLAlchemyError lost)
  end.
Proof.
  destruct (live_execute_sql_try_outcome (strip sql_query) s _ eq_refl)
    as [Hc Ha].
  destruct (Live.execute_sql_try (strip sql_query) s) as [[r|e] s1] eqn:E.
  - assert (Er : Live.execute_sql sql_query s = (Ok r, s1)).
    { unfold Live.execute_sql, try_except. rewrite E. reflexivity. }
    rewrite Er. cbn [fst snd] in *. split; [exact Hc|].
    destruct (Ha r eq_refl) as [Hp Hu]. rewrite Hu. exact Hp.
  - cbn [fst snd] in Hc.
    assert (Hpage : forall error,
      closed (snd (Live.sql_page [] [] (strip sql_query) (Some error) None
                     (rolled_back s1))) = closed s /\
      closed (snd (Live.sql_page [] [] (strip sql_query) (Some error) None
                     s1)) = closed s).
    { intros error. rewrite !live_sql_page_run.
      destruct (unreadable (rolled_back s1)), (unreadable s1);
        split; exact Hc. }
    destruct e as [message| | |].
    + destruct (live_execute_sql_except _ _ _ _ E) as [error [_ Er]].
      rewrite Er. cbn [fst snd]. split; [exact Hc|].
      destruct (unreadable (rolled_back s1)); [reflexivity|].
      eexists. split; [reflexivity|].
      cbn [sql_query_text sql_current_query sql_tables sql_error
           sql_success].
      repeat split; try reflexivity; apply one_of_error.
    + rewrite (live_execute_sql_unexpected _ _ _ _ E);
        [|intros m; discriminate].
      rewrite live_sql_page_run.
      destruct (unreadable s1) eqn:U; cbn [fst snd]; rewrite U;
        split; try exact Hc; try reflexivity.
      eexists. split; [reflexivity|].
      cbn [sql_query_text sql_current_query sql_tables sql_error
           sql_success].
      repeat split; try reflexivity; apply one_of_error.
    + rewrite (live_execute_sql_unexpected _ _ _ _ E);
        [|intros m; discriminate].
      rewrite live_sql_page_run.
      destruct (unreadable s1) eqn:U; cbn [fst snd]; rewrite U;
        split; try exact Hc; try reflexivity.
      eexists. split; [reflexivity|].
      cbn [sql_query_text sql_current_query sql_tables sql_error
           sql_success].
      repeat split; try reflexivity; apply one_of_error.
    + rewrite (live_execute_sql_unexpected _ _ _ _ E);
        [|intros m; discriminate].
      rewrite live_sql_page_run.
      destruct (unreadable s1) eqn:U; cbn [fst snd]; rewrite U;
        split; try exact Hc; try reflexivity.
      eexists. split; [reflexivity|].
      cbn [sql_query_text sql_current_query sql_tables sql_error
           sql_success].
      repeat split; try reflexivity; apply one_of_error.
Qed.

Lemma live_execute_sql_try_select (sql_query token : str) (s : Session) :
  first_token sql_query = Some token ->
  upper token = lit "SELECT" ->
  Live.execute_sql_try (strip sql_query) s =
    ('(columns, data) <- Live.execute_custom_query (strip sql_query) ;;
     Live.sql_page columns data (strip sql_query) None
       (Some (lit "Запрос выполнен успешно. Найдено записей: "
              ++ str_of_Z (Z.of_nat (length data))))) s.
Proof.
  intros Ht Hu. unfold Live.execute_sql_try.
  rewrite (first_token_is_empty _ _ Ht). unfold bind at 1.
  rewrite query_type_of_strip, Ht. cbn [option_map or_raise].
  unfold ret at 1. cbv beta iota. rewrite Hu. reflexivity.
Qed.

(** The sessions in which a SELECT may leave the handler. *)
Lemma live_select_sessions (sql_query token : str) (s : Session) :
  first_token sql_query = Some token ->
  upper token = lit "SELECT" ->
  exists d,
    snd (Live.execute_sql sql_query s) = executed (strip sql_query) [] d s \/
    snd (Live.execute_sql sql_query s)
    = rolled_back (executed (strip sql_query) [] d s).
Proof.
  intros Ht Hu.
  pose proof (live_execute_sql_try_select sql_query token s Ht Hu) as Etry.
  unfold bind at 1, Live.execute_custom_query in Etry.
  unfold bind at 1 in Etry. rewrite live_db_execute_run in Etry.
  destruct (sql_run (strip sql_query) [] (working s)) as [[rs d]|m].
  - exists d. unfold bind at 1 in Etry.
    destruct (pure_rows_as_dicts (rs_keys rs) (rs_rows rs)
                (executed (strip sql_query) [] d s)) as [r [Er Hr]].
    rewrite Er in Etry. destruct r as [data|e].
    + unfold ret at 1 in Etry. cbv beta iota zeta in Etry.
      rewrite live_sql_page_run in Etry.
      destruct (unreadable (executed (strip sql_query) [] d s)).
      * destruct (live_execute_sql_except _ _ _ _ Etry) as [msg [_ E]].
        rewrite E. right. reflexivity.
      * unfold Live.execute_sql, try_except. rewrite Etry. left. reflexivity.
    + rewrite (Hr e eq_refl) in Etry.
      rewrite (live_execute_sql_unexpected _ _ _ _ Etry);
        [|intros m; discriminate].
      rewrite live_sql_page_run. left.
      destruct (unreadable (executed (strip sql_query) [] d s));
        reflexivity.
  - exists (working s).
    destruct (live_execute_sql_except _ _ _ _ Etry) as [msg [_ E]].
    rewrite E. right. reflexivity.
Qed.

(** X2. A query whose first token is SELECT in any letter case is executed
    as it was submitted, stripped and without parameters, and the handler
    never calls [db.commit()] for it: the database holds afterwards what it
    held before, unless the text itself ended the transaction.  When the
    statement raises, the handler rolls back.  When the database answers
    with rows that have a cell for every column, the handler rolls back if
    the list of tables cannot be read for the page, and otherwise makes no
    further call and returns the page, which shows the columns of the
    result, the dictionary [dict(zip(columns, cells))] of the JSON-safe
    cells of every fetched row, and a success message that counts the
    rows. *)
Theorem execute_sql_select_never_commits
    (sql_query token : str) (s : Session) :
  first_token sql_query = Some token ->
  upper token = lit "SELECT" ->
  ~ In Commit (new_calls s (snd (Live.execute_sql sql_query s))) /\
  (leaves_transaction_open s (snd (Live.execute_sql sql_query s)) ->
   committed (snd (Live.execute_sql sql_query s)) = committed s) /\
  (forall message,
     sql_run (strip sql_query) [] (working s) = inr message ->
     new_calls s (snd (Live.execute_sql sql_query s))
     = [Execute (strip sql_query) []; Rollback]) /\
  (forall rs d,
     sql_run (strip sql_query) [] (working s) = inl (rs, d) ->
     Forall (row_has_cells (length (rs_keys rs))) (rs_rows rs) ->
     match unreadable (executed (strip sql_query) [] d s) with
     | Some _ =>
         new_calls s (snd (Live.execute_sql sql_query s))
         = [Execute (strip sql_query) []; Rollback]
     | None =>
         Live.execute_sql sql_query s =
           (Ok (SqlPage
                  {| sql_tables :=
                       map tbl_name
                         (cat_tables
                            (catalogue
                               (committed
                                  (executed (strip sql_query) [] d s))));
                     sql_current_query := lit "custom_sql";
                     sql_columns := rs_keys rs;
                     sql_data :=
                       map (fun row =>
                              dict_of_items
                                (combine (rs_keys rs) (map json_safe row)))
                         (rs_rows rs);
                     sql_query_text := strip sql_query;
                     sql_error := None;
                     sql_success :=
                       Some (lit "Запрос выполнен успешно. Найдено записей: "
                             ++ str_of_Z
                                  (Z.of_nat (length (rs_rows rs)))) |}),
            executed (strip sql_query) [] d s)
     end).
Proof.
  intros Ht Hu.
  pose proof (live_execute_sql_try_select sql_query token s Ht Hu) as Etry.
  split; [|split; [|split]].
  - destruct (live_select_sessions sql_query token s Ht Hu) as [d [E|E]];
      rewrite E.
    + rewrite (new_calls_app s _ [Execute (strip sql_query) []]);
        [|reflexivity].
      intros [Hin|[]]. discriminate.
    + rewrite (new_calls_two s _ (Execute (strip sql_query) []) Rollback);
        [|reflexivity].
      intros [Hin|[Hin|[]]]; discriminate.
  - destruct (live_select_sessions sql_query token s Ht Hu) as [d [E|E]];
      rewrite E; intros Hq.
    + apply (quiet_executed (strip sql_query) [] d s _ []);
        [reflexivity|reflexivity|exact Hq].
    + apply (quiet_executed (strip sql_query) [] d s _ [Rollback]);
        [|reflexivity|exact Hq].
      cbn [rolled_back executed calls]. rewrite <- app_assoc. reflexivity.
  - intros message Hrun.
    unfold bind at 1, Live.execute_custom_query in Etry.
    unfold bind at 1 in Etry. rewrite live_db_execute_run, Hrun in Etry.
    destruct (live_execute_sql_except _ _ _ _ Etry) as [msg [_ E]].
    rewrite E. apply new_calls_two. reflexivity.
  - intros rs d Hrun Hrows.
    unfold bind at 1, Live.execute_custom_query in Etry.
    unfold bind at 1 in Etry. rewrite live_db_execute_run, Hrun in Etry.
    unfold bind at 1 in Etry.
    rewrite (rows_as_dicts_items _ _ _ Hrows) in Etry.
    unfold ret at 1 in Etry. cbv beta iota zeta in Etry.
    rewrite live_sql_page_run in Etry.
    destruct (unreadable (executed (strip sql_query) [] d s)).
    + destruct (live_execute_sql_except _ _ _ _ Etry) as [msg [_ E]].
      rewrite E. apply new_calls_two. reflexivity.
    + unfold Live.execute_sql, try_except. rewrite Etry.
      rewrite length_map. reflexivity.
Qed.

End LiveSqlEditorRuns.

(** * The message shown for a database error, continued *)

Lemma startswith_shorter (a b p : str) :
  startswith (a ++ b) p = true -> (length p <= length a)%nat ->
  startswith a p = true.
Proof.
  revert p. induction a as [|x a IH]; intros [|y p]; cbn [app length];
    try reflexivity.
  - intros _ Hl. lia.
  - cbn [startswith]. intros Hs Hl. apply andb_prop in Hs.
    destruct Hs as [Hxy Hs]. rewrite Hxy. apply IH; [exact Hs|lia].
Qed.

Lemma contains_first (s sub : str) :
  contains s sub = false ->
  startswith s sub = false /\
  match s with [] => True | _ :: s' => contains s' sub = false end.
Proof.
  destruct s as [|c s]; cbn [contains]; intros Hc;
    apply orb_false_iff in Hc; destruct Hc as [Hs Hc]; auto.
Qed.

(** A text without the separator is one piece. *)
Lemma split_sep_scan_none (sep part s : str) :
  contains s sep = false ->
  split_sep_scan sep 0 part s = [rev part ++ s].
Proof.
  revert part. induction s as [|c s IH]; intros part Hc.
  - cbn [split_sep_scan]. rewrite app_nil_r. reflexivity.
  - destruct (contains_first _ _ Hc) as [Hs Hc'].
    cbn [split_sep_scan]. rewrite Hs. rewrite (IH (c :: part) Hc').
    cbn [rev]. rewrite <- app_assoc. reflexivity.
Qed.

Lemma split_sep_scan_skip (sep part x y : str) :
  split_sep_scan sep (length x) part (x ++ y) = split_sep_scan sep 0 part y.
Proof.
  induction x as [|c x IH]; [reflexivity|].
  cbn [length app split_sep_scan]. exact IH.
Qed.

(** The piece before the first occurrence of the separator, and the scan of
    what follows it. *)
Lemma split_sep_scan_first (sep before after part : str) :
  sep <> [] ->
  contains (before ++ removelast sep) sep = false ->
  split_sep_scan sep 0 part (before ++ sep ++ after)
  = (rev part ++ before) :: split_sep_scan sep 0 [] after.
Proof.
  intros Hsep. revert part.
  induction before as [|b before IH]; intros part Hc.
  - destruct sep as [|c sep]; [contradiction|].
    cbn [app split_sep_scan].
    change (c :: sep ++ after) with ((c :: sep) ++ after).
    rewrite startswith_prefix. rewrite app_nil_r.
    cbn [length Nat.pred]. rewrite split_sep_scan_skip. reflexivity.
  - destruct (contains_first _ _ Hc) as [Hs Hc'].
    cbn [app split_sep_scan].
    assert (Hn : startswith (b :: before ++ sep ++ after) sep = false).
    { destruct (startswith (b :: before ++ sep ++ after) sep) eqn:E;
        [|reflexivity].
      rewrite <- Hs. symmetry.
      apply (startswith_shorter _ ([last sep 0%N] ++ after)).
      - rewrite <- app_assoc. cbn [app].
        replace (removelast sep ++ last sep 0%N :: after)
          with (sep ++ after).
        + exact E.
        + pose proof (app_removelast_last 0%N Hsep) as Hl.
          rewrite Hl at 1. rewrite <- app_assoc. reflexivity.
      - pose proof (f_equal (@length char) (app_removelast_last 0%N Hsep))
          as Hl.
        rewrite length_app in Hl. cbn [length] in Hl.
        cbn [app length]. rewrite length_app.
        unfold str, char in *. lia. }
    rewrite Hn. rewrite (IH (b :: part) Hc').
    cbn [rev]. rewrite <- app_assoc. reflexivity.
Qed.

Lemma contains_middle (before sep after : str) :
  contains (before ++ sep ++ after) sep = true.
Proof.
  induction before as [|b before IH].
  - cbn [app]. destruct (sep ++ after) as [|c r] eqn:E.
    + destruct sep; [reflexivity|discriminate].
    + cbn [contains]. rewrite <- E, startswith_prefix. reflexivity.
  - cbn [app contains]. rewrite IH. apply orb_true_r.
Qed.

Section ErrorDetail.
Context `{Backend}.

(** The message for a database error with one [DETAIL:] part. *)
Lemma sql_error_message_detail (before after : str) (s : Session) :
  contains (before ++ lit "DETAIL") (lit "DETAIL:") = false ->
  contains after (lit "DETAIL:") = false ->
  sql_error_message (before ++ lit "DETAIL:" ++ after) s =
    (Ok (first_line (before ++ lit "DETAIL:" ++ after) ++ lit " Детали: "
         ++ strip (first_line after)), s).
Proof.
  intros Hb Ha. unfold sql_error_message, split_sep.
  destruct (split_newline_head [] (before ++ lit "DETAIL:" ++ after))
    as [rest E].
  rewrite E. cbn [rev app nth_error or_raise]. unfold bind at 1, ret at 1.
  rewrite contains_middle.
  rewrite (split_sep_scan_first (lit "DETAIL:") before after []).
  - rewrite (split_sep_scan_none _ [] after Ha).
    cbn [rev app nth_error or_raise]. unfold bind at 1, ret at 1.
    destruct (split_newline_head [] after) as [rest' E'].
    rewrite E'. cbn [rev app nth_error or_raise].
    unfold bind at 1, ret at 1. reflexivity.
  - discriminate.
  - replace (removelast (lit "DETAIL:")) with (lit "DETAIL")
      by (vm_compute; reflexivity).
    exact Hb.
Qed.

End ErrorDetail.

Section LiveErrorMessage.
Context `{Server}.

(** X17. The error that [execute_sql] shows when the database raises is one
    line.  It begins with the first line of the message of the database and
    is exactly that line when the message has no [DETAIL:] part.  When the
    message has one [DETAIL:] part, the error is that first line, followed
    by [ Детали: ] and by the line after [DETAIL:] without the whitespace
    around it.  The page is shown when the list of tables can be read after
    the rollback. *)
Theorem execute_sql_shows_one_line_error
    (sql_query message : str) (s s1 : Session) :
  Live.execute_sql_try (strip sql_query) s
  = (Raise (SQLAlchemyError message), s1) ->
  unreadable (rolled_back s1) = None ->
  exists page error_message,
    fst (Live.execute_sql sql_query s) = Ok (SqlPage page) /\
    sql_error page = Some error_message /\
    sql_success page = None /\
    single_line error_message = true /\
    startswith error_message (first_line message) = true /\
    (contains message (lit "DETAIL:") = false ->
     error_message = first_line message) /\
    (forall before after,
       message = before ++ lit "DETAIL:" ++ after ->
       contains (before ++ lit "DETAIL") (lit "DETAIL:") = false ->
       contains after (lit "DETAIL:") = false ->
       error_message
       = first_line message ++ lit " Детали: " ++ strip (first_line after)).
Proof.
  intros E Hu.
  destruct (live_execute_sql_except _ _ _ _ E) as [error_message [Em Er]].
  rewrite Hu in Er. rewrite Er. cbn [fst].
  eexists. exists error_message. split; [reflexivity|].
  cbn [sql_error sql_success]. split; [reflexivity|]. split; [reflexivity|].
  destruct (sql_error_message_run message (rolled_back s1))
    as [error_message' [Em' [Hs [Hp Hd]]]].
  rewrite Em in Em'. inversion Em'. subst error_message'.
  split; [exact Hs|]. split; [exact Hp|]. split; [exact Hd|].
  intros before after Hm Hb Ha. subst message.
  rewrite (sql_error_message_detail before after _ Hb Ha) in Em.
  inversion Em. reflexivity.
Qed.

End LiveErrorMessage.

(** * The errors of the schema endpoint *)

Section LiveSchema.
Context `{Server}.

Lemma live_lookup_raises (name : str) (all rest : list ForeignKey)
    (s s' : Session) (e : exc) :
  incl rest all ->
  Live.foreign_key_lookup name rest s = (Raise e, s') ->
  lookup_failed all e s'.
Proof.
  induction rest as [|fk rest IH]; intros Hin;
    cbn [Live.foreign_key_lookup]; [discriminate|].
  destruct (str_in name (constrained_columns fk)).
  2:{ apply IH. intros x Hx. apply Hin. right. exact Hx. }
  assert (Hfk : In fk all) by (apply Hin; left; reflexivity).
  unfold bind at 1.
  destruct (nth_error (referred_columns fk) 0) as [target|] eqn:Et;
    cbn [or_raise].
  2:{ intros E. inversion E. subst. right. split; [reflexivity|].
      exists fk. split; [exact Hfk|]. left.
      destruct (referred_columns fk); [reflexivity|discriminate]. }
  unfold ret at 1. unfold bind at 1. rewrite live_db_execute_run.
  unfold distinct_statement.
  match goal with
  | |- context [sql_run ?q [] (working s)] =>
      destruct (sql_run q [] (working s)) as [[rs d]|m] eqn:Er
  end.
  - unfold bind at 1.
    match goal with
    | |- context [for_each ?f ?l ?S] =>
        destruct (for_each f l S) as [[values|e'] s1] eqn:Ev
    end; [discriminate|].
    intros E. inversion E. subst.
    pose proof (first_cells_state _ _ _ _ Ev) as Hs. subst s'.
    assert (He : e = IndexError).
    { assert (Hp : pure_raising (fun e => e = IndexError)
                     (for_each (fun row : list pyval =>
                                  or_raise IndexError (nth_error row 0))
                        (rs_rows rs))).
      { apply pure_for_each. intros row. apply pure_or_raise. reflexivity. }
      destruct (Hp (executed
                      (lit "SELECT DISTINCT " ++ dq ++ target ++ dq
                       ++ lit " FROM " ++ dq ++ referred_table fk ++ dq)
                      [] d s)) as [r [Er' Hr]].
      rewrite Er' in Ev. inversion Ev. subst. apply Hr. reflexivity. }
    subst e. right. split; [reflexivity|].
    exists fk. split; [exact Hfk|]. right.
    exists target, (calls s). split; [exact Et|reflexivity].
  - intros E. inversion E. subst. left.
    exists m, fk, target, (calls s).
    repeat split; try assumption; reflexivity.
Qed.

Lemma live_columns_raise (fks : list ForeignKey) (columns : list Column)
    (s s' : Session) (e : exc) :
  for_each (Live.column_info fks) columns s = (Raise e, s') ->
  lookup_failed fks e s'.
Proof.
  revert s. induction columns as [|column columns IH]; intros s;
    cbn [for_each]; [discriminate|].
  unfold bind at 1, Live.column_info at 1, bind at 1.
  destruct (Live.foreign_key_lookup (col_name column) fks s)
    as [[[is_fk info]|e'] s1] eqn:El.
  - unfold ret at 1. unfold bind at 1.
    destruct (for_each (Live.column_info fks) columns s1)
      as [[infos|e'] s2] eqn:Er; [discriminate|].
    intros E. inversion E. subst. apply (IH s1 Er).
  - intros E. inversion E. subst.
    apply (live_lookup_raises _ fks fks s _ _ (incl_refl fks) El).
Qed.

(** X13. [get_table_schema] lets no [SQLAlchemyError] through.  When the
    catalogue cannot be read it raises the HTTP error 500 with the message
    of that error, and when the catalogue can be read and does not list the
    table it raises the HTTP error 404, in both cases without a call on the
    session.  Any other exception comes from the look-up of the values of a
    foreign key of the table: the HTTP error 500 with the message that the
    database gave to the [SELECT DISTINCT] of that key, which is the last
    call on the session, or [IndexError] for a key without a referred
    column or a fetched row without a cell. *)
Theorem get_table_schema_raises_http_errors
    (table_name : str) (s : Session) :
  (forall message,
     unreadable s = Some message ->
     Live.get_table_schema table_name s
     = (Raise (HTTPException 500 (lit "Ошибка базы данных: " ++ message)),
        s)) /\
  (unreadable s = None ->
   str_in table_name (map tbl_name (cat_tables (catalogue (committed s))))
   = false ->
   Live.get_table_schema table_name s
   = (Raise (HTTPException 404
               (lit "Таблица " ++ table_name ++ lit " не найдена")), s)) /\
  (forall e s',
     unreadable s = None ->
     str_in table_name (map tbl_name (cat_tables (catalogue (committed s))))
     = true ->
     Live.get_table_schema table_name s = (Raise e, s') ->
     let foreign_keys :=
       cat_foreign_keys (catalogue (committed s)) table_name in
     (exists message fk target log,
        e = HTTPException 500 (lit "Ошибка базы данных: " ++ message) /\
        In fk foreign_keys /\
        nth_error (referred_columns fk) 0 = Some target /\
        calls s'
        = log ++ [Execute (lit "SELECT DISTINCT " ++ dq ++ target ++ dq
                           ++ lit " FROM " ++ dq ++ referred_table fk
                           ++ dq) []] /\
        sql_run (lit "SELECT DISTINCT " ++ dq ++ target ++ dq
                 ++ lit " FROM " ++ dq ++ referred_table fk ++ dq) []
          (working s')
        = inr message) \/
     (e = IndexError /\
      exists fk,
        In fk foreign_keys /\
        (referred_columns fk = [] \/
         exists target log,
           nth_error (referred_columns fk) 0 = Some target /\
           calls s'
           = log ++ [Execute (lit "SELECT DISTINCT " ++ dq ++ target ++ dq
                              ++ lit " FROM " ++ dq ++ referred_table fk
                              ++ dq) []]))).
Proof.
  split; [|split].
  - intros message U.
    unfold Live.get_table_schema, try_except, bind at 1,
      Live.get_table_names.
    rewrite U. reflexivity.
  - intros U Hn.
    unfold Live.get_table_schema, try_except, bind at 1,
      Live.get_table_names.
    rewrite U, Hn. reflexivity.
  - intros e s' U Hin.
    destruct (find_table_listed _ _ Hin) as [table Hfind].
    unfold Live.get_table_schema, try_except, bind at 1,
      Live.get_table_names.
    rewrite U, Hin. cbn [negb].
    unfold bind at 1, Live.get_table_info, bind at 1, Live.reflect.
    rewrite U, Hfind. unfold ret at 1. unfold bind at 1. rewrite U, Hfind.
    unfold bind at 1, Live.get_foreign_keys. rewrite U. unfold bind at 1.
    destruct (for_each _ (tbl_columns table) s) as [[infos|e0] s0] eqn:Ef.
    + discriminate.
    + pose proof (live_columns_raise _ _ _ _ _ Ef) as Hl.
      destruct Hl as [[m [fk [target [log [He [Hfk [Ht [Hc Hr]]]]]]]]
                     |[He Hfk]]; subst e0.
      * intros E. inversion E. subst. left.
        exists m, fk, target, log. auto.
      * intros E. inversion E. subst. right. auto.
Qed.

End LiveSchema.

(** * The handlers on a steady server

    On the server that always answers and whose statements leave the
    transaction open, the handlers of [Live] are the handlers that the
    other properties are about. *)

Section Steady.
Context `{Backend}.

Lemma steady_execute_sql (sql_query : str) (s : Session) :
  @Live.execute_sql _ _ steady sql_query s = execute_sql sql_query s.
Proof. reflexivity. Qed.

Lemma steady_add_record (table_name : str) (form_data : list (str * str))
    (s : Session) :
  @Live.add_record _ _ steady table_name form_data s
  = add_record table_name form_data s.
Proof. reflexivity. Qed.

Lemma steady_edit_record (table_name : str) (form_data : list (str * str))
    (s : Session) :
  @Live.edit_record _ _ steady table_name form_data s
  = edit_record table_name form_data s.
Proof. reflexivity. Qed.

Lemma steady_delete_record (table_name : str) (form_data : list (str * str))
    (s : Session) :
  @Live.delete_record _ _ steady table_name form_data s
  = delete_record table_name form_data s.
Proof. reflexivity. Qed.

Lemma steady_foreign_key_lookup (name : str) (fks : list ForeignKey)
    (s : Session) :
  @Live.foreign_key_lookup _ _ steady name fks s
  = foreign_key_lookup name fks s.
Proof.
  induction fks as [|fk fks IH];
    cbn [Live.foreign_key_lookup foreign_key_lookup]; [reflexivity|].
  destruct (str_in name (constrained_columns fk)); [reflexivity|exact IH].
Qed.

Lemma for_each_ext {A B} (f g : A -> M B) (l : list A) (s : Session) :
  (forall a s, f a s = g a s) -> for_each f l s = for_each g l s.
Proof.
  intros Hfg. revert s. induction l as [|a l IH]; intros s; [reflexivity|].
  cbn [for_each]. unfold bind. rewrite Hfg.
  destruct (g a s) as [[b|e] s1]; [|reflexivity].
  rewrite IH. reflexivity.
Qed.

Lemma steady_columns_info (fks : list ForeignKey) (columns : list Column)
    (s : Session) :
  for_each (@Live.column_info _ _ steady fks) columns s
  = for_each (column_info fks) columns s.
Proof.
  apply for_each_ext. intros column s0.
  unfold Live.column_info, column_info, bind.
  rewrite steady_foreign_key_lookup. reflexivity.
Qed.

Lemma steady_get_table_schema (table_name : str) (s : Session) :
  @Live.get_table_schema _ _ steady table_name s
  = get_table_schema table_name s.
Proof.
  unfold Live.get_table_schema, get_table_schema, try_except, bind.
  change (@Live.get_table_names _ _ steady s) with (get_table_names s).
  unfold get_table_names.
  destruct (negb (str_in table_name _)); [reflexivity|].
  change (@Live.get_table_info _ _ steady table_name s)
    with (get_table_info table_name s).
  destruct (pure_get_table_info table_name s) as [r [Er _]].
  rewrite Er. destruct r as [table_info|e]; [|reflexivity].
  change (@Live.reflect _ _ steady s) with (reflect s).
  unfold reflect.
  destruct (find_table table_name _) as [table|]; [|reflexivity].
  change (@Live.get_foreign_keys _ _ steady table_name s)
    with (get_foreign_keys table_name s).
  unfold get_foreign_keys.
  rewrite steady_columns_info. reflexivity.
Qed.

End Steady.

(** * The properties on the small databases, continued *)

Lemma reports_are_five_fixed_queries_witness :
  exists s',
    @report_handler ascii_runtime toy_backend Query1 toy_session =
      (Ok (ReportPage
             {| report_tables := [lit "clients"; lit "payments"];
                report_current_query := lit "query1";
                report_columns := [lit "n"];
                report_data := [[(lit "n", PInt 0)]];
                report_query_title := query1_title |}), s').
Proof.
  destruct (@reports_are_five_fixed_queries ascii_runtime toy_backend)
    as [_ [_ [_ [_ Hrun]]]].
  eexists.
  rewrite (Hrun Query1 toy_session
             {| rs_keys := [lit "n"]; rs_rows := [[PInt 0]];
                rs_rowcount := 1 |} 1%Z).
  - reflexivity.
  - vm_compute. reflexivity.
  - repeat constructor.
Defined.
Lemma get_table_schema_lists_columns_witness :
  exists schema s',
    @get_table_schema ascii_runtime toy_backend (lit "payments") toy_session
    = (Ok schema, s') /\
    @lists_columns ascii_runtime toy_backend
      [ {| constrained_columns := [lit "client"];
           referred_table := lit "clients";
           referred_columns := [lit "id"] |} ]
      0%Z (tbl_columns toy_payments) (schema_columns schema) (working s').
Proof.
  destruct (@get_table_schema_lists_columns ascii_runtime toy_backend
              (lit "payments") toy_session toy_payments eq_refl)
    as [Hlist Htotal].
  - constructor; [split; reflexivity|constructor].
  - destruct Htotal as [schema [s' E]].
    + constructor; [|constructor].
      intros target d Ht. inversion Ht. subst target.
      do 2 eexists. split; [reflexivity|repeat constructor].
    + exists schema, s'. split; [exact E|].
      exact (proj2 (Hlist schema s' E)).
Defined.
Lemma fetched_rows_are_json_safe_witness :
  fst (@get_table_data ascii_runtime meter_backend (lit "readings")
         meter_session)
  = Ok ([lit "no"; lit "client"; lit "service"; lit "taken_on"],
        [reading_row]) /\
  fst (@execute_custom_query ascii_runtime meter_backend
         (lit "SELECT * FROM readings") meter_session)
  = Ok ([lit "no"; lit "client"; lit "service"; lit "taken_on"],
        [reading_row]) /\
  json_row reading_row /\
  safe_jsonify toy_json_dumps (Some reading_row)
  = toy_json_dumps reading_row.
Proof.
  split; [reflexivity|]. split; [reflexivity|].
  pose proof
    (proj1 (@fetched_rows_are_json_safe ascii_runtime meter_backend
              meter_session
              (snd (@get_table_data ascii_runtime meter_backend
                      (lit "readings") meter_session))
              [lit "no"; lit "client"; lit "service"; lit "taken_on"]
              [reading_row] toy_json_dumps)
       (lit "readings") eq_refl) as Htable.
  pose proof
    (proj1 (proj2
       (@fetched_rows_are_json_safe ascii_runtime meter_backend
          meter_session
          (snd (@execute_custom_query ascii_runtime meter_backend
                  (lit "SELECT * FROM readings") meter_session))
          [lit "no"; lit "client"; lit "service"; lit "taken_on"]
          [reading_row] toy_json_dumps))
       (lit "SELECT * FROM readings") eq_refl) as Hquery.
  inversion Htable as [|row rows Hrow _]. subst.
  split; [exact Hrow|].
  exact (proj2 (proj2
           (@fetched_rows_are_json_safe ascii_runtime meter_backend
              meter_session meter_session [] [] toy_json_dumps))
           reading_row Hrow).
Defined.
(** C9, as stated, fails, on the small server.  The statement [insert x]
    runs and is committed, and the list of tables cannot be read right after
    the commit: [execute_sql] rolls back, which undoes nothing, and shows
    the error page although the database now holds the new data.  The text
    [insert 1; COMMIT; boom] commits by itself before it fails: the handler
    rolls back and shows the error, and the database holds the new data.
    And on a server that is down the list of tables cannot be read for the
    error page either, so the [SQLAlchemyError] leaves the handler. *)
Lemma execute_sql_reports_error_after_commit :
  (fst (@Live.execute_sql_try ascii_runtime toy_backend toy_server
          (strip (lit "insert x")) toy_session)
   = Raise (SQLAlchemyError (lit "connection lost")) /\
   fst (@Live.execute_sql ascii_runtime toy_backend toy_server
          (lit "insert x") toy_session)
   = Ok (SqlPage {| sql_tables := [lit "clients"; lit "payments"];
                    sql_current_query := lit "custom_sql";
                    sql_columns := [];
                    sql_data := [];
                    sql_query_text := lit "insert x";
                    sql_error := Some (lit "connection lost");
                    sql_success := None |}) /\
   calls (snd (@Live.execute_sql ascii_runtime toy_backend toy_server
                 (lit "insert x") toy_session))
   = [Execute (lit "insert x") []; Commit; Rollback] /\
   committed toy_session = 0%Z /\
   committed (snd (@Live.execute_sql ascii_runtime toy_backend toy_server
                     (lit "insert x") toy_session)) = 1%Z) /\
  (fst (@Live.execute_sql_try ascii_runtime toy_backend toy_server
          (strip (lit "insert 1; COMMIT; boom")) toy_session)
   = Raise (SQLAlchemyError (lit "boom")) /\
   fst (@Live.execute_sql ascii_runtime toy_backend toy_server
          (lit "insert 1; COMMIT; boom") toy_session)
   = Ok (SqlPage {| sql_tables := [lit "clients"; lit "payments"];
                    sql_current_query := lit "custom_sql";
                    sql_columns := [];
                    sql_data := [];
                    sql_query_text := lit "insert 1; COMMIT; boom";
                    sql_error := Some (lit "boom");
                    sql_success := None |}) /\
   calls (snd (@Live.execute_sql ascii_runtime toy_backend toy_server
                 (lit "insert 1; COMMIT; boom") toy_session))
   = [Execute (lit "insert 1; COMMIT; boom") []; Rollback] /\
   committed (snd (@Live.execute_sql ascii_runtime toy_backend toy_server
                     (lit "insert 1; COMMIT; boom") toy_session)) = 1%Z) /\
  (fst (@Live.execute_sql_try ascii_runtime toy_backend toy_server
          (strip (lit "select 1"))
          (@SessionLocal ascii_runtime toy_backend 100%Z))
   = Raise (SQLAlchemyError (lit "server down")) /\
   fst (@Live.execute_sql ascii_runtime toy_backend toy_server
          (lit "select 1") (@SessionLocal ascii_runtime toy_backend 100%Z))
   = Raise (SQLAlchemyError (lit "server down")) /\
   calls (snd (@Live.execute_sql ascii_runtime toy_backend toy_server
                 (lit "select 1")
                 (@SessionLocal ascii_runtime toy_backend 100%Z)))
   = [Execute (lit "select 1") []; Rollback]).
Proof. repeat split; reflexivity. Qed.

Lemma handlers_roll_back_on_database_error_witness :
  committed (snd (@Live.add_record ascii_runtime toy_backend toy_server
                    (lit "clients") boom_form toy_session)) = 0%Z /\
  committed (snd (@Live.edit_record ascii_runtime toy_backend toy_server
                    (lit "clients") boom_form toy_session)) = 0%Z /\
  committed (snd (@Live.delete_record ascii_runtime toy_backend toy_server
                    (lit "clients") boom_form toy_session)) = 0%Z /\
  committed (snd (@Live.execute_sql ascii_runtime toy_backend toy_server
                    (lit "insert boom") toy_session)) = 0%Z.
Proof.
  destruct (@handlers_roll_back_on_database_error ascii_runtime toy_backend
              toy_server)
    as [Hadd [Hedit [Hdelete Hsql]]].
  assert (Hquiet :
    forall s1 statement params,
      calls s1 = [Execute statement params] ->
      contains statement (lit "COMMIT") = false ->
      @leaves_transaction_open ascii_runtime toy_backend toy_server
        toy_session s1).
  { intros s1 statement params Hc Hn st ps Hin.
    unfold new_calls in Hin. rewrite Hc in Hin.
    change (In (Execute st ps) [Execute statement params]) in Hin.
    destruct Hin as [Hin|[]]. inversion Hin. subst.
    cbn [ends_transaction toy_server]. rewrite Hn. reflexivity. }
  split; [|split; [|split]].
  - destruct (Hadd (lit "clients") boom_form (lit "boom") toy_session
                (snd (@Live.add_record_try ascii_runtime toy_backend
                        toy_server (lit "clients") boom_form toy_session))
                eq_refl) as [E Hc].
    rewrite E. apply Hc. eapply Hquiet; reflexivity.
  - destruct (Hedit (lit "clients") boom_form (lit "boom") toy_session
                (snd (@Live.edit_record_try ascii_runtime toy_backend
                        toy_server (lit "clients") boom_form toy_session))
                eq_refl) as [E Hc].
    rewrite E. apply Hc. eapply Hquiet; reflexivity.
  - destruct (Hdelete (lit "clients") boom_form (lit "boom") toy_session
                (snd (@Live.delete_record_try ascii_runtime toy_backend
                        toy_server (lit "clients") boom_form toy_session))
                eq_refl) as [E Hc].
    rewrite E. apply Hc. eapply Hquiet; reflexivity.
  - destruct (Hsql (lit "insert boom") (lit "boom") toy_session
                (snd (@Live.execute_sql_try ascii_runtime toy_backend
                        toy_server (strip (lit "insert boom")) toy_session))
                eq_refl) as [[error_message [_ E]] Hc].
    rewrite E.
    destruct Hc as [Hc|[Hin _]].
    + eapply Hquiet; reflexivity.
    + apply Hc.
    + exfalso. unfold new_calls in Hin.
      destruct Hin as [Hin|[]]. discriminate.
Defined.

Lemma execute_sql_select_never_commits_witness :
  @Live.execute_sql ascii_runtime toy_backend toy_server
    (lit " select 1 ") toy_session =
    (Ok (SqlPage
           {| sql_tables := [lit "clients"; lit "payments"];
              sql_current_query := lit "custom_sql";
              sql_columns := [lit "n"];
              sql_data := [[(lit "n", PInt 0)]];
              sql_query_text := lit "select 1";
              sql_error := None;
              sql_success :=
                Some (lit "Запрос выполнен успешно. Найдено записей: "
                      ++ lit "1") |}),
     @Build_Session ascii_runtime toy_backend 0%Z 1%Z
       [Execute (lit "select 1") []] false) /\
  new_calls toy_session
    (snd (@Live.execute_sql ascii_runtime toy_backend toy_server
            (lit "select boom") toy_session))
  = [Execute (lit "select boom") []; Rollback].
Proof.
  split.
  - exact (proj2 (proj2 (proj2
             (@execute_sql_select_never_commits ascii_runtime toy_backend
                toy_server (lit " select 1 ") (lit "select") toy_session
                eq_refl eq_refl)))
             first_answer 1%Z eq_refl
             ltac:(repeat constructor)).
  - exact (proj1 (proj2 (proj2
             (@execute_sql_select_never_commits ascii_runtime toy_backend
                toy_server (lit "select boom") (lit "select") toy_session
                eq_refl eq_refl)))
             (lit "boom") eq_refl).
Defined.

Lemma execute_sql_shows_one_line_error_witness :
  exists page,
    fst (@Live.execute_sql ascii_runtime meter_backend
           (@steady ascii_runtime meter_backend)
           (lit "INSERT INTO readings VALUES (1)") meter_session)
    = Ok (SqlPage page) /\
    sql_error page
    = Some (lit "duplicate key value violates unique constraint"
            ++ lit " Детали: " ++ lit "Key (no)=(1) already exists.").
Proof.
  destruct (@execute_sql_shows_one_line_error ascii_runtime meter_backend
              (@steady ascii_runtime meter_backend)
              (lit "INSERT INTO readings VALUES (1)") duplicate_key
              meter_session
              (snd (@Live.execute_sql_try ascii_runtime meter_backend
                      (@steady ascii_runtime meter_backend)
                      (strip (lit "INSERT INTO readings VALUES (1)"))
                      meter_session))
              eq_refl eq_refl)
    as [page [error_message [E [He [_ [_ [_ [_ Hdetail]]]]]]]].
  exists page. split; [exact E|]. rewrite He. f_equal.
  rewrite (Hdetail
             (lit "duplicate key value violates unique constraint"
              ++ newline)
             (lit "  Key (no)=(1) already exists." ++ newline)).
  - vm_compute. reflexivity.
  - vm_compute. reflexivity.
  - vm_compute. reflexivity.
  - vm_compute. reflexivity.
Defined.

Lemma get_table_schema_raises_http_errors_witness :
  @Live.get_table_schema ascii_runtime toy_backend toy_server
    (lit "clients") (record_call Commit toy_session)
  = (Raise (HTTPException 500
              (lit "Ошибка базы данных: " ++ lit "connection lost")),
     record_call Commit toy_session) /\
  @Live.get_table_schema ascii_runtime toy_backend toy_server
    (lit "nope") toy_session
  = (Raise (HTTPException 404
              (lit "Таблица " ++ lit "nope" ++ lit " не найдена")),
     toy_session) /\
  exists log,
    calls (snd (@Live.get_table_schema ascii_runtime orders_backend
                  (@steady ascii_runtime orders_backend)
                  (lit "orders") orders_session))
    = log ++ [Execute (lit "SELECT DISTINCT " ++ dq ++ lit "id" ++ dq
                       ++ lit " FROM " ++ dq ++ lit "boom" ++ dq) []].
Proof.
  split; [|split].
  - exact (proj1 (@get_table_schema_raises_http_errors ascii_runtime
                    toy_backend toy_server (lit "clients")
                    (record_call Commit toy_session))
             (lit "connection lost") eq_refl).
  - exact (proj1 (proj2 (@get_table_schema_raises_http_errors ascii_runtime
                           toy_backend toy_server (lit "nope") toy_session))
             eq_refl eq_refl).
  - destruct (proj2 (proj2 (@get_table_schema_raises_http_errors
                              ascii_runtime orders_backend
                              (@steady ascii_runtime orders_backend)
                              (lit "orders") orders_session))
                (HTTPException 500 (lit "Ошибка базы данных: " ++ lit "boom"))
                (snd (@Live.get_table_schema ascii_runtime orders_backend
                        (@steady ascii_runtime orders_backend)
                        (lit "orders") orders_session))
                eq_refl eq_refl eq_refl)
      as [[message [fk [target [log [_ [Hfk [Ht [Hc _]]]]]]]]|[He _]].
    + destruct Hfk as [Hfk|[]]. subst fk. inversion Ht. subst target.
      exists log. exact Hc.
    + discriminate.
Defined.
